(** * Project-context aggregation engine: scan, select, assemble

    A shallow embedding of the [ContextManager] class of the MCP context
    server (scanProject / buildProjectStructure, findRelevantFiles /
    matchesPattern, getFileContent / getFileContext /
    generateProjectContext) together with the theorems that relate the code
    to its specification.

    Conventions.
    - JavaScript strings are [string]; the helpers of the JavaScript
      standard library and of Node's [path] module that the code calls are
      modelled in the module [Js].
    - The directory tree the scanner walks is a finite tree of directory
      entries ([FsEntry]); the files the assembler reads are seen through
      the record [World] ([readFileSync], [statSync], [process.cwd()]).
    - The file cache ([this.fileCache], a JavaScript [Map]) is a
      [gmap string string].
    - A thrown exception is the [Throw] case of [result].
    - The methods are embedded twice.  First on the values the
      specification speaks of: caps and depths that are natural numbers,
      patterns whose test keeps no state, a process whose working directory
      exists.  Then, in the module [General], on every value the code can
      receive: any JavaScript number, [RegExp] objects that keep a
      [lastIndex], a [process.cwd()] that throws.  The second embedding is
      the first one on the values of the first
      ([General_findRelevantFiles_plain],
      [General_generateProjectContext_plain], [General_addContext_plain]). *)

From Stdlib Require Import ZArith Ascii String List Lia Bool.
From Stdlib Require QArith.
From stdpp Require Import base option list gmap strings.

Set Warnings "-register-all".
Local Open Scope string_scope.

(** ** JavaScript and Node primitives *)

Module Js.

(** [s.startsWith(p)] *)
Fixpoint startsWith (s p : string) {struct p} : bool :=
  match p, s with
  | EmptyString, _ => true
  | String _ _, EmptyString => false
  | String c p', String d s' => Ascii.eqb c d && startsWith s' p'
  end.

(** [s.includes(p)]: [p] occurs in [s] as a contiguous substring. *)
Fixpoint includes (s p : string) : bool :=
  startsWith s p ||
  match s with
  | EmptyString => false
  | String _ s' => includes s' p
  end.

(** [toLowerCase] on one code unit.  Only the ASCII letters are mapped; the
    seven extensions of the allow list are ASCII, and no other character
    lower-cases to one of their letters. *)
Definition lower_ascii (c : ascii) : ascii :=
  let n := nat_of_ascii c in
  if (65 <=? n)%nat && (n <=? 90)%nat then ascii_of_nat (n + 32) else c.

Fixpoint toLowerCase (s : string) : string :=
  match s with
  | EmptyString => EmptyString
  | String c s' => String (lower_ascii c) (toLowerCase s')
  end.

(** [s.slice(a, b)] for [0 <= a]. *)
Definition slice (s : string) (a b : Z) : string :=
  String.substring (Z.to_nat a) (Z.to_nat (b - a)) s.

Fixpoint rev_chars (s : string) (acc : list ascii) : list ascii :=
  match s with
  | EmptyString => acc
  | String c s' => rev_chars s' (c :: acc)
  end.

(** State of the backwards scan of Node's [path.posix.extname]. *)
Record ExtState := {
  startDot : Z;
  startPart : Z;
  end_ : Z;
  matchedSlash : bool;
  preDotState : Z
}.

Definition ext_init : ExtState :=
  {| startDot := -1; startPart := 0; end_ := -1;
     matchedSlash := true; preDotState := 0 |}.

(** The loop [for (let i = path.length - 1; i >= 0; --i)] of [extname]; the
    characters come in reverse order, [i] is the index of the first. *)
Fixpoint extname_loop (cs : list ascii) (i : Z) (st : ExtState) : ExtState :=
  match cs with
  | [] => st
  | code :: rest =>
      if Ascii.eqb code "/" then
        if negb (matchedSlash st) then
          {| startDot := startDot st; startPart := i + 1; end_ := end_ st;
             matchedSlash := matchedSlash st; preDotState := preDotState st |}
        else extname_loop rest (i - 1) st
      else
        let st1 :=
          if (end_ st =? -1)%Z then
            {| startDot := startDot st; startPart := startPart st;
               end_ := i + 1; matchedSlash := false;
               preDotState := preDotState st |}
          else st in
        let st2 :=
          if Ascii.eqb code "." then
            if (startDot st1 =? -1)%Z then
              {| startDot := i; startPart := startPart st1; end_ := end_ st1;
                 matchedSlash := matchedSlash st1;
                 preDotState := preDotState st1 |}
            else if negb (preDotState st1 =? 1)%Z then
              {| startDot := startDot st1; startPart := startPart st1;
                 end_ := end_ st1; matchedSlash := matchedSlash st1;
                 preDotState := 1 |}
            else st1
          else if negb (startDot st1 =? -1)%Z then
            {| startDot := startDot st1; startPart := startPart st1;
               end_ := end_ st1; matchedSlash := matchedSlash st1;
               preDotState := -1 |}
          else st1 in
        extname_loop rest (i - 1) st2
  end.

(** [path.extname(p)] (POSIX flavour). *)
Definition extname (p : string) : string :=
  let st := extname_loop (rev_chars p []) (Z.of_nat (String.length p) - 1)
                         ext_init in
  if (startDot st =? -1)%Z || (end_ st =? -1)%Z || (preDotState st =? 0)%Z ||
     ((preDotState st =? 1)%Z && (startDot st =? end_ st - 1)%Z &&
      (startDot st =? startPart st + 1)%Z)
  then ""
  else slice p (startDot st) (end_ st).

(** The loop of [path.posix.basename] (no suffix argument): the state is
    [(start, end, matchedSlash)]. *)
Fixpoint basename_loop (cs : list ascii) (i : Z) (st : Z * Z * bool)
  : Z * Z * bool :=
  match cs with
  | [] => st
  | code :: rest =>
      let '(start, e, matched) := st in
      if Ascii.eqb code "/" then
        if negb matched then (i + 1, e, matched)%Z
        else basename_loop rest (i - 1) st
      else if (e =? -1)%Z then basename_loop rest (i - 1) (start, i + 1, false)%Z
      else basename_loop rest (i - 1) st
  end.

(** [path.basename(p)] *)
Definition basename (p : string) : string :=
  let '(start, e, _) :=
    basename_loop (rev_chars p []) (Z.of_nat (String.length p) - 1)
                  (0, -1, true)%Z in
  if (e =? -1)%Z then "" else slice p start e.

(** [path.join(a, b)] on the arguments the scanner passes: [a] is the
    empty string or a path in normal form other than the root [/] (no
    separator at its end, no segment [.], [..] or empty) and [b] is the name
    of a directory entry, a single segment other than [.] and [..], so that
    no normalisation step changes the joined string. *)
Definition path_join (a b : string) : string :=
  match a, b with
  | EmptyString, _ => b
  | _, EmptyString => a
  | _, _ => a ++ "/" ++ b
  end.

(** [path.resolve(p)] with the working directory [cwd] ([process.cwd()], an
    absolute normalised path) on a normalised [p]: an absolute [p] is kept,
    a relative one is appended to [cwd]. *)
Definition path_resolve (cwd p : string) : string :=
  if startsWith p "/" then p
  else match p with
       | EmptyString => cwd
       | _ => if String.eqb cwd "/" then "/" ++ p else cwd ++ "/" ++ p
       end.

End Js.

(** ** Errors *)

(** A JavaScript exception: an [Error] built with a message, or the error a
    failed file-system call throws (system call and path). *)
Inductive JsError :=
| ErrorMsg (message : string)
| FsError (syscall path : string).

Inductive result (A : Type) :=
| Ok (a : A)
| Throw (e : JsError).
Arguments Ok {A} a.
Arguments Throw {A} e.

Definition bind {A B} (r : result A) (k : A -> result B) : result B :=
  match r with
  | Ok a => k a
  | Throw e => Throw e
  end.

Notation "x <- r ;; k" := (bind r (fun x => k))
  (at level 100, r at next level, right associativity).

(** ** Data model *)

(** The objects [buildProjectStructure] builds:
    [{type: "directory", name, path, children}] and
    [{type: "file", name, path, extension}]. *)
Inductive TreeNode :=
| Directory (name path : string) (children : list TreeNode)
| File (name path extension : string).

Definition node_name (n : TreeNode) : string :=
  match n with
  | Directory name _ _ => name
  | File name _ _ => name
  end.

Definition node_path (n : TreeNode) : string :=
  match n with
  | Directory _ path _ => path
  | File _ path _ => path
  end.

(** What [readdirSync(dir, {withFileTypes: true})] shows below a directory:
    an entry for which [isDirectory()] is false (regular file, symbolic
    link, socket, ...), a directory with its own entries in enumeration
    order, or a directory whose listing fails. *)
Inductive FsEntry :=
| FsFile (name : string)
| FsDir (name : string) (entries : list FsEntry)
| FsDenied (name : string).

Definition entry_name (e : FsEntry) : string :=
  match e with
  | FsFile name => name
  | FsDir name _ => name
  | FsDenied name => name
  end.

(** ** Tree scanner *)

(** The test that makes the loop [continue]. *)
Definition skipped (name : string) : bool :=
  String.eqb name "node_modules" ||
  String.eqb name ".git" ||
  Js.startsWith name "." ||
  String.eqb name "dist" ||
  String.eqb name "build".

Definition codeExtensions : list string :=
  [".js"; ".jsx"; ".ts"; ".tsx"; ".json"; ".html"; ".css"].

(** [Array.prototype.includes] on strings. *)
Definition includes_str (l : list string) (x : string) : bool :=
  existsb (String.eqb x) l.

(** The loop [for (const entry of entries)]: each iteration pushes one
    child or none; the first exception ends the loop. *)
Section ForEntries.
Context (body : FsEntry -> result (option TreeNode)).

Fixpoint forEntries (entries : list FsEntry) : result (list TreeNode) :=
  match entries with
  | [] => Ok []
  | entry :: rest =>
      pushed <- body entry ;;
      more <- forEntries rest ;;
      Ok (match pushed with Some child => child :: more | None => more end)
  end.
End ForEntries.

(** One iteration of the loop of [buildProjectStructure(dir, relativePath)]
    on [entry]; the recursive call on a sub-directory is inlined. *)
Fixpoint scanEntry (dir relativePath : string) (entry : FsEntry)
  : result (option TreeNode) :=
  let entryPath := Js.path_join dir (entry_name entry) in
  let entryRelativePath := Js.path_join relativePath (entry_name entry) in
  if skipped (entry_name entry) then Ok None
  else
    match entry with
    | FsDir _ sub =>
        children <- forEntries (scanEntry entryPath entryRelativePath) sub ;;
        Ok (Some (Directory (Js.basename entryPath) entryRelativePath children))
    | FsDenied _ => Throw (FsError "scandir" entryPath)
    | FsFile name =>
        let ext := Js.toLowerCase (Js.extname name) in
        if includes_str codeExtensions ext
        then Ok (Some (File name entryRelativePath ext))
        else Ok None
    end.

(** What [readdirSync(projectRoot)] finds at the path the caller passes. *)
Inductive RootListing :=
| Listing (entries : list FsEntry)
| NoSuchDirectory
| NotADirectory
| ListingDenied.

Definition readdirSync (dir : string) (root : RootListing)
  : result (list FsEntry) :=
  match root with
  | Listing entries => Ok entries
  | NoSuchDirectory => Throw (FsError "scandir" dir)
  | NotADirectory => Throw (FsError "scandir" dir)
  | ListingDenied => Throw (FsError "scandir" dir)
  end.

(** [buildProjectStructure(dir, relativePath)] once [readdirSync(dir)]
    returned [entries]. *)
Definition buildProjectStructure (dir relativePath : string)
    (entries : list FsEntry) : result TreeNode :=
  children <- forEntries (scanEntry dir relativePath) entries ;;
  Ok (Directory (Js.basename dir) relativePath children).

(** [scanProject(projectRoot)] up to the assignment of
    [this.projectStructure]: the tree, or the exception that is logged and
    thrown again. *)
Definition scan (projectRoot : string) (root : RootListing) : result TreeNode :=
  entries <- readdirSync projectRoot root ;;
  buildProjectStructure projectRoot "" entries.

(** ** File selection *)

(** A pattern as [matchesPattern] tells them apart: a string, a [RegExp]
    (given by its [test] method; a regular expression without the [g] and
    [y] flags, whose [test] keeps no state), or any other value.  A
    [RegExp] with the [g] or the [y] flag is not a value of this type: it is
    a [General.Reg] pattern, and [General.matchesPattern] is the method on
    it. *)
Inductive Pattern :=
| PString (s : string)
| PRegExp (test : string -> bool)
| POther.

Definition matchesPattern (filePath : string) (pattern : Pattern) : bool :=
  match pattern with
  | PRegExp test => test filePath
  | PString s => Js.includes filePath s
  | POther => false
  end.

(** The options of [generateProjectContext]; [maxFiles] and [maxDepth] are
    non-negative integers.  The other numbers ([-1], [0.5], [NaN]) are
    values of [General.Options]. *)
Record Options := {
  maxFiles : nat;
  maxDepth : nat;
  includePatterns : list Pattern;
  excludePatterns : list Pattern
}.

Definition defaultOptions : Options :=
  {| maxFiles := 10; maxDepth := 3;
     includePatterns := []; excludePatterns := [] |}.

(** An element of the array [findRelevantFiles] returns:
    [{path, absolutePath}]. *)
Record RelevantFile := {
  file_path : string;
  absolutePath : string
}.

Definition matchesInclude (options : Options) (path : string) : bool :=
  (length (includePatterns options) =? 0)%nat ||
  existsb (matchesPattern path) (includePatterns options).

Definition matchesExclude (options : Options) (path : string) : bool :=
  existsb (matchesPattern path) (excludePatterns options).

(** The loop [for (const child of node.children)] of [findRelevantFiles],
    [visit] being the recursive call on a child. *)
Section ForChildren.
Context (limit : nat) (visit : TreeNode -> list RelevantFile).

Fixpoint forChildren (children : list TreeNode)
    (results : list RelevantFile) : list RelevantFile :=
  match children with
  | [] => results
  | child :: rest =>
      if (limit <=? length results)%nat then results
      else forChildren rest (take limit (results ++ visit child))
  end.
End ForChildren.

(** [findRelevantFiles(node, {...options, currentDepth})]; [cwd] is the
    working directory [path.resolve] reads. *)
Fixpoint findRelevantFiles (cwd : string) (options : Options)
    (currentDepth : nat) (node : TreeNode) : list RelevantFile :=
  if (maxDepth options <? currentDepth)%nat then []
  else
    match node with
    | Directory _ _ children =>
        forChildren (maxFiles options)
          (findRelevantFiles cwd options (S currentDepth)) children []
    | File _ path _ =>
        if matchesInclude options path && negb (matchesExclude options path)
        then [ {| file_path := path;
                  absolutePath := Js.path_resolve cwd path |} ]
        else []
    end.

(** ** Content cache and context assembly *)

(** What the process sees outside itself during one call: its working
    directory, the text [readFileSync(p, "utf8")] returns and the
    modification time [statSync(p).mtime] returns; [None] is a thrown
    exception.  The working directory exists, so that [process.cwd()]
    returns [cwd]; a process whose [process.cwd()] throws is a
    [General.Host]. *)
Record World := {
  cwd : string;
  readFileSync : string -> option string;
  statSync : string -> option Z
}.

(** [getFileContent(filePath)]: the returned value ([None] is [null]) and
    the cache afterwards. *)
Definition getFileContent (w : World) (filePath : string)
    (fileCache : gmap string string) : option string * gmap string string :=
  match fileCache !! filePath with
  | Some cached => (Some cached, fileCache)
  | None =>
      match readFileSync w filePath with
      | Some content => (Some content, <[filePath := content]> fileCache)
      | None => (None, fileCache)
      end
  end.

(** The object [getFileContext] resolves to. *)
Record FileContext := {
  path : string;
  content : string;
  extension : string;
  lastModified : Z
}.

(** [!content] *)
Definition falsy (content : option string) : bool :=
  match content with
  | None => true
  | Some EmptyString => true
  | Some (String _ _) => false
  end.

(** [getFileContext] after [await this.getFileContent(filePath)] gave
    [content]. *)
Definition fileContextOf (w : World) (filePath : string)
    (content : option string) : result (option FileContext) :=
  match content with
  | Some (String c s) =>
      match statSync w filePath with
      | Some mtime =>
          Ok (Some {| path := filePath; content := String c s;
                      extension := Js.extname filePath;
                      lastModified := mtime |})
      | None => Throw (FsError "stat" filePath)
      end
  | _ => Ok None
  end.

(** [getFileContext(filePath)] called alone. *)
Definition getFileContext (w : World) (filePath : string)
    (fileCache : gmap string string)
  : result (option FileContext) * gmap string string :=
  let '(content, fileCache') := getFileContent w filePath fileCache in
  (fileContextOf w filePath content, fileCache').

(** The calls [this.getFileContext(file.absolutePath)] made by [map]: each
    runs [getFileContent] to its end before it suspends at [await], so all
    reads happen first, in order, threading the cache. *)
Fixpoint readAll (w : World) (paths : list string)
    (fileCache : gmap string string)
  : list (option string) * gmap string string :=
  match paths with
  | [] => ([], fileCache)
  | p :: rest =>
      let '(content, cache1) := getFileContent w p fileCache in
      let '(contents, cache2) := readAll w rest cache1 in
      (content :: contents, cache2)
  end.

(** [Promise.all]: the values in order, or the first rejection. *)
Fixpoint promiseAll {A} (promises : list (result A)) : result (list A) :=
  match promises with
  | [] => Ok []
  | p :: rest =>
      a <- p ;;
      more <- promiseAll rest ;;
      Ok (a :: more)
  end.

(** [fileContexts.filter((context) => context !== null)] *)
Fixpoint filterNotNull {A} (l : list (option A)) : list A :=
  match l with
  | [] => []
  | Some a :: rest => a :: filterNotNull rest
  | None :: rest => filterNotNull rest
  end.

Record ContextManager := {
  fileCache : gmap string string;
  projectStructure : option TreeNode
}.

Record ProjectContext := {
  structure : TreeNode;
  relevantFiles : list FileContext
}.

(** [new ContextManager()] *)
Definition newContextManager : ContextManager :=
  {| fileCache := ∅; projectStructure := None |}.

(** [scanProject(projectRoot)] *)
Definition scanProject (projectRoot : string) (root : RootListing)
    (cm : ContextManager) : result TreeNode * ContextManager :=
  match scan projectRoot root with
  | Ok tree => (Ok tree, {| fileCache := fileCache cm;
                            projectStructure := Some tree |})
  | Throw e => (Throw e, cm)
  end.

(** [generateProjectContext(options)]: the value or exception of the call
    and the manager afterwards. *)
Definition generateProjectContext (w : World) (options : Options)
    (cm : ContextManager) : result ProjectContext * ContextManager :=
  match projectStructure cm with
  | None => (Throw (ErrorMsg "Project has not been scanned yet"), cm)
  | Some tree =>
      let relevant := findRelevantFiles (cwd w) options 0 tree in
      let paths := map absolutePath relevant in
      let '(contents, cache') := readAll w paths (fileCache cm) in
      (fileContexts <- promiseAll (zip_with (fileContextOf w) paths contents) ;;
       Ok {| structure := tree;
             relevantFiles := filterNotNull fileContexts |},
       {| fileCache := cache'; projectStructure := Some tree |})
  end.

(** ** Vocabulary of the specification *)

(** A name [readdirSync] can return: not empty, no separator. *)
Definition valid_name (name : string) : bool :=
  negb (String.eqb name "") && negb (Js.includes name "/").

Fixpoint valid_entry (e : FsEntry) : bool :=
  valid_name (entry_name e) &&
  match e with
  | FsDir _ sub => forallb valid_entry sub
  | _ => true
  end.

(** No directory below the listing refuses to be listed. *)
Fixpoint listable (e : FsEntry) : bool :=
  match e with
  | FsFile _ => true
  | FsDir _ sub => forallb listable sub
  | FsDenied _ => false
  end.

(** [Reaches names n t]: going down from [t] through the children named
    [names], in this order, ends at the node [n] (whose name is the last of
    [names]); [names] is empty when [n] is [t] itself. *)
Inductive Reaches : list string -> TreeNode -> TreeNode -> Prop :=
| Reaches_here t : Reaches [] t t
| Reaches_child name path children child names n :
    In child children ->
    Reaches names n child ->
    Reaches (node_name child :: names) n (Directory name path children).

(** The relative path of the entry reached through [names] from a directory
    of relative path [rel]. *)
Definition joinFrom (rel : string) (names : list string) : string :=
  fold_left Js.path_join names rel.

(** The file leaves below [node], each with its depth (the number of
    directories above it), [node] being at depth [d]; depth-first, children
    in order. *)
Fixpoint leaves (d : nat) (node : TreeNode) : list (nat * string) :=
  match node with
  | File _ path _ => [(d, path)]
  | Directory _ _ children => flat_map (leaves (S d)) children
  end.

(** [FileAt d p t]: [t] has a file leaf of relative path [p] with [d]
    directories above it, [t] included when it is a directory. *)
Inductive FileAt : nat -> string -> TreeNode -> Prop :=
| FileAt_leaf name path ext : FileAt 0 path (File name path ext)
| FileAt_child name path children child d p :
    In child children ->
    FileAt d p child ->
    FileAt (S d) p (Directory name path children).

(** A candidate passes the include and exclude tests. *)
Definition candidate (options : Options) (path : string) : bool :=
  matchesInclude options path && negb (matchesExclude options path).

Definition relevantFile (cwd path : string) : RelevantFile :=
  {| file_path := path; absolutePath := Js.path_resolve cwd path |}.

(** The candidates the depth-bounded traversal meets, in order. *)
Definition reachableCandidates (options : Options) (d : nat) (node : TreeNode)
  : list string :=
  map snd
    (List.filter (fun l => (fst l <=? maxDepth options)%nat
                           && candidate options (snd l))
                 (leaves d node)).


(** The text a request for [p] obtains with cache [fileCache]. *)
Definition contentOf (w : World) (fileCache : gmap string string)
    (p : string) : option string :=
  match fileCache !! p with
  | Some cached => Some cached
  | None => readFileSync w p
  end.

(** The files of a successful call, [None] for a call that threw. *)
Definition filesOf (r : result ProjectContext) : option (list FileContext) :=
  match r with
  | Ok pc => Some (relevantFiles pc)
  | Throw _ => None
  end.

(** ** Sample projects *)

(** Scenario 1 of the specification. *)
Definition scenario1 : list FsEntry :=
  [ FsDir "src" [FsFile "a.ts"; FsFile "b.txt"];
    FsDir "node_modules" [FsFile "c.js"] ].

(** A world that holds the files of [files] ([path], text, modification
    time) and nothing else. *)
Definition worldOf (dir : string) (files : list (string * (string * Z)))
  : World :=
  {| cwd := dir;
     readFileSync := fun p =>
       fst <$> (list_to_map files : gmap string (string * Z)) !! p;
     statSync := fun p =>
       snd <$> (list_to_map files : gmap string (string * Z)) !! p |}.

Definition managerOf (r : result TreeNode * ContextManager) : ContextManager :=
  snd r.

(** ** Vocabulary of the proofs and sample data *)

(** A file leaf carries the lower-cased extension of its name, one of the
    allow list. *)
Definition leaf_ok (n : TreeNode) : Prop :=
  match n with
  | File name _ ext =>
      ext = Js.toLowerCase (Js.extname name) /\ In ext codeExtensions
  | Directory _ _ _ => True
  end.

(** What holds below a node of the scanned tree. *)
Definition pruned_below (t : TreeNode) : Prop :=
  forall names n, Reaches names n t ->
    Forall (fun name => skipped name = false) names /\
    node_path n = joinFrom (node_path t) names /\
    leaf_ok n.

(** The promises [Promise.all] receives. *)
Definition contextsOf (w : World) (cache : gmap string string)
    (paths : list string) : list (result (option FileContext)) :=
  map (fun p => fileContextOf w p (contentOf w cache p)) paths.

(** What a non-null context of a successful call holds. *)
Definition context_ok (w : World) (cache : gmap string string)
    (ctx : FileContext) : Prop :=
  contentOf w cache (path ctx) = Some (content ctx) /\
  content ctx <> "" /\
  statSync w (path ctx) = Some (lastModified ctx) /\
  extension ctx = Js.extname (path ctx).

(** What the specification calls a match: a substring for a string
    pattern, the regular-expression test for a [RegExp]. *)
Definition matches (path : string) (pattern : Pattern) : Prop :=
  match pattern with
  | PString s => exists a b, path = a ++ s ++ b
  | PRegExp test => test path = true
  | POther => False
  end.

(** A project of two files, scanned by a fresh manager. *)
Definition twoFiles : list FsEntry := [FsFile "a.js"; FsFile "b.js"].

Definition scannedTwoFiles : ContextManager :=
  managerOf (scanProject "/srv/app" (Listing twoFiles) newContextManager).

(** Both files are on disk. *)
Definition bothOnDisk : World :=
  worldOf "/srv/app" [("/srv/app/a.js", ("let a", 5%Z));
                      ("/srv/app/b.js", ("let b", 7%Z))].

(** [a.js] was deleted after the scan. *)
Definition onlyBOnDisk : World :=
  worldOf "/srv/app" [("/srv/app/b.js", ("let b", 7%Z))].


(** A project with a file at the root and one below [src]. *)
Definition nested : list FsEntry :=
  [FsFile "a.js"; FsDir "src" [FsFile "b.js"]].

Definition scannedNested : ContextManager :=
  managerOf (scanProject "/srv/app" (Listing nested) newContextManager).

Definition nestedOnDisk : World :=
  worldOf "/srv/app" [("/srv/app/a.js", ("let a", 5%Z));
                      ("/srv/app/src/b.js", ("let b", 7%Z))].

Definition depthOne : Options :=
  {| maxFiles := 10; maxDepth := 1;
     includePatterns := []; excludePatterns := [] |}.

Definition nestedTree : TreeNode :=
  Directory "app" ""
    [File "a.js" "a.js" ".js";
     Directory "src" "src" [File "b.js" "src/b.js" ".js"]].

Definition nestedResult : ProjectContext :=
  {| structure := nestedTree;
     relevantFiles :=
       [ {| path := "/srv/app/a.js"; content := "let a";
            extension := ".js"; lastModified := 5 |} ] |}.

(** The manager after a first call with both files on disk: both texts are
    cached. *)
Definition afterFirstCall : ContextManager :=
  snd (generateProjectContext bothOnDisk defaultOptions scannedTwoFiles).

(** [a.js] was touched after the first call: same text, later
    modification time. *)
Definition touchedOnDisk : World :=
  worldOf "/srv/app" [("/srv/app/a.js", ("let a", 9%Z));
                      ("/srv/app/b.js", ("let b", 7%Z))].

(** C8 as the specification words it: the modification time reported by a
    later call is the one captured when the path was first read. *)
Definition lastModified_is_snapshot (w w' : World) (o : Options)
    (cm : ContextManager) : Prop :=
  forall pc pc',
    fst (generateProjectContext w o cm) = Ok pc ->
    fst (generateProjectContext w' o (snd (generateProjectContext w o cm)))
      = Ok pc' ->
    map lastModified (relevantFiles pc') = map lastModified (relevantFiles pc).

(** The world [w] with the read of [p] failing. *)
Definition failRead (p : string) (w : World) : World :=
  {| cwd := cwd w;
     readFileSync := fun q => if String.eqb q p then None else readFileSync w q;
     statSync := statSync w |}.

(** [empty.js] exists and is empty. *)
Definition emptyFile : list FsEntry := [FsFile "empty.js"; FsFile "b.js"].

Definition scannedEmptyFile : ContextManager :=
  managerOf (scanProject "/srv/app" (Listing emptyFile) newContextManager).

Definition emptyOnDisk : World :=
  worldOf "/srv/app" [("/srv/app/empty.js", ("", 3%Z));
                      ("/srv/app/b.js", ("let b", 7%Z))].

Definition pushed_leaves (d : nat) (pushed : option TreeNode)
  : list (nat * string) :=
  match pushed with
  | Some child => leaves d child
  | None => []
  end.

(** Two iterations agree when both throw or both push nodes with the same
    file leaves. *)
Definition agree (r r' : result (option TreeNode)) : Prop :=
  match r, r' with
  | Ok pushed, Ok pushed' =>
      forall d, pushed_leaves d pushed = pushed_leaves d pushed'
  | Throw _, Throw _ => True
  | _, _ => False
  end.

Definition agree_children (r r' : result (list TreeNode)) : Prop :=
  match r, r' with
  | Ok children, Ok children' =>
      forall d, flat_map (leaves d) children = flat_map (leaves d) children'
  | Throw _, Throw _ => True
  | _, _ => False
  end.

(** The names below a directory, each after a separator. *)
Fixpoint suffixOf (names : list string) : string :=
  match names with
  | [] => ""
  | name :: rest => "/" ++ name ++ suffixOf rest
  end.

(** The process runs in [/home/me], which holds another [a.js]; the project
    scanned is [/srv/app]. *)
Definition elsewhere : World :=
  worldOf "/home/me" [("/home/me/a.js", ("not the scanned file", 11%Z));
                      ("/srv/app/a.js", ("let a", 5%Z));
                      ("/srv/app/b.js", ("let b", 7%Z))].

(** ** Rendering and request handling *)

(** [s.repeat(n)] *)
Fixpoint repeat_str (s : string) (n : nat) : string :=
  match n with
  | O => ""
  | S n' => s ++ repeat_str s n'
  end.

(** The loop [node.children.forEach((child) => { result += f(child) })]. *)
Section ForEachAppend.
Context (f : TreeNode -> string).

Fixpoint forEachAppend (children : list TreeNode) (result : string) : string :=
  match children with
  | [] => result
  | child :: rest => forEachAppend rest (result ++ f child)
  end.
End ForEachAppend.

(** [formatProjectStructure(node, depth)] *)
Fixpoint formatProjectStructure (node : TreeNode) (depth : nat) : string :=
  let indent := repeat_str "  " depth in
  match node with
  | Directory name _ children =>
      forEachAppend (fun child => formatProjectStructure child (S depth))
        children
        ("" ++ (indent ++ "📁 " ++ name ++ "/" ++ String "010" ""))
  | File name _ _ =>
      "" ++ (indent ++ "📄 " ++ name ++ String "010" "")
  end.

(** The loop [context.relevantFiles.forEach(...)] of
    [enhancePromptWithContext]. *)
Fixpoint appendFiles (files : list FileContext) (contextBlock : string)
  : string :=
  match files with
  | [] => contextBlock
  | file :: rest =>
      appendFiles rest
        (((contextBlock ++ ("--- FILE: " ++ path file ++ " ---" ++ String "010" ""))
            ++ content file)
           ++ String "010" (String "010" ""))
  end.

(** [enhancePromptWithContext(prompt, context)] *)
Definition enhancePromptWithContext (prompt : string) (context : ProjectContext)
  : string :=
  let nl := String "010" "" in
  let contextBlock := "PROJECT CONTEXT:" ++ nl ++ nl in
  let contextBlock := contextBlock ++ ("Project Structure:" ++ nl) in
  let contextBlock :=
    contextBlock ++ formatProjectStructure (structure context) 0 in
  let contextBlock := contextBlock ++ (nl ++ nl) in
  let contextBlock := contextBlock ++ ("Relevant Files:" ++ nl ++ nl) in
  let contextBlock := appendFiles (relevantFiles context) contextBlock in
  contextBlock ++ nl ++ nl ++ "USER QUERY:" ++ nl ++ prompt.

(** A JavaScript string as the sequence of its UTF-16 code units. *)
Definition CodeUnits := list N.

(** The [contentPreview] of the [/context] resource:
    [content.substring(0, 200) + (content.length > 200 ? "..." : "")];
    [substring] and [length] count code units, and [46] is the full stop. *)
Definition contentPreview (content : CodeUnits) : CodeUnits :=
  (take 200 content ++
   (if (200 <? length content)%nat then [46; 46; 46]%N else []))%list.

(** The parameters of the [add-context] tool; [None] is an absent
    parameter.  The numbers are natural numbers here, and any number in
    [General.Params]. *)
Record Params := {
  param_projectRoot : option string;
  param_maxFiles : option nat;
  param_maxDepth : option nat;
  param_includePatterns : option (list Pattern);
  param_excludePatterns : option (list Pattern)
}.

(** [x || d] on a string: the empty string is falsy. *)
Definition orString (x : option string) (d : string) : string :=
  match x with
  | Some (String c s) => String c s
  | _ => d
  end.

(** [x || d] on a natural number: zero is falsy.  [General.orNumber] is
    the operator on any number. *)
Definition orNumber (x : option nat) (d : nat) : nat :=
  match x with
  | Some (S n) => S n
  | _ => d
  end.

(** [x || []] on an array: every array is truthy. *)
Definition orArray {A} (x : option (list A)) : list A :=
  match x with
  | Some l => l
  | None => []
  end.

(** The value the [add-context] handler returns. *)
Record Enhanced := {
  enhancedPrompt : string;
  contextAdded : bool;
  filesIncluded : nat;
  contextSize : nat
}.

Section Handler.
(** The [message] of the error a failed file-system call throws, and the
    length of [JSON.stringify(context)]: both come from the platform. *)
Context (fsMessage : string -> string -> string)
        (jsonLength : ProjectContext -> nat).

(** [error.message] *)
Definition messageOf (e : JsError) : string :=
  match e with
  | ErrorMsg message => message
  | FsError syscall path => fsMessage syscall path
  end.

(** The handler of the [add-context] tool: [disk] gives what
    [readdirSync] finds at a path, [prompt] is [request.body.prompt] of a
    request that has a body.  [General.addContext] is the handler on every
    request. *)
Definition addContext (w : World) (disk : string -> RootListing)
    (params : Params) (prompt : string) (cm : ContextManager)
  : result Enhanced * ContextManager :=
  let projectRoot := orString (param_projectRoot params) (cwd w) in
  let '(scanned, cm1) :=
    match projectStructure cm with
    | None =>
        let '(r, cm') := scanProject projectRoot (disk projectRoot) cm in
        (_ <- r ;; Ok tt, cm')
    | Some _ => (Ok tt, cm)
    end in
  match scanned with
  | Throw error =>
      (Throw (ErrorMsg ("Failed to add context: " ++ messageOf error)), cm1)
  | Ok _ =>
      let '(generated, cm2) :=
        generateProjectContext w
          {| maxFiles := orNumber (param_maxFiles params) 10;
             maxDepth := orNumber (param_maxDepth params) 3;
             includePatterns := orArray (param_includePatterns params);
             excludePatterns := orArray (param_excludePatterns params) |}
          cm1 in
      match generated with
      | Throw error =>
          (Throw (ErrorMsg ("Failed to add context: " ++ messageOf error)), cm2)
      | Ok context =>
          (Ok {| enhancedPrompt := enhancePromptWithContext prompt context;
                 contextAdded := true;
                 filesIncluded := length (relevantFiles context);
                 contextSize := jsonLength context |},
           cm2)
      end
  end.
End Handler.

(** ** The selection on every value JavaScript passes

    The definitions above take the options as the specification words
    them: caps and depths that are natural numbers, patterns whose test
    keeps no state, a working directory that exists.  The module [General]
    embeds the same methods on all the values the code can receive: any
    JavaScript number, [RegExp] objects with the [g] or [y] flag, whose
    [test] reads and writes the [lastIndex] property of the object, and a
    process whose [process.cwd()] throws. *)

Module General.

(** A JavaScript number: [NaN], an infinity, or a finite value, which is a
    rational. *)
Inductive Number :=
| NaN
| Infinity (negative : bool)
| Finite (q : QArith_base.Q).

Definition ofNat (n : nat) : Number :=
  Finite (QArith_base.inject_Z (Z.of_nat n)).

(** [!x] on a number: zero and [NaN] are falsy. *)
Definition falsyNumber (x : Number) : bool :=
  match x with
  | NaN => true
  | Infinity _ => false
  | Finite q => (QArith_base.Qnum q =? 0)%Z
  end.

(** [n >= x] for a length [n]. *)
Definition ge (n : nat) (x : Number) : bool :=
  match x with
  | NaN => false
  | Infinity negative => negative
  | Finite q => QArith_base.Qle_bool q (QArith_base.inject_Z (Z.of_nat n))
  end.

(** [n > x] for a depth [n]. *)
Definition gt (n : nat) (x : Number) : bool :=
  match x with
  | NaN => false
  | Infinity negative => negative
  | Finite q =>
      negb (QArith_base.Qle_bool (QArith_base.inject_Z (Z.of_nat n)) q)
  end.

(** The integer a finite number is truncated to. *)
Definition truncate (q : QArith_base.Q) : Z :=
  Z.quot (QArith_base.Qnum q) (Z.pos (QArith_base.Qden q)).

(** [l.slice(0, x)]: [x] is truncated to an integer, [NaN] giving zero; a
    negative end counts from the end of the array. *)
Definition slice {A} (l : list A) (x : Number) : list A :=
  match x with
  | NaN => []
  | Infinity negative => if negative then [] else l
  | Finite q =>
      let k := truncate q in
      if (k <? 0)%Z then take (Z.to_nat (Z.of_nat (length l) + k)) l
      else take (Z.to_nat k) l
  end.

(** A [RegExp] object.  [search s i] is the end of the match found in [s]
    when the matcher starts at the index [i] (the first match at [i] or
    later; for a sticky pattern the match at [i] itself), and [None] when
    there is no such match, as when [i] is beyond the end of [s]; indices
    count as [lastIndex] does.  [keepsLastIndex] tells that the [g] or the
    [y] flag is set. *)
Record RegExp := {
  search : string -> nat -> option nat;
  keepsLastIndex : bool
}.

(** [re.test(s)], [lastIndex] being the property of the object before the
    call: the result and the property after the call.  Without the [g] and
    [y] flags the matcher starts at 0 and the property is left alone; with
    one of them it starts at [lastIndex], which becomes the end of the match,
    or 0 when there is none. *)
Definition test (re : RegExp) (lastIndex : nat) (s : string) : bool * nat :=
  if keepsLastIndex re then
    match search re s lastIndex with
    | Some e => (true, e)
    | None => (false, 0)
    end
  else
    (match search re s 0 with Some _ => true | None => false end, lastIndex).

(** A pattern: a string, a [RegExp] object ([object] is its identity: two
    patterns with the same [object] are the same object and share its
    [lastIndex]), or any other value. *)
Inductive Pattern :=
| Str (s : string)
| Reg (object : nat) (re : RegExp)
| Other.

(** [matchesPattern(filePath, pattern)]; [heap] holds the [lastIndex] of
    the [RegExp] objects, 0 for an object it does not hold. *)
Definition matchesPattern (filePath : string) (pattern : Pattern)
    (heap : gmap nat nat) : bool * gmap nat nat :=
  match pattern with
  | Reg object re =>
      let '(found, lastIndex) :=
        test re (default 0 (heap !! object)) filePath in
      (found, if keepsLastIndex re then <[object := lastIndex]> heap else heap)
  | Str s => (Js.includes filePath s, heap)
  | Other => (false, heap)
  end.

(** [patterns.some((pattern) => this.matchesPattern(filePath, pattern))]:
    the patterns are tried in order up to the first that matches. *)
Fixpoint some (filePath : string) (patterns : list Pattern)
    (heap : gmap nat nat) : bool * gmap nat nat :=
  match patterns with
  | [] => (false, heap)
  | pattern :: rest =>
      let '(found, heap1) := matchesPattern filePath pattern heap in
      if found then (true, heap1) else some filePath rest heap1
  end.

(** The options [findRelevantFiles] destructures. *)
Record Options := {
  maxFiles : Number;
  maxDepth : Number;
  includePatterns : list Pattern;
  excludePatterns : list Pattern
}.

(** [path.resolve(p)]: [process.cwd()] is called for a relative [p] only;
    [workdir] is what this call gives. *)
Definition resolve (workdir : result string) (p : string) : result string :=
  if Js.startsWith p "/" then Ok p
  else (cwd <- workdir ;; Ok (Js.path_resolve cwd p)).

(** The loop [for (const child of node.children)]. *)
Section ForChildren.
Context (limit : Number)
        (visit : TreeNode -> gmap nat nat
                 -> result (list RelevantFile) * gmap nat nat).

Fixpoint forChildren (children : list TreeNode) (results : list RelevantFile)
    (heap : gmap nat nat) : result (list RelevantFile) * gmap nat nat :=
  match children with
  | [] => (Ok results, heap)
  | child :: rest =>
      if ge (length results) limit then (Ok results, heap)
      else
        match visit child heap with
        | (Ok childResults, heap1) =>
            forChildren rest (slice (results ++ childResults) limit) heap1
        | (Throw e, heap1) => (Throw e, heap1)
        end
  end.
End ForChildren.

(** [findRelevantFiles(node, {...options, currentDepth})]: the array
    returned or the exception thrown, and the heap afterwards. *)
Fixpoint findRelevantFiles (workdir : result string) (options : Options)
    (currentDepth : nat) (node : TreeNode) (heap : gmap nat nat)
  : result (list RelevantFile) * gmap nat nat :=
  if gt currentDepth (maxDepth options) then (Ok [], heap)
  else
    match node with
    | Directory _ _ children =>
        forChildren (maxFiles options)
          (findRelevantFiles workdir options (S currentDepth)) children [] heap
    | File _ path _ =>
        let '(matchesInclude, heap1) :=
          if (length (includePatterns options) =? 0)%nat then (true, heap)
          else some path (includePatterns options) heap in
        let '(matchesExclude, heap2) :=
          some path (excludePatterns options) heap1 in
        if matchesInclude && negb matchesExclude then
          (absolute <- resolve workdir path ;;
           Ok [ {| file_path := path; absolutePath := absolute |} ],
           heap2)
        else (Ok [], heap2)
    end.

(** The process during one call: what it sees outside itself, and whether
    [process.cwd()] throws (the working directory has been removed). *)
Record Host := {
  world : World;
  cwdThrows : bool
}.

(** [process.cwd()] *)
Definition processCwd (h : Host) : result string :=
  if cwdThrows h then Throw (FsError "uv_cwd" "") else Ok (cwd (world h)).

(** The argument of [generateProjectContext]; [None] is a property that is
    absent or [undefined]. *)
Record OptionsArg := {
  arg_maxFiles : option Number;
  arg_maxDepth : option Number;
  arg_includePatterns : option (list Pattern);
  arg_excludePatterns : option (list Pattern)
}.

(** The destructuring with defaults at the head of
    [generateProjectContext]. *)
Definition destructure (options : OptionsArg) : Options :=
  {| maxFiles := default (ofNat 10) (arg_maxFiles options);
     maxDepth := default (ofNat 3) (arg_maxDepth options);
     includePatterns := default [] (arg_includePatterns options);
     excludePatterns := default [] (arg_excludePatterns options) |}.

(** [generateProjectContext(options)]: the value or exception of the call,
    the manager and the heap afterwards. *)
Definition generateProjectContext (h : Host) (options : OptionsArg)
    (cm : ContextManager) (heap : gmap nat nat)
  : result ProjectContext * (ContextManager * gmap nat nat) :=
  match projectStructure cm with
  | None => (Throw (ErrorMsg "Project has not been scanned yet"), (cm, heap))
  | Some tree =>
      match findRelevantFiles (processCwd h) (destructure options) 0 tree heap
      with
      | (Throw e, heap1) => (Throw e, (cm, heap1))
      | (Ok relevant, heap1) =>
          let paths := map absolutePath relevant in
          let '(contents, cache') := readAll (world h) paths (fileCache cm) in
          (fileContexts <-
             promiseAll (zip_with (fileContextOf (world h)) paths contents) ;;
           Ok {| structure := tree;
                 relevantFiles := filterNotNull fileContexts |},
           ({| fileCache := cache'; projectStructure := Some tree |}, heap1))
      end
  end.

(** The parameters of the [add-context] tool, the numbers being any
    number. *)
Record Params := {
  param_projectRoot : option string;
  param_maxFiles : option Number;
  param_maxDepth : option Number;
  param_includePatterns : option (list Pattern);
  param_excludePatterns : option (list Pattern)
}.

(** [x || d] on a number. *)
Definition orNumber (x : option Number) (d : Number) : Number :=
  match x with
  | Some n => if falsyNumber n then d else n
  | None => d
  end.

(** [params.projectRoot || process.cwd()]: [process.cwd()] is called when
    the parameter is absent or empty. *)
Definition rootOf (h : Host) (projectRoot : option string) : result string :=
  match projectRoot with
  | Some (String c s) => Ok (String c s)
  | _ => processCwd h
  end.

(** The options object the handler passes. *)
Definition handlerOptions (params : Params) : OptionsArg :=
  {| arg_maxFiles := Some (orNumber (param_maxFiles params) (ofNat 10));
     arg_maxDepth := Some (orNumber (param_maxDepth params) (ofNat 3));
     arg_includePatterns := Some (orArray (param_includePatterns params));
     arg_excludePatterns := Some (orArray (param_excludePatterns params)) |}.

Section Handler.
(** The [message] of the error a failed file-system call throws, the
    length of [JSON.stringify(context)], and the [message] of the
    [TypeError] that reading a property of [undefined] throws: all three
    come from the platform. *)
Context (fsMessage : string -> string -> string)
        (jsonLength : ProjectContext -> nat)
        (noBody : string).

(** The [catch] clause of the handler. *)
Definition failed {A} (error : JsError) : result A :=
  Throw (ErrorMsg ("Failed to add context: " ++ messageOf fsMessage error)).

(** The handler of the [add-context] tool.  [prompt] is
    [request.body.prompt], [None] when the request has no body: reading the
    property then throws, after the context has been generated. *)
Definition addContext (h : Host) (disk : string -> RootListing)
    (params : Params) (prompt : option string) (cm : ContextManager)
    (heap : gmap nat nat)
  : result Enhanced * (ContextManager * gmap nat nat) :=
  match rootOf h (param_projectRoot params) with
  | Throw error => (failed error, (cm, heap))
  | Ok projectRoot =>
      let '(scanned, cm1) :=
        match projectStructure cm with
        | None =>
            let '(r, cm') := scanProject projectRoot (disk projectRoot) cm in
            (_ <- r ;; Ok tt, cm')
        | Some _ => (Ok tt, cm)
        end in
      match scanned with
      | Throw error => (failed error, (cm1, heap))
      | Ok _ =>
          let '(generated, state) :=
            generateProjectContext h (handlerOptions params) cm1 heap in
          match generated, prompt with
          | Throw error, _ => (failed error, state)
          | Ok context, None => (failed (ErrorMsg noBody), state)
          | Ok context, Some prompt =>
              (Ok {| enhancedPrompt := enhancePromptWithContext prompt context;
                     contextAdded := true;
                     filesIncluded := length (relevantFiles context);
                     contextSize := jsonLength context |},
               state)
          end
      end
  end.
End Handler.

End General.

(** ** Vocabulary of the further properties *)

(** The nodes of a tree with their depth, the node itself first, then its
    children in order. *)
Fixpoint preorder (depth : nat) (node : TreeNode) : list (nat * TreeNode) :=
  match node with
  | Directory _ _ children =>
      (depth, node) :: flat_map (preorder (S depth)) children
  | File _ _ _ => [(depth, node)]
  end.

(** The line of one node in the structure diagram. *)
Definition renderLine (l : nat * TreeNode) : string :=
  match snd l with
  | Directory name _ _ =>
      repeat_str "  " (fst l) ++ "📁 " ++ name ++ "/" ++ String "010" ""
  | File name _ _ =>
      repeat_str "  " (fst l) ++ "📄 " ++ name ++ String "010" ""
  end.

Fixpoint concatAll (l : list string) : string :=
  match l with
  | [] => ""
  | s :: rest => s ++ concatAll rest
  end.

(** The block of one file in the prompt. *)
Definition fileBlock (file : FileContext) : string :=
  "--- FILE: " ++ path file ++ " ---" ++ String "010" "" ++ content file
  ++ String "010" (String "010" "").

(** [s.endsWith(t)] *)
Definition endsWith (s t : string) : Prop := exists a, s = a ++ t.

(** The scan enters [e] without exception: [e] is pruned, or is not a
    directory, or is a directory that can be listed and whose entries the
    scan enters without exception. *)
Fixpoint scannable (e : FsEntry) : bool :=
  skipped (entry_name e) ||
  match e with
  | FsFile _ => true
  | FsDir _ sub => forallb scannable sub
  | FsDenied _ => false
  end.

(** [Holds entries dirs name]: the listing [entries] holds an entry named
    [name] that is not a directory, below the directories [dirs] (outermost
    first). *)
Inductive Holds : list FsEntry -> list string -> string -> Prop :=
| Holds_here entries name :
    In (FsFile name) entries -> Holds entries [] name
| Holds_below entries dir sub dirs name :
    In (FsDir dir sub) entries ->
    Holds sub dirs name ->
    Holds entries (dir :: dirs) name.

(** The options [o] with another cap. *)
Definition withMaxFiles (n : nat) (o : Options) : Options :=
  {| maxFiles := n; maxDepth := maxDepth o;
     includePatterns := includePatterns o;
     excludePatterns := excludePatterns o |}.

(** The number of occurrences of the character [c] in [s]. *)
Fixpoint countChar (c : ascii) (s : string) : nat :=
  match s with
  | EmptyString => 0
  | String x rest => (if Ascii.eqb x c then 1 else 0) + countChar c rest
  end.

(** The options object the [add-context] handler builds from its
    parameters. *)
Definition handlerOptions (params : Params) : Options :=
  {| maxFiles := orNumber (param_maxFiles params) 10;
     maxDepth := orNumber (param_maxDepth params) 3;
     includePatterns := orArray (param_includePatterns params);
     excludePatterns := orArray (param_excludePatterns params) |}.

(** [this.projectStructure] is null or a directory node, as every tree
    [scanProject] stores. *)
Definition rootIsDirectory (cm : ContextManager) : Prop :=
  match projectStructure cm with
  | Some (File _ _ _) => False
  | _ => True
  end.

(** The entries of a directory for which the scan pushes a child: not
    pruned, and a directory or a file with an extension of the allow
    list. *)
Definition kept (e : FsEntry) : bool :=
  negb (skipped (entry_name e)) &&
  match e with
  | FsFile name =>
      includes_str codeExtensions (Js.toLowerCase (Js.extname name))
  | _ => true
  end.

(** [empty.js] has been filled after the first call. *)
Definition filledOnDisk : World :=
  worldOf "/srv/app" [("/srv/app/empty.js", ("let e", 4%Z));
                      ("/srv/app/b.js", ("let b", 7%Z))].

(** A fresh manager, its first request served by the scan of two files. *)
Definition twoFilesDisk : string -> RootListing :=
  fun _ => Listing twoFiles.

(** The names of the entries of every directory are pairwise distinct, as
    in any file system. *)
Section AllEntries.
Context (P : FsEntry -> Prop).

Fixpoint allEntries (entries : list FsEntry) : Prop :=
  match entries with
  | [] => True
  | e :: rest => P e /\ allEntries rest
  end.
End AllEntries.

Fixpoint distinct_names (e : FsEntry) : Prop :=
  match e with
  | FsDir _ sub =>
      NoDup (map entry_name sub) /\ allEntries distinct_names sub
  | _ => True
  end.

(** ** Values of the general embedding *)

(** The end of the first occurrence of [literal] in [s] that starts [skip]
    characters into [s] or later, [None] when there is none or when [s] has
    fewer than [skip] characters; [index] is the index of the first
    character of [s] in the whole subject. *)
Fixpoint searchLiteral (literal s : string) (skip index : nat) {struct s}
  : option nat :=
  match skip with
  | O =>
      if Js.startsWith s literal then Some (index + String.length literal)
      else
        match s with
        | EmptyString => None
        | String _ rest => searchLiteral literal rest 0 (S index)
        end
  | S skip' =>
      match s with
      | EmptyString => None
      | String _ rest => searchLiteral literal rest skip' (S index)
      end
  end.

(** The pattern [/literal/], or [/literal/g] when [global], [literal]
    holding no metacharacter, on subjects made of ASCII characters. *)
Definition literalRegExp (literal : string) (global : bool) : General.RegExp :=
  {| General.search := fun s i => searchLiteral literal s i 0;
     General.keepsLastIndex := global |}.

(** A pattern of the first kind as a pattern on the heap: a [RegExp] given
    by a test that keeps no state is a [RegExp] object without the [g] and
    [y] flags. *)
Definition plainPattern (object : nat) (pattern : Pattern) : General.Pattern :=
  match pattern with
  | PString s => General.Str s
  | PRegExp test =>
      General.Reg object
        {| General.search := fun s _ => if test s then Some 0 else None;
           General.keepsLastIndex := false |}
  | POther => General.Other
  end.

Definition plainOptions (object : nat) (o : Options) : General.OptionsArg :=
  {| General.arg_maxFiles := Some (General.ofNat (maxFiles o));
     General.arg_maxDepth := Some (General.ofNat (maxDepth o));
     General.arg_includePatterns :=
       Some (map (plainPattern object) (includePatterns o));
     General.arg_excludePatterns :=
       Some (map (plainPattern object) (excludePatterns o)) |}.

(** The parameters of a request whose numbers are natural numbers and
    whose patterns keep no state. *)
Definition plainParams (object : nat) (params : Params) : General.Params :=
  {| General.param_projectRoot := param_projectRoot params;
     General.param_maxFiles := option_map General.ofNat (param_maxFiles params);
     General.param_maxDepth := option_map General.ofNat (param_maxDepth params);
     General.param_includePatterns :=
       option_map (map (plainPattern object)) (param_includePatterns params);
     General.param_excludePatterns :=
       option_map (map (plainPattern object)) (param_excludePatterns params) |}.

(** A process whose working directory exists. *)
Definition hostOf (w : World) : General.Host :=
  {| General.world := w; General.cwdThrows := false |}.

(** The number of files a cap lets through: none for [NaN], for a negative
    number and for a number below one; [None] when there is no bound. *)
Definition capOf (x : General.Number) : option nat :=
  match x with
  | General.NaN => Some 0
  | General.Infinity negative => if negative then Some 0 else None
  | General.Finite q => Some (Z.to_nat (General.truncate q))
  end.

(** Two test files: [a.test.js] and [b.test.js]. *)
Definition testFiles : TreeNode :=
  Directory "app" ""
    [File "a.test.js" "a.test.js" ".js"; File "b.test.js" "b.test.js" ".js"].

(** Include the paths that hold [test], exclude those the [RegExp] object 0
    matches. *)
Definition excludeTests (re : General.RegExp) : General.OptionsArg :=
  {| General.arg_maxFiles := None; General.arg_maxDepth := None;
     General.arg_includePatterns := Some [General.Str "test"];
     General.arg_excludePatterns := Some [General.Reg 0 re] |}.

Definition testFilesOnDisk : World :=
  worldOf "/srv/app" [("/srv/app/a.test.js", ("test a", 5%Z));
                      ("/srv/app/b.test.js", ("test b", 7%Z))].

Definition scannedTestFiles : ContextManager :=
  {| fileCache := ∅; projectStructure := Some testFiles |}.

(** A path segment normalisation leaves alone: a name other than [.] and
    [..]. *)
Definition plain_segment (name : string) : bool :=
  valid_name name && negb (String.eqb name ".") && negb (String.eqb name "..").

(** An absolute path in normal form, the root [/] apart: plain segments,
    each after one separator, and no separator at the end.  [path.join] of
    such a path and plain segments is the concatenation [joinFrom]
    computes. *)
Definition normalised (p : string) : Prop :=
  exists segments, segments <> [] /\
    forallb plain_segment segments = true /\ p = suffixOf segments.

(** A request that sets no parameter. *)
Definition noParams : General.Params :=
  {| General.param_projectRoot := None; General.param_maxFiles := None;
     General.param_maxDepth := None; General.param_includePatterns := None;
     General.param_excludePatterns := None |}.

(** A cap of one half. *)
Definition halfCap : General.Params :=
  {| General.param_projectRoot := None;
     General.param_maxFiles :=
       Some (General.Finite (QArith_base.Qmake 1 2));
     General.param_maxDepth := None; General.param_includePatterns := None;
     General.param_excludePatterns := None |}.

(** A cap of minus one. *)
Definition negativeCap : General.Params :=
  {| General.param_projectRoot := None;
     General.param_maxFiles :=
       Some (General.Finite (QArith_base.inject_Z (-1)));
     General.param_maxDepth := None; General.param_includePatterns := None;
     General.param_excludePatterns := None |}.

(** * Properties *)

(** ** Strings and paths *)

Example extname_js : Js.extname "index.js" = ".js".
Proof. reflexivity. Qed.
Example extname_two_dots : Js.extname "a.test.ts" = ".ts".
Proof. reflexivity. Qed.
Example extname_none : Js.extname "Makefile" = "".
Proof. reflexivity. Qed.
Example extname_hidden : Js.extname ".bashrc" = "".
Proof. reflexivity. Qed.
Example extname_trailing_dot : Js.extname "a." = ".".
Proof. reflexivity. Qed.
Example extname_in_dir : Js.extname "/srv/app.d/readme" = "".
Proof. reflexivity. Qed.
Example extname_abs : Js.extname "/srv/app/A.JS" = ".JS".
Proof. reflexivity. Qed.
Example basename_abs : Js.basename "/srv/app/" = "app".
Proof. reflexivity. Qed.
Example includes_mid : Js.includes "src/x.test.ts" "test" = true.
Proof. reflexivity. Qed.
Example includes_no : Js.includes "src/x.ts" "test" = false.
Proof. reflexivity. Qed.
Example lower_ext : Js.toLowerCase ".TSX" = ".tsx".
Proof. reflexivity. Qed.

Lemma startsWith_app (p t : string) : Js.startsWith (p ++ t) p = true.
Proof.
  induction p as [|c p IH]; simpl; [done|].
  rewrite Ascii.eqb_refl. exact IH.
Qed.

Lemma startsWith_spec (s p : string) :
  Js.startsWith s p = true <-> exists t, s = p ++ t.
Proof.
  split.
  - revert s. induction p as [|c p IH]; intros s H.
    + exists s. reflexivity.
    + destruct s as [|d s]; simpl in H; [discriminate|].
      apply andb_true_iff in H as [Hc Hs].
      apply Ascii.eqb_eq in Hc. subst d.
      destruct (IH s Hs) as [t ->]. exists t. reflexivity.
  - intros [t ->]. apply startsWith_app.
Qed.

Lemma includes_startsWith (s p : string) :
  Js.startsWith s p = true -> Js.includes s p = true.
Proof. intros H. destruct s; simpl; rewrite H; reflexivity. Qed.

(** [includes] is the substring test. *)
Lemma includes_spec (s p : string) :
  Js.includes s p = true <-> exists a b, s = a ++ p ++ b.
Proof.
  split.
  - induction s as [|d s IH]; simpl; intros H.
    + rewrite orb_false_r in H. apply startsWith_spec in H as [t Ht].
      exists "", t. exact Ht.
    + apply orb_true_iff in H as [H|H].
      * apply startsWith_spec in H as [t Ht]. exists "", t. exact Ht.
      * destruct (IH H) as (a & b & ->). exists (String d a), b. reflexivity.
  - intros (a & b & ->). induction a as [|d a IH].
    + exact (includes_startsWith _ _ (startsWith_app p b)).
    + simpl. rewrite IH. apply orb_true_r.
Qed.

Lemma string_eqb_eq (a b : string) : String.eqb a b = true <-> a = b.
Proof. apply String.eqb_eq. Qed.

(** What the pruning test accepts and refuses. *)
Lemma skipped_spec (name : string) :
  skipped name = true <->
  name = "node_modules" \/ name = ".git" \/ name = "dist" \/ name = "build"
  \/ Js.startsWith name "." = true.
Proof.
  unfold skipped. rewrite !orb_true_iff, !string_eqb_eq. tauto.
Qed.

Lemma not_skipped_spec (name : string) :
  skipped name = false <->
  name <> "node_modules" /\ name <> ".git" /\ name <> "dist" /\
  name <> "build" /\ Js.startsWith name "." = false.
Proof.
  rewrite <- not_true_iff_false, skipped_spec.
  rewrite <- (not_true_iff_false (Js.startsWith name ".")). tauto.
Qed.

Lemma includes_str_In (l : list string) (x : string) :
  includes_str l x = true <-> In x l.
Proof.
  unfold includes_str. rewrite existsb_exists. split.
  - intros (y & Hy & E). apply String.eqb_eq in E. by subst.
  - intros H. exists x. split; [done | apply String.eqb_refl].
Qed.

Lemma append_cons (x : ascii) (a b : string) :
  String x a ++ b = String x (a ++ b).
Proof. reflexivity. Qed.

Lemma append_nil_l (b : string) : "" ++ b = b.
Proof. reflexivity. Qed.

Ltac string_simpl := rewrite ?append_cons, ?append_nil_l.

Lemma append_assoc (a b c : string) : (a ++ b) ++ c = a ++ b ++ c.
Proof. induction a as [|x a IH]; string_simpl; [done | by rewrite IH]. Qed.

Lemma append_length (a b : string) :
  String.length (a ++ b) = (String.length a + String.length b)%nat.
Proof.
  induction a as [|x a IH]; string_simpl; simpl; [done | by rewrite IH].
Qed.

Lemma substring_all (s : string) : String.substring 0 (String.length s) s = s.
Proof. induction s as [|x s IH]; simpl; [done | by rewrite IH]. Qed.

Lemma substring_suffix (a b : string) :
  String.substring (String.length a) (String.length b) (a ++ b) = b.
Proof.
  induction a as [|x a IH]; string_simpl; simpl;
    [apply substring_all | exact IH].
Qed.

Lemma rev_chars_spec (s : string) (acc : list ascii) :
  Js.rev_chars s acc = (rev (list_ascii_of_string s) ++ acc)%list.
Proof.
  revert acc. induction s as [|x s IH]; intros acc; simpl; [done|].
  rewrite IH, <- app_assoc. reflexivity.
Qed.

Lemma list_ascii_of_string_app (a b : string) :
  list_ascii_of_string (a ++ b)
  = (list_ascii_of_string a ++ list_ascii_of_string b)%list.
Proof.
  induction a as [|x a IH]; string_simpl; simpl; [done | by rewrite IH].
Qed.

Lemma list_ascii_length (s : string) :
  length (list_ascii_of_string s) = String.length s.
Proof. induction s as [|x s IH]; simpl; [done | by rewrite IH]. Qed.

Lemma startsWith_char (d c : ascii) (s : string) :
  Js.startsWith (String d s) (String c "") = Ascii.eqb c d.
Proof. cbn [Js.startsWith]. apply andb_true_r. Qed.

Lemma includes_cons (d : ascii) (s p : string) :
  Js.includes (String d s) p = Js.startsWith (String d s) p || Js.includes s p.
Proof. reflexivity. Qed.

(** A name without separator, character by character. *)
Lemma no_slash_chars (s : string) :
  Js.includes s "/" = false ->
  Forall (fun c => Ascii.eqb c "/" = false) (list_ascii_of_string s).
Proof.
  induction s as [|x s IH]; intros H; [constructor|].
  rewrite includes_cons, startsWith_char in H.
  apply orb_false_iff in H as [Hx Hs].
  rewrite Ascii.eqb_sym in Hx.
  constructor; [exact Hx | exact (IH Hs)].
Qed.

(** The scan of [basename] runs over characters that are not separators
    without changing its state, once the end of the name is marked. *)
Lemma basename_loop_skip (cs rest : list ascii) (i start e : Z) :
  Forall (fun c => Ascii.eqb c "/" = false) cs ->
  e <> (-1)%Z ->
  Js.basename_loop (cs ++ rest) i (start, e, false)
  = Js.basename_loop rest (i - Z.of_nat (length cs)) (start, e, false).
Proof.
  intros Hcs He. revert i.
  induction Hcs as [|c cs Hc _ IH]; intros i.
  - simpl. f_equal. lia.
  - rewrite <- app_comm_cons. cbn [Js.basename_loop]. rewrite Hc. apply Z.eqb_neq in He. rewrite He.
    rewrite IH. f_equal. cbn [length]. lia.
Qed.

Lemma basename_segment (pre name : string) :
  valid_name name = true ->
  pre = "" \/ (exists d, pre = d ++ "/") ->
  Js.basename (pre ++ name) = name.
Proof.
  unfold valid_name. intros Hv Hpre.
  apply andb_true_iff in Hv as [Hne Hns].
  apply negb_true_iff in Hne, Hns. apply String.eqb_neq in Hne.
  pose proof (no_slash_chars _ Hns) as Hall.
  apply Forall_rev in Hall.
  unfold Js.basename.
  rewrite rev_chars_spec, app_nil_r, list_ascii_of_string_app, rev_app_distr.
  rewrite append_length.
  assert (Hlen : length (rev (list_ascii_of_string name)) = String.length name)
    by (rewrite length_rev; apply list_ascii_length).
  destruct (rev (list_ascii_of_string name)) as [|c cs] eqn:Erev.
  { destruct name; [done | discriminate]. }
  inversion Hall as [|? ? Hc Hcs]; subst.
  simpl in Hlen. simpl app. cbn [Js.basename_loop].
  rewrite Hc. simpl Z.eqb.
  rewrite basename_loop_skip by (done || lia).
  destruct Hpre as [-> | [d ->]].
  - simpl. replace (Z.of_nat (String.length name) - 1 + 1 =? -1)%Z with false
      by (symmetry; apply Z.eqb_neq; lia).
    unfold Js.slice. simpl Z.to_nat.
    replace (Z.to_nat (Z.of_nat (String.length name) - 1 + 1 - 0))
      with (String.length name) by lia.
    apply substring_all.
  - rewrite list_ascii_of_string_app, rev_app_distr. simpl.
    replace (_ =? -1)%Z with false by (symmetry; apply Z.eqb_neq; lia).
    unfold Js.slice. rewrite append_length. simpl String.length.
    match goal with |- String.substring ?a ?b _ = _ =>
      replace a with (String.length (d ++ "/")) by (rewrite append_length; simpl; lia);
      replace b with (String.length name) by lia
    end.
    apply substring_suffix.
Qed.

Lemma basename_path_join (dir name : string) :
  valid_name name = true -> Js.basename (Js.path_join dir name) = name.
Proof.
  intros Hv. unfold Js.path_join.
  destruct dir as [|x dir].
  - apply (basename_segment "" name Hv). by left.
  - destruct name as [|y name]; [discriminate|].
    rewrite <- append_assoc. apply basename_segment; [exact Hv|].
    right. by eexists.
Qed.

(** ** Tree scanner *)

(** Induction on directory entries, the hypothesis holding for every entry
    of a directory. *)
Lemma FsEntry_nested_ind (P : FsEntry -> Prop) :
  (forall name, P (FsFile name)) ->
  (forall name sub, Forall P sub -> P (FsDir name sub)) ->
  (forall name, P (FsDenied name)) ->
  forall e, P e.
Proof.
  intros Hfile Hdir Hdenied. fix IH 1. intros [name|name sub|name].
  - apply Hfile.
  - apply Hdir. induction sub as [|e sub IHsub]; constructor; [apply IH | exact IHsub].
  - apply Hdenied.
Qed.

(** Every child the loop pushed comes from one of the entries. *)
Lemma forEntries_In (body : FsEntry -> result (option TreeNode))
    (entries : list FsEntry) (children : list TreeNode) :
  forEntries body entries = Ok children ->
  forall child, In child children ->
  exists entry, In entry entries /\ body entry = Ok (Some child).
Proof.
  revert children. induction entries as [|e es IH]; intros children H child Hin.
  - injection H as <-. destruct Hin.
  - simpl in H. destruct (body e) as [pushed|] eqn:Ebody; [|discriminate].
    simpl in H. destruct (forEntries body es) as [more|] eqn:Emore; [|discriminate].
    simpl in H. injection H as <-.
    destruct pushed as [c|].
    + destruct Hin as [<-|Hin].
      * exists e. split; [by left | exact Ebody].
      * destruct (IH more eq_refl child Hin) as (e' & He' & Hb).
        exists e'. split; [by right | exact Hb].
    + destruct (IH more eq_refl child Hin) as (e' & He' & Hb).
      exists e'. split; [by right | exact Hb].
Qed.

(** The loop ends without exception when no iteration throws. *)
Lemma forEntries_total (body : FsEntry -> result (option TreeNode))
    (entries : list FsEntry) :
  Forall (fun e => exists o, body e = Ok o) entries ->
  exists children, forEntries body entries = Ok children.
Proof.
  induction 1 as [|e es [o Ho] _ [more Hmore]]; simpl.
  - by eexists.
  - rewrite Ho, Hmore. simpl. by eexists.
Qed.

Lemma pruned_below_directory (name rel : string) (children : list TreeNode) :
  (forall child, In child children ->
     skipped (node_name child) = false /\
     node_path child = Js.path_join rel (node_name child) /\
     pruned_below child) ->
  pruned_below (Directory name rel children).
Proof.
  intros Hch names n Hr. inversion Hr as [|? ? ? child names' ? Hin Hsub]; subst.
  - repeat split. constructor.
  - destruct (Hch child Hin) as (Hsk & Hpath & Hbelow).
    destruct (Hbelow names' n Hsub) as (Hall & Hp & Hleaf).
    repeat split.
    + by constructor.
    + rewrite Hp, Hpath. reflexivity.
    + exact Hleaf.
Qed.

Lemma scanEntry_file (dir rel name : string) :
  scanEntry dir rel (FsFile name)
  = if skipped name then Ok None
    else if includes_str codeExtensions (Js.toLowerCase (Js.extname name))
    then Ok (Some (File name (Js.path_join rel name)
                        (Js.toLowerCase (Js.extname name))))
    else Ok None.
Proof. reflexivity. Qed.

Lemma scanEntry_dir (dir rel name : string) (sub : list FsEntry) :
  scanEntry dir rel (FsDir name sub)
  = if skipped name then Ok None
    else children <- forEntries (scanEntry (Js.path_join dir name)
                                           (Js.path_join rel name)) sub ;;
         Ok (Some (Directory (Js.basename (Js.path_join dir name))
                             (Js.path_join rel name) children)).
Proof. reflexivity. Qed.

Lemma scanEntry_denied (dir rel name : string) :
  scanEntry dir rel (FsDenied name)
  = if skipped name then Ok None
    else Throw (FsError "scandir" (Js.path_join dir name)).
Proof. reflexivity. Qed.

Lemma scanEntry_sound (e : FsEntry) :
  valid_entry e = true ->
  forall dir rel t, scanEntry dir rel e = Ok (Some t) ->
    skipped (node_name t) = false /\
    node_name t = entry_name e /\
    node_path t = Js.path_join rel (node_name t) /\
    pruned_below t.
Proof.
  induction e as [name|name sub IH|name] using FsEntry_nested_ind;
    intros Hvalid dir rel t H;
    rewrite ?scanEntry_file, ?scanEntry_dir, ?scanEntry_denied in H;
    destruct (skipped name) eqn:Hskip; try discriminate.
  - destruct (includes_str codeExtensions _) eqn:Hext; [|discriminate].
    injection H as <-. simpl. split; [done|]. split; [done|]. split; [done|].
    intros ns n Hr. inversion Hr; subst. repeat split.
    + constructor.
    + by apply includes_str_In.
  - simpl in Hvalid. apply andb_true_iff in Hvalid as [Hname Hsub].
    destruct (forEntries _ sub) as [children|] eqn:Hloop; [|discriminate].
    simpl in H. injection H as <-.
    rewrite <- (basename_path_join dir name Hname) in Hskip at 1.
    simpl. rewrite (basename_path_join dir name Hname) at 2 3.
    split; [done|]. split; [done|]. split; [done|].
    apply pruned_below_directory. intros child Hin.
    destruct (forEntries_In _ _ _ Hloop child Hin) as (e & He & Hbody).
    rewrite List.Forall_forall in IH. rewrite forallb_forall in Hsub.
    destruct (IH e He (Hsub e He) _ _ _ Hbody) as (? & ? & ? & ?).
    split; [assumption | split; assumption].
Qed.

Lemma buildProjectStructure_sound (dir rel : string) (entries : list FsEntry)
    (tree : TreeNode) :
  forallb valid_entry entries = true ->
  buildProjectStructure dir rel entries = Ok tree ->
  node_path tree = rel /\ pruned_below tree.
Proof.
  unfold buildProjectStructure. intros Hvalid H.
  destruct (forEntries _ entries) as [children|] eqn:Hloop; [|discriminate].
  simpl in H. injection H as <-. split; [reflexivity|].
  apply pruned_below_directory. intros child Hin.
  destruct (forEntries_In _ _ _ Hloop child Hin) as (e & He & Hbody).
  rewrite forallb_forall in Hvalid.
  destruct (scanEntry_sound e (Hvalid e He) _ _ _ Hbody) as (? & ? & ? & ?).
  split; [assumption | split; assumption].
Qed.

(** The scan throws only where a directory it enters cannot be listed. *)
Lemma scanEntry_total (e : FsEntry) :
  listable e = true ->
  forall dir rel, exists o, scanEntry dir rel e = Ok o.
Proof.
  induction e as [name|name sub IH|name] using FsEntry_nested_ind;
    intros Hl dir rel; try discriminate Hl;
    rewrite ?scanEntry_file, ?scanEntry_dir;
    (destruct (skipped name); [by exists None|]).
  - destruct (includes_str _ _); by eexists.
  - simpl in Hl. rewrite forallb_forall in Hl. rewrite List.Forall_forall in IH.
    destruct (forEntries_total (scanEntry (Js.path_join dir name)
                                          (Js.path_join rel name)) sub)
      as [children ->].
    + apply List.Forall_forall. intros e He. apply IH; [exact He | by apply Hl].
    + simpl. by eexists.
Qed.

Lemma scan_total (projectRoot : string) (entries : list FsEntry) :
  forallb listable entries = true ->
  exists tree, scan projectRoot (Listing entries) = Ok tree.
Proof.
  intros Hl. unfold scan, buildProjectStructure. simpl.
  rewrite forallb_forall in Hl.
  destruct (forEntries_total (scanEntry projectRoot "") entries) as [children ->].
  - apply List.Forall_forall. intros e He. by apply scanEntry_total, Hl.
  - simpl. by eexists.
Qed.

(** ** File selection *)

(** Induction on tree nodes, the hypothesis holding for every child. *)
Lemma TreeNode_nested_ind (P : TreeNode -> Prop) :
  (forall name path children, Forall P children ->
     P (Directory name path children)) ->
  (forall name path ext, P (File name path ext)) ->
  forall t, P t.
Proof.
  intros Hdir Hfile. fix IH 1. intros [name path children|name path ext].
  - apply Hdir. induction children as [|c cs IHcs]; constructor;
      [apply IH | exact IHcs].
  - apply Hfile.
Qed.

Lemma take_take_app {A} (n : nat) (a b : list A) :
  take n (take n a ++ b) = take n (a ++ b).
Proof.
  destruct (Nat.le_gt_cases (length a) n) as [Hle|Hgt].
  - by rewrite (take_ge a n).
  - rewrite (take_app_le a b n) by lia.
    rewrite take_app_le by (rewrite length_take; lia).
    apply take_idemp.
Qed.

Lemma take_app_take_r {A} (n : nat) (a b : list A) :
  take n (a ++ take n b) = take n (a ++ b).
Proof.
  rewrite !take_app. f_equal. rewrite take_take. f_equal. lia.
Qed.

Lemma take_app_congr {A} (n : nat) (a a' b b' : list A) :
  take n a = take n a' -> take n b = take n b' ->
  take n (a ++ b) = take n (a' ++ b').
Proof.
  intros Ha Hb.
  rewrite <- (take_take_app n a b), <- (take_take_app n a' b'), Ha.
  rewrite <- (take_app_take_r n _ b), <- (take_app_take_r n _ b'), Hb.
  reflexivity.
Qed.

Lemma take_flat_map_congr {A B} (n : nat) (f g : A -> list B) (l : list A) :
  Forall (fun x => take n (f x) = take n (g x)) l ->
  take n (flat_map f l) = take n (flat_map g l).
Proof.
  induction 1 as [|x l Hx _ IH]; simpl; [done|].
  by apply take_app_congr.
Qed.

(** The loop over the children keeps the first [limit] results of the
    visits, in order. *)
Lemma forChildren_spec (limit : nat) (visit : TreeNode -> list RelevantFile)
    (children : list TreeNode) (results : list RelevantFile) :
  length results <= limit ->
  forChildren limit visit children results
  = take limit (results ++ flat_map visit children).
Proof.
  revert results. induction children as [|child rest IH]; intros results Hlen.
  - simpl. rewrite app_nil_r. symmetry. by apply take_ge.
  - simpl. destruct (limit <=? length results)%nat eqn:Hfull.
    + apply Nat.leb_le in Hfull. rewrite take_app_le by lia.
      symmetry. by apply take_ge.
    + rewrite IH by (rewrite length_take; lia).
      rewrite take_take_app, <- app_assoc. reflexivity.
Qed.

Lemma findRelevantFiles_dir (cwd : string) (o : Options) (d : nat)
    (name path : string) (children : list TreeNode) :
  findRelevantFiles cwd o d (Directory name path children)
  = if (maxDepth o <? d)%nat then []
    else forChildren (maxFiles o) (findRelevantFiles cwd o (S d)) children [].
Proof. reflexivity. Qed.

Lemma findRelevantFiles_file (cwd : string) (o : Options) (d : nat)
    (name path ext : string) :
  findRelevantFiles cwd o d (File name path ext)
  = if (maxDepth o <? d)%nat then []
    else if candidate o path then [relevantFile cwd path] else [].
Proof. reflexivity. Qed.

Lemma map_filter_flat_map {A B C} (f : B -> C) (P : B -> bool)
    (g : A -> list B) (l : list A) :
  map f (List.filter P (flat_map g l))
  = flat_map (fun x => map f (List.filter P (g x))) l.
Proof.
  induction l as [|x l IH]; simpl; [done|].
  by rewrite List.filter_app, List.map_app, IH.
Qed.

Lemma reachableCandidates_dir (o : Options) (d : nat) (name path : string)
    (children : list TreeNode) :
  reachableCandidates o d (Directory name path children)
  = flat_map (reachableCandidates o (S d)) children.
Proof. unfold reachableCandidates. simpl. apply map_filter_flat_map. Qed.

Lemma reachableCandidates_file (o : Options) (d : nat) (name path ext : string) :
  reachableCandidates o d (File name path ext)
  = if (d <=? maxDepth o)%nat && candidate o path then [path] else [].
Proof.
  unfold reachableCandidates. simpl.
  by destruct ((d <=? maxDepth o)%nat && candidate o path).
Qed.

(** A leaf is at least as deep as the node it is below. *)
Lemma leaves_depth (node : TreeNode) :
  forall d k p, In (k, p) (leaves d node) -> d <= k.
Proof.
  induction node as [name path children IH|name path ext]
    using TreeNode_nested_ind; intros d k p Hin; simpl in Hin.
  - apply in_flat_map in Hin as (child & Hchild & Hin).
    rewrite List.Forall_forall in IH.
    specialize (IH child Hchild (S d) k p Hin). lia.
  - destruct Hin as [[= <- <-]|[]]. lia.
Qed.

(** Below the depth limit nothing is reachable. *)
Lemma reachableCandidates_too_deep (o : Options) (d : nat) (node : TreeNode) :
  maxDepth o < d -> reachableCandidates o d node = [].
Proof.
  intros Hdeep. unfold reachableCandidates.
  pose proof (leaves_depth node d) as Hge.
  induction (leaves d node) as [|[k p] l IH]; simpl; [done|].
  assert (d <= k) by (apply (Hge k p); by left).
  replace (k <=? maxDepth o)%nat with false
    by (symmetry; apply Nat.leb_gt; lia).
  simpl. apply IH. intros k' p' Hin. apply (Hge k' p'). by right.
Qed.

(** Up to the cap, the traversal returns the reachable candidates in
    order. *)
Lemma findRelevantFiles_take (cwd : string) (o : Options) (node : TreeNode) :
  forall d,
  take (maxFiles o) (findRelevantFiles cwd o d node)
  = take (maxFiles o) (map (relevantFile cwd) (reachableCandidates o d node)).
Proof.
  induction node as [name path children IH|name path ext]
    using TreeNode_nested_ind; intros d.
  - rewrite findRelevantFiles_dir.
    destruct (maxDepth o <? d)%nat eqn:Hdeep.
    + apply Nat.ltb_lt in Hdeep.
      by rewrite reachableCandidates_too_deep.
    + rewrite forChildren_spec by (simpl; lia).
      rewrite take_idemp, app_nil_l, reachableCandidates_dir.
      replace (map (relevantFile cwd)
                 (flat_map (reachableCandidates o (S d)) children))
        with (flat_map (fun c => map (relevantFile cwd)
                                   (reachableCandidates o (S d) c)) children).
      * apply take_flat_map_congr.
        eapply Forall_impl; [exact IH|]. intros c Hc. apply Hc.
      * clear IH. induction children as [|c cs IHcs]; simpl; [done|].
        by rewrite List.map_app, IHcs.
  - rewrite findRelevantFiles_file, reachableCandidates_file.
    destruct (maxDepth o <? d)%nat eqn:Hdeep.
    + apply Nat.ltb_lt in Hdeep.
      replace (d <=? maxDepth o)%nat with false
        by (symmetry; apply Nat.leb_gt; lia).
      reflexivity.
    + apply Nat.ltb_ge in Hdeep.
      replace (d <=? maxDepth o)%nat with true
        by (symmetry; apply Nat.leb_le; lia).
      simpl. by destruct (candidate o path).
Qed.

(** On a directory the traversal returns exactly the first [maxFiles]
    reachable candidates. *)
Lemma findRelevantFiles_directory (cwd : string) (o : Options) (d : nat)
    (name path : string) (children : list TreeNode) :
  findRelevantFiles cwd o d (Directory name path children)
  = take (maxFiles o)
      (map (relevantFile cwd)
           (reachableCandidates o d (Directory name path children))).
Proof.
  rewrite <- findRelevantFiles_take, findRelevantFiles_dir.
  destruct (maxDepth o <? d)%nat; [by rewrite take_nil|].
  rewrite forChildren_spec by (simpl; lia).
  by rewrite take_idemp.
Qed.

(** ** Content cache *)

Lemma getFileContent_fst (w : World) (p : string) (cache : gmap string string) :
  fst (getFileContent w p cache) = contentOf w cache p.
Proof.
  unfold getFileContent, contentOf.
  destruct (cache !! p); [done|]. by destruct (readFileSync w p).
Qed.

(** A request changes the cache at most at its own path, and only from
    absent to the text just read. *)
Lemma getFileContent_snd (w : World) (p : string) (cache : gmap string string) :
  snd (getFileContent w p cache)
  = match cache !! p, readFileSync w p with
    | None, Some text => <[p := text]> cache
    | _, _ => cache
    end.
Proof.
  unfold getFileContent.
  destruct (cache !! p); [done|]. by destruct (readFileSync w p).
Qed.

(** Entries are never removed nor overwritten. *)
Lemma getFileContent_keeps (w : World) (p q : string)
    (cache : gmap string string) (c : string) :
  cache !! q = Some c -> snd (getFileContent w p cache) !! q = Some c.
Proof.
  intros Hq. rewrite getFileContent_snd.
  destruct (cache !! p) eqn:Hp; [done|].
  destruct (readFileSync w p); [|done].
  rewrite lookup_insert_ne; [done|]. intros ->. congruence.
Qed.

(** What a request obtains is the same before and after any request made
    in the same world. *)
Lemma getFileContent_contentOf (w : World) (p q : string)
    (cache : gmap string string) :
  contentOf w (snd (getFileContent w p cache)) q = contentOf w cache q.
Proof.
  rewrite getFileContent_snd. unfold contentOf.
  destruct (cache !! p) eqn:Hp; [done|].
  destruct (readFileSync w p) eqn:Hr; [|done].
  destruct (decide (p = q)) as [->|Hne].
  - by rewrite lookup_insert_eq, Hp, Hr.
  - by rewrite lookup_insert_ne.
Qed.

(** After a request that obtained a text, the text is in the cache. *)
Lemma getFileContent_stores (w : World) (p : string)
    (cache : gmap string string) (c : string) :
  contentOf w cache p = Some c -> snd (getFileContent w p cache) !! p = Some c.
Proof.
  unfold contentOf. rewrite getFileContent_snd.
  destruct (cache !! p) eqn:Hp.
  - intros [= ->]. exact Hp.
  - intros ->. apply lookup_insert_eq.
Qed.

(** A new entry is the text read at the requested path. *)
Lemma getFileContent_new (w : World) (p q : string)
    (cache : gmap string string) (c : string) :
  snd (getFileContent w p cache) !! q = Some c ->
  cache !! q = Some c \/ (q = p /\ cache !! p = None /\ readFileSync w p = Some c).
Proof.
  rewrite getFileContent_snd.
  destruct (cache !! p) eqn:Hp; [by left|].
  destruct (readFileSync w p) eqn:Hr; [|by left].
  destruct (decide (p = q)) as [->|Hne].
  - rewrite lookup_insert_eq. intros [= ->]. by right.
  - rewrite lookup_insert_ne by done. by left.
Qed.

Lemma readAll_cons (w : World) (p : string) (rest : list string)
    (cache : gmap string string) :
  readAll w (p :: rest) cache
  = (fst (getFileContent w p cache)
       :: fst (readAll w rest (snd (getFileContent w p cache))),
     snd (readAll w rest (snd (getFileContent w p cache)))).
Proof.
  simpl. destruct (getFileContent w p cache) as [c cache1]. simpl.
  by destruct (readAll w rest cache1).
Qed.

Lemma readAll_contentOf (w : World) (paths : list string) :
  forall cache q,
  contentOf w (snd (readAll w paths cache)) q = contentOf w cache q.
Proof.
  induction paths as [|p rest IH]; intros cache q; [done|].
  rewrite readAll_cons. simpl. rewrite IH. apply getFileContent_contentOf.
Qed.

(** The reads of one call return what each path obtains with the cache the
    call started from. *)
Lemma readAll_fst (w : World) (paths : list string) :
  forall cache,
  fst (readAll w paths cache) = map (contentOf w cache) paths.
Proof.
  induction paths as [|p rest IH]; intros cache; [done|].
  rewrite readAll_cons. simpl. rewrite getFileContent_fst, IH. f_equal.
  apply map_ext. intros q. apply getFileContent_contentOf.
Qed.

Lemma readAll_keeps (w : World) (paths : list string) :
  forall cache q c,
  cache !! q = Some c -> snd (readAll w paths cache) !! q = Some c.
Proof.
  induction paths as [|p rest IH]; intros cache q c Hq; [done|].
  rewrite readAll_cons. simpl. by apply IH, getFileContent_keeps.
Qed.

Lemma readAll_stores (w : World) (paths : list string) :
  forall cache p c,
  In p paths -> contentOf w cache p = Some c ->
  snd (readAll w paths cache) !! p = Some c.
Proof.
  induction paths as [|p0 rest IH]; intros cache p c Hin Hc; [destruct Hin|].
  rewrite readAll_cons. simpl. destruct Hin as [->|Hin].
  - by apply readAll_keeps, getFileContent_stores.
  - apply IH; [exact Hin|]. by rewrite getFileContent_contentOf.
Qed.

Lemma readAll_new (w : World) (paths : list string) :
  forall cache q c,
  snd (readAll w paths cache) !! q = Some c ->
  cache !! q = Some c \/
  (In q paths /\ cache !! q = None /\ readFileSync w q = Some c).
Proof.
  induction paths as [|p rest IH]; intros cache q c Hq; [by left|].
  rewrite readAll_cons in Hq. simpl in Hq.
  destruct (IH _ _ _ Hq) as [Hold|(Hin & Hnone & Hread)].
  - destruct (getFileContent_new _ _ _ _ _ Hold) as [?|(-> & ? & ?)];
      [by left|]. right. repeat split; try done. by left.
  - right. repeat split; [by right| |done].
    destruct (cache !! q) eqn:Hc; [|done].
    by rewrite (getFileContent_keeps w p q cache _ Hc) in Hnone.
Qed.

(** A cache that already holds every text the paths obtain is left as it
    is. *)
Lemma readAll_saturated (w : World) (paths : list string) :
  forall cache,
  (forall p c, In p paths -> contentOf w cache p = Some c -> cache !! p = Some c) ->
  snd (readAll w paths cache) = cache.
Proof.
  induction paths as [|p rest IH]; intros cache Hsat; [done|].
  rewrite readAll_cons. simpl.
  assert (Hsame : snd (getFileContent w p cache) = cache).
  { rewrite getFileContent_snd. destruct (cache !! p) eqn:Hp; [done|].
    destruct (readFileSync w p) eqn:Hr; [|done].
    assert (cache !! p = Some s); [|congruence].
    apply Hsat; [by left|]. unfold contentOf. by rewrite Hp. }
  rewrite Hsame. apply IH. intros q c Hin. apply Hsat. by right.
Qed.

(** ** Context assembly *)

Lemma zip_with_map_r {A B C} (f : A -> B -> C) (g : A -> B) (l : list A) :
  zip_with f l (map g l) = map (fun x => f x (g x)) l.
Proof. induction l as [|x l IH]; simpl; [done | by rewrite IH]. Qed.

(** [generateProjectContext] on a scanned manager. *)
Lemma generateProjectContext_scanned (w : World) (o : Options)
    (cm : ContextManager) (tree : TreeNode) :
  projectStructure cm = Some tree ->
  generateProjectContext w o cm
  = (fileContexts <-
       promiseAll (contextsOf w (fileCache cm)
                     (map absolutePath (findRelevantFiles (cwd w) o 0 tree))) ;;
     Ok {| structure := tree; relevantFiles := filterNotNull fileContexts |},
     {| fileCache :=
          snd (readAll w (map absolutePath (findRelevantFiles (cwd w) o 0 tree))
                       (fileCache cm));
        projectStructure := Some tree |}).
Proof.
  intros Htree. unfold generateProjectContext. rewrite Htree.
  pose proof (readAll_fst w (map absolutePath
                (findRelevantFiles (cwd w) o 0 tree)) (fileCache cm)) as Hfst.
  destruct (readAll w _ (fileCache cm)) as [contents cache'].
  simpl in Hfst. subst contents. simpl snd.
  by rewrite zip_with_map_r.
Qed.

Lemma fileContextOf_Some (w : World) (p : string) (c : option string)
    (ctx : FileContext) :
  fileContextOf w p c = Ok (Some ctx) ->
  path ctx = p /\ c = Some (content ctx) /\ content ctx <> "" /\
  statSync w p = Some (lastModified ctx) /\ extension ctx = Js.extname p.
Proof.
  unfold fileContextOf. destruct c as [[|x s]|]; try discriminate.
  destruct (statSync w p); [|discriminate].
  intros [= <-]. by repeat split.
Qed.

Lemma fileContextOf_None (w : World) (p : string) (c : option string) :
  fileContextOf w p c = Ok None -> falsy c = true.
Proof.
  unfold fileContextOf. destruct c as [[|x s]|]; try done.
  destruct (statSync w p); discriminate.
Qed.

Lemma fileContextOf_falsy (w : World) (p : string) (c : option string) :
  falsy c = true -> fileContextOf w p c = Ok None.
Proof. by destruct c as [[|x s]|]. Qed.

(** The files of a successful call: the selected paths whose text is not
    empty, in selection order, each with its text and the modification time
    read during this call. *)
Lemma contexts_files (w : World) (cache : gmap string string)
    (paths : list string) :
  forall ctxs,
  promiseAll (contextsOf w cache paths) = Ok ctxs ->
  map path (filterNotNull ctxs)
    = List.filter (fun p => negb (falsy (contentOf w cache p))) paths /\
  Forall (context_ok w cache) (filterNotNull ctxs).
Proof.
  induction paths as [|p rest IH]; intros ctxs H; simpl in H.
  - injection H as <-. split; [done | constructor].
  - destruct (fileContextOf w p (contentOf w cache p)) as [o|] eqn:Hp;
      [|discriminate].
    simpl in H.
    destruct (promiseAll (contextsOf w cache rest)) as [more|] eqn:Hrest;
      [|discriminate].
    simpl in H. injection H as <-.
    destruct (IH more eq_refl) as [Hpaths Hok].
    destruct o as [ctx|]; simpl.
    + apply fileContextOf_Some in Hp as (Hpath & Hc & Hne & Hstat & Hext).
      rewrite Hc. destruct (content ctx) eqn:Hcontent; [done|]. simpl.
      split; [by rewrite Hpath, Hpaths|].
      constructor; [|exact Hok].
      unfold context_ok. rewrite Hpath, Hcontent. by repeat split.
    + apply fileContextOf_None in Hp. rewrite Hp. simpl. by split.
Qed.




(** ** The claims *)

(** C1. Whatever directory is scanned, the tree the scan returns has, below
    its root, no node whose name is [node_modules], [.git], [dist] or
    [build] or begins with a dot, and no node below such a name: every name
    on the way from the root to a node passes the pruning test, the node's
    relative path being these names joined.  Every file leaf carries the
    lower-cased extension of its name, and this extension is one of [.js],
    [.jsx], [.ts], [.tsx], [.json], [.html], [.css]. *)
Theorem scan_prunes_and_filters (projectRoot : string)
    (entries : list FsEntry) (tree : TreeNode)
    (names : list string) (n : TreeNode) :
  forallb valid_entry entries = true ->
  scan projectRoot (Listing entries) = Ok tree ->
  Reaches names n tree ->
  Forall (fun name =>
            name <> "node_modules" /\ name <> ".git" /\ name <> "dist" /\
            name <> "build" /\ Js.startsWith name "." = false) names /\
  node_path n = joinFrom "" names /\
  match n with
  | File name _ ext =>
      ext = Js.toLowerCase (Js.extname name) /\
      In ext [".js"; ".jsx"; ".ts"; ".tsx"; ".json"; ".html"; ".css"]
  | Directory _ _ _ => True
  end.
Proof.
  intros Hvalid Hscan Hreach. unfold scan in Hscan. simpl in Hscan.
  destruct (buildProjectStructure_sound _ _ _ _ Hvalid Hscan) as [Hroot Hbelow].
  destruct (Hbelow names n Hreach) as (Hall & Hpath & Hleaf).
  rewrite Hroot in Hpath. split; [|split; [exact Hpath|]].
  - eapply Forall_impl; [exact Hall|]. intros name. apply not_skipped_spec.
  - destruct n; [exact I | exact Hleaf].
Qed.

Lemma scan_prunes_and_filters_witness :
  Forall (fun name =>
            name <> "node_modules" /\ name <> ".git" /\ name <> "dist" /\
            name <> "build" /\ Js.startsWith name "." = false)
         ["src"; "a.ts"] /\
  node_path (File "a.ts" "src/a.ts" ".ts") = joinFrom "" ["src"; "a.ts"] /\
  (".ts" = Js.toLowerCase (Js.extname "a.ts") /\
   In ".ts" [".js"; ".jsx"; ".ts"; ".tsx"; ".json"; ".html"; ".css"]).
Proof.
  apply (scan_prunes_and_filters "/srv/app" scenario1
           (Directory "app" "" [Directory "src" "src" [File "a.ts" "src/a.ts" ".ts"]])
           ["src"; "a.ts"] (File "a.ts" "src/a.ts" ".ts")).
  - reflexivity.
  - reflexivity.
  - apply (Reaches_child "app" "" _ (Directory "src" "src" [File "a.ts" "src/a.ts" ".ts"])
             ["a.ts"]); [by left|].
    apply (Reaches_child "src" "src" _ (File "a.ts" "src/a.ts" ".ts") []);
      [by left | constructor].
Defined.

Lemma matchesPattern_spec (path : string) (pattern : Pattern) :
  matchesPattern path pattern = true <-> matches path pattern.
Proof.
  destruct pattern as [s|test|]; simpl.
  - apply includes_spec.
  - reflexivity.
  - split; [discriminate | tauto].
Qed.

Lemma matchesInclude_spec (o : Options) (path : string) :
  matchesInclude o path = true <->
  includePatterns o = [] \/
  exists pattern, In pattern (includePatterns o) /\ matches path pattern.
Proof.
  unfold matchesInclude. rewrite orb_true_iff, existsb_exists. split.
  - intros [Hempty|(pattern & Hin & Hm)].
    + left. apply Nat.eqb_eq in Hempty. by destruct (includePatterns o).
    + right. exists pattern. split; [done | by apply matchesPattern_spec].
  - intros [->|(pattern & Hin & Hm)]; [by left|].
    right. exists pattern. split; [done | by apply matchesPattern_spec].
Qed.

Lemma matchesExclude_spec (o : Options) (path : string) :
  matchesExclude o path = false <->
  forall pattern, In pattern (excludePatterns o) -> ~ matches path pattern.
Proof.
  unfold matchesExclude. rewrite <- not_true_iff_false, existsb_exists. split.
  - intros Hno pattern Hin Hm. apply Hno. exists pattern.
    split; [done | by apply matchesPattern_spec].
  - intros Hno (pattern & Hin & Hm). apply (Hno pattern Hin).
    by apply matchesPattern_spec.
Qed.

Lemma candidate_spec (o : Options) (path : string) :
  candidate o path = true <->
  (includePatterns o = [] \/
   exists pattern, In pattern (includePatterns o) /\ matches path pattern) /\
  (forall pattern, In pattern (excludePatterns o) -> ~ matches path pattern).
Proof.
  unfold candidate.
  rewrite andb_true_iff, negb_true_iff, matchesInclude_spec, matchesExclude_spec.
  reflexivity.
Qed.

Lemma In_take {A} (x : A) (n : nat) (l : list A) : In x (take n l) -> In x l.
Proof.
  revert n. induction l as [|y l IH]; intros [|n]; simpl; try tauto.
  intros [->|H]; [by left | right; eauto].
Qed.

(** A selected file is a candidate found at a leaf no deeper than the
    limit. *)
Lemma selected_from_leaf (cwd : string) (o : Options) (d : nat)
    (node : TreeNode) (r : RelevantFile) :
  In r (findRelevantFiles cwd o d node) ->
  exists k p, In (k, p) (leaves d node) /\ k <= maxDepth o /\
              candidate o p = true /\ r = relevantFile cwd p.
Proof.
  intros Hin.
  assert (Hreach : In r (map (relevantFile cwd) (reachableCandidates o d node))).
  { destruct node as [name path children|name path ext].
    - rewrite findRelevantFiles_directory in Hin. by apply In_take in Hin.
    - rewrite findRelevantFiles_file in Hin. rewrite reachableCandidates_file.
      destruct (maxDepth o <? d)%nat eqn:Hdeep; [destruct Hin|].
      apply Nat.ltb_ge in Hdeep.
      replace (d <=? maxDepth o)%nat with true
        by (symmetry; apply Nat.leb_le; lia).
      simpl. by destruct (candidate o path). }
  apply in_map_iff in Hreach as (p & <- & Hp).
  unfold reachableCandidates in Hp.
  apply in_map_iff in Hp as ([k p'] & <- & Hp).
  apply List.filter_In in Hp as [Hleaf Htest]. simpl in Htest.
  apply andb_true_iff in Htest as [Hk Hc]. apply Nat.leb_le in Hk.
  by exists k, p'.
Qed.

Lemma leaves_FileAt (node : TreeNode) :
  forall d k p, In (k, p) (leaves d node) ->
  exists j, k = d + j /\ FileAt j p node.
Proof.
  induction node as [name path children IH|name path ext]
    using TreeNode_nested_ind; intros d k p Hin; simpl in Hin.
  - apply in_flat_map in Hin as (child & Hchild & Hin).
    rewrite List.Forall_forall in IH.
    destruct (IH child Hchild (S d) k p Hin) as (j & -> & Hat).
    exists (S j). split; [lia|]. by eapply FileAt_child.
  - destruct Hin as [[= <- <-]|[]]. exists 0. split; [lia | constructor].
Qed.





(** Every file of a result is the context of a selected path. *)
Lemma files_selected (w : World) (o : Options) (cm : ContextManager)
    (tree : TreeNode) (pc : ProjectContext) :
  projectStructure cm = Some tree ->
  fst (generateProjectContext w o cm) = Ok pc ->
  forall ctx, In ctx (relevantFiles pc) ->
    context_ok w (fileCache cm) ctx /\
    exists r, In r (findRelevantFiles (cwd w) o 0 tree) /\
              path ctx = absolutePath r.
Proof.
  intros Htree Hok ctx Hin.
  rewrite (generateProjectContext_scanned w o cm _ Htree) in Hok.
  cbn [fst] in Hok.
  destruct (promiseAll _) as [ctxs|] eqn:Hall; [|discriminate].
  cbn [bind] in Hok. injection Hok as <-. cbn [relevantFiles] in Hin.
  destruct (contexts_files _ _ _ _ Hall) as [Hpaths Hctx].
  rewrite List.Forall_forall in Hctx. split; [by apply Hctx|].
  assert (Hp : In (path ctx) (map path (filterNotNull ctxs)))
    by (by apply in_map).
  rewrite Hpaths in Hp. apply List.filter_In in Hp as [Hp _].
  apply in_map_iff in Hp as (r & Hr & Hsel). by exists r.
Qed.

(** C3. No file of the result lies deeper than [maxDepth], the root being
    at depth 0: each comes from a file leaf with at most [maxDepth]
    directories above it.  The traversal returns at once on any node deeper
    than [maxDepth], so a directory at depth [maxDepth] is entered and none
    of its children contributes; with [maxDepth = 0] and a directory as
    root, as the scan builds it, no file is selected. *)
Theorem selected_depth_bounded (w : World) (o : Options)
    (cm : ContextManager) (tree : TreeNode) (pc : ProjectContext) :
  projectStructure cm = Some tree ->
  fst (generateProjectContext w o cm) = Ok pc ->
  (forall ctx, In ctx (relevantFiles pc) ->
     exists d p, FileAt d p tree /\ d <= maxDepth o /\
                 path ctx = Js.path_resolve (cwd w) p) /\
  (forall child, findRelevantFiles (cwd w) o (S (maxDepth o)) child = []) /\
  (forall name rel children,
     findRelevantFiles (cwd w) o (maxDepth o) (Directory name rel children)
     = []) /\
  (forall name rel children,
     tree = Directory name rel children -> maxDepth o = 0 ->
     findRelevantFiles (cwd w) o 0 tree = [] /\ relevantFiles pc = []).
Proof.
  intros Htree Hok.
  assert (Hdeep : forall child,
            findRelevantFiles (cwd w) o (S (maxDepth o)) child = []).
  { intros [name rel children|name rel ext];
      rewrite ?findRelevantFiles_dir, ?findRelevantFiles_file;
      by replace (maxDepth o <? S (maxDepth o))%nat with true
        by (symmetry; apply Nat.ltb_lt; lia). }
  assert (Hdir : forall name rel children,
            findRelevantFiles (cwd w) o (maxDepth o)
              (Directory name rel children) = []).
  { intros name rel children.
    rewrite findRelevantFiles_directory, reachableCandidates_dir.
    replace (flat_map (reachableCandidates o (S (maxDepth o))) children)
      with (@nil string); [simpl; apply take_nil|].
    induction children as [|c cs IH]; simpl; [done|].
    rewrite reachableCandidates_too_deep by lia. exact IH. }
  split; [|split; [exact Hdeep|split; [exact Hdir|]]].
  - intros ctx Hin.
    destruct (files_selected w o cm tree pc Htree Hok ctx Hin)
      as (_ & r & Hr & Hpath).
    destruct (selected_from_leaf _ _ _ _ _ Hr) as (k & p & Hleaf & Hk & _ & ->).
    destruct (leaves_FileAt _ _ _ _ Hleaf) as (j & -> & Hat).
    exists j, p. by repeat split.
  - intros name rel children -> Hzero.
    assert (Hnone : findRelevantFiles (cwd w) o 0
                      (Directory name rel children) = []).
    { pose proof (Hdir name rel children) as H0.
      rewrite Hzero in H0. exact H0. }
    split; [exact Hnone|].
    destruct (relevantFiles pc) as [|ctx l] eqn:Hfiles; [done|].
    destruct (files_selected w o cm _ pc Htree Hok ctx) as (_ & r & Hr & _).
    { rewrite Hfiles. by left. }
    rewrite Hnone in Hr. destruct Hr.
Qed.

Lemma selected_depth_bounded_witness :
  (forall ctx, In ctx (relevantFiles nestedResult) ->
     exists d p, FileAt d p nestedTree /\ d <= maxDepth depthOne /\
                 path ctx = Js.path_resolve (cwd nestedOnDisk) p) /\
  (forall child,
     findRelevantFiles (cwd nestedOnDisk) depthOne (S (maxDepth depthOne)) child
     = []) /\
  (forall name rel children,
     findRelevantFiles (cwd nestedOnDisk) depthOne (maxDepth depthOne)
       (Directory name rel children) = []) /\
  (forall name rel children,
     nestedTree = Directory name rel children -> maxDepth depthOne = 0 ->
     findRelevantFiles (cwd nestedOnDisk) depthOne 0 nestedTree = [] /\
     relevantFiles nestedResult = []).
Proof.
  apply (selected_depth_bounded nestedOnDisk depthOne scannedNested
           nestedTree nestedResult).
  - reflexivity.
  - vm_compute. reflexivity.
Defined.

(** With patterns that keep no state (strings, [RegExp] objects without
    the [g] and [y] flags, other values), a file leaf the traversal reaches
    is selected if and only if the include patterns are empty or its
    relative path matches one of them, and its relative path matches no
    exclude pattern; a string pattern matches as a substring, a [RegExp] by
    its test.  No selected path, in any tree, then matches an exclude
    pattern, whatever include patterns it matches. *)
Lemma candidate_iff_patterns (cwd : string) (o : Options) (d : nat)
    (name path ext : string) :
  (findRelevantFiles cwd o d (File name path ext) = [relevantFile cwd path]
   <-> d <= maxDepth o /\
       (includePatterns o = [] \/
        exists pattern, In pattern (includePatterns o) /\
          match pattern with
          | PString s => exists a b, path = a ++ s ++ b
          | PRegExp test => test path = true
          | POther => False
          end) /\
       (forall pattern, In pattern (excludePatterns o) ->
          ~ match pattern with
            | PString s => exists a b, path = a ++ s ++ b
            | PRegExp test => test path = true
            | POther => False
            end)) /\
  (findRelevantFiles cwd o d (File name path ext) = [relevantFile cwd path] \/
   findRelevantFiles cwd o d (File name path ext) = []) /\
  (forall node depth r pattern,
     In r (findRelevantFiles cwd o depth node) ->
     In pattern (excludePatterns o) ->
     ~ matches (file_path r) pattern).
Proof.
  split; [|split].
  - rewrite findRelevantFiles_file. fold (matches path).
    change (fun pattern => matches path pattern) with (matches path).
    rewrite <- (candidate_spec o path).
    destruct (maxDepth o <? d)%nat eqn:Hdeep.
    + apply Nat.ltb_lt in Hdeep. split; [discriminate | lia].
    + apply Nat.ltb_ge in Hdeep. destruct (candidate o path).
      * split; [by split | done].
      * split; [discriminate | by intros [_ ?]].
  - rewrite findRelevantFiles_file.
    destruct (maxDepth o <? d)%nat; [by right|].
    destruct (candidate o path); [by left | by right].
  - intros node depth r pattern Hr Hpat.
    destruct (selected_from_leaf _ _ _ _ _ Hr) as (k & p & _ & _ & Hc & ->).
    apply candidate_spec in Hc as [_ Hexcl]. by apply Hexcl.
Qed.

(** C4, at the failing input.  [a.test.js] and [b.test.js] are scanned; the
    include pattern is the string ["test"], the exclude pattern the [RegExp]
    [/test/g].  Both paths match both patterns.  The test of [a.test.js]
    against the exclude pattern succeeds and leaves [lastIndex] at 6; the
    test of [b.test.js] by the same object starts at index 6, finds nothing,
    and [b.test.js] is selected and returned.  With [/test/], which keeps no
    [lastIndex], no file is selected. *)
Theorem global_regexp_exclude_selects_match :
  let g := literalRegExp "test" true in
  let call re :=
    General.generateProjectContext (hostOf testFilesOnDisk) (excludeTests re)
      scannedTestFiles ∅ in
  Js.includes "a.test.js" "test" = true /\
  Js.includes "b.test.js" "test" = true /\
  General.test g 0 "a.test.js" = (true, 6) /\
  General.test g 0 "b.test.js" = (true, 6) /\
  General.test g 6 "b.test.js" = (false, 0) /\
  General.findRelevantFiles (Ok "/srv/app")
    (General.destructure (excludeTests g)) 0 testFiles ∅
  = (Ok [relevantFile "/srv/app" "b.test.js"], {[ 0 := 0 ]}) /\
  filesOf (fst (call g))
  = Some [ {| path := "/srv/app/b.test.js"; content := "test b";
              extension := ".js"; lastModified := 7 |} ] /\
  filesOf (fst (call (literalRegExp "test" false))) = Some [].
Proof. cbv zeta. repeat split; vm_compute; reflexivity. Qed.



(** The cache after a call on a scanned manager. *)
Lemma generateProjectContext_cache (w : World) (o : Options)
    (cm : ContextManager) (tree : TreeNode) :
  projectStructure cm = Some tree ->
  fileCache (snd (generateProjectContext w o cm))
  = snd (readAll w (map absolutePath (findRelevantFiles (cwd w) o 0 tree))
                 (fileCache cm)) /\
  projectStructure (snd (generateProjectContext w o cm)) = Some tree.
Proof.
  intros Htree. by rewrite (generateProjectContext_scanned w o cm _ Htree).
Qed.

Lemma generateProjectContext_unscanned (w : World) (o : Options)
    (cm : ContextManager) :
  projectStructure cm = None ->
  generateProjectContext w o cm
  = (Throw (ErrorMsg "Project has not been scanned yet"), cm).
Proof. intros H. unfold generateProjectContext. by rewrite H. Qed.

(** C5, at the failing input.  [a.js] and [b.js] are scanned and a first
    call caches both.  [a.js] is then deleted.  The next call does not drop
    [a.js]: its text comes from the cache, the unguarded [statSync] throws
    and the whole call fails.  On a manager that has not cached [a.js] the
    same deletion drops the file and [b.js] still appears. *)
Theorem deleted_cached_file_fails_call :
  fileCache afterFirstCall !! "/srv/app/a.js" = Some "let a" /\
  fst (generateProjectContext onlyBOnDisk defaultOptions afterFirstCall)
    = Throw (FsError "stat" "/srv/app/a.js") /\
  filesOf (fst (generateProjectContext onlyBOnDisk defaultOptions
                  scannedTwoFiles))
    = Some [ {| path := "/srv/app/b.js"; content := "let b";
                extension := ".js"; lastModified := 7 |} ].
Proof. vm_compute. repeat split. Qed.


(** Calling twice in the same world: the second call returns what the
    first returned and changes nothing. *)
Lemma generateProjectContext_twice (w : World) (o : Options)
    (cm : ContextManager) :
  generateProjectContext w o (snd (generateProjectContext w o cm))
  = generateProjectContext w o cm.
Proof.
  destruct (projectStructure cm) as [tree|] eqn:Htree.
  - destruct (generateProjectContext_cache w o cm tree Htree) as [Hcache Hps].
    rewrite (generateProjectContext_scanned w o _ tree Hps).
    rewrite (generateProjectContext_scanned w o cm tree Htree) at 3.
    rewrite Hcache.
    set (paths := map absolutePath (findRelevantFiles (cwd w) o 0 tree)).
    f_equal.
    + unfold contextsOf.
      rewrite (map_ext (fun p => fileContextOf w p
                  (contentOf w (snd (readAll w paths (fileCache cm))) p))
                 (fun p => fileContextOf w p (contentOf w (fileCache cm) p)));
        [done|].
      intros p. by rewrite readAll_contentOf.
    + f_equal. apply readAll_saturated. intros p c Hin Hc.
      rewrite readAll_contentOf in Hc. by apply readAll_stores.
  - rewrite (generateProjectContext_unscanned w o cm Htree). cbn [snd].
    by rewrite (generateProjectContext_unscanned w o cm Htree).
Qed.


(** C8, counterexample.  A first call reports the times 5 and 7; [a.js] is
    touched; the second call reports 9 and 7. *)
Lemma lastModified_not_snapshot :
  ~ lastModified_is_snapshot bothOnDisk touchedOnDisk defaultOptions
      scannedTwoFiles.
Proof.
  intros H. specialize (H _ _ eq_refl eq_refl).
  vm_compute in H. discriminate H.
Qed.

(** C8, amended.  A cache entry holds the raw text alone: an entry of the
    cache after a call was there before or is the text this call read at
    that path, and the cache does not depend on what [statSync] returns.
    The [lastModified] of every file of a result is the modification time
    [statSync] returns during the very call that built the result. *)
Theorem lastModified_read_at_each_call (w : World) (o : Options)
    (cm : ContextManager) (pc : ProjectContext) :
  fst (generateProjectContext w o cm) = Ok pc ->
  (forall ctx, In ctx (relevantFiles pc) ->
     statSync w (path ctx) = Some (lastModified ctx) /\
     contentOf w (fileCache cm) (path ctx) = Some (content ctx)) /\
  (forall q c,
     fileCache (snd (generateProjectContext w o cm)) !! q = Some c ->
     fileCache cm !! q = Some c \/ readFileSync w q = Some c) /\
  (forall stat',
     fileCache (snd (generateProjectContext
                       {| cwd := cwd w; readFileSync := readFileSync w;
                          statSync := stat' |} o cm))
     = fileCache (snd (generateProjectContext w o cm))).
Proof.
  intros Hok. destruct (projectStructure cm) as [tree|] eqn:Htree.
  2: { rewrite generateProjectContext_unscanned in Hok by done.
       discriminate. }
  split; [|split].
  - intros ctx Hin.
    destruct (files_selected w o cm tree pc Htree Hok ctx Hin)
      as ((Hc & _ & Hstat & _) & _).
    by split.
  - intros q c Hq.
    destruct (generateProjectContext_cache w o cm tree Htree) as [Hcache _].
    rewrite Hcache in Hq.
    destruct (readAll_new _ _ _ _ _ Hq) as [?|(_ & _ & ?)]; [by left | by right].
  - intros stat'.
    destruct (generateProjectContext_cache w o cm tree Htree) as [-> _].
    destruct (generateProjectContext_cache
                {| cwd := cwd w; readFileSync := readFileSync w;
                   statSync := stat' |} o cm tree Htree) as [-> _].
    cbn [cwd].
    generalize (map absolutePath (findRelevantFiles (cwd w) o 0 tree)).
    intros paths. generalize (fileCache cm).
    induction paths as [|p rest IH]; intros cache; [done|].
    rewrite !readAll_cons. cbn [snd].
    rewrite !getFileContent_snd. cbn [readFileSync]. apply IH.
Qed.

Lemma lastModified_read_at_each_call_witness :
  (forall ctx,
     In ctx [ {| path := "/srv/app/a.js"; content := "let a";
                 extension := ".js"; lastModified := 9 |};
              {| path := "/srv/app/b.js"; content := "let b";
                 extension := ".js"; lastModified := 7 |} ] ->
     statSync touchedOnDisk (path ctx) = Some (lastModified ctx) /\
     contentOf touchedOnDisk (fileCache afterFirstCall) (path ctx)
       = Some (content ctx)) /\
  (forall q c,
     fileCache (snd (generateProjectContext touchedOnDisk defaultOptions
                       afterFirstCall)) !! q = Some c ->
     fileCache afterFirstCall !! q = Some c \/
     readFileSync touchedOnDisk q = Some c) /\
  (forall stat',
     fileCache (snd (generateProjectContext
                       {| cwd := cwd touchedOnDisk;
                          readFileSync := readFileSync touchedOnDisk;
                          statSync := stat' |} defaultOptions afterFirstCall))
     = fileCache (snd (generateProjectContext touchedOnDisk defaultOptions
                         afterFirstCall))).
Proof.
  apply (lastModified_read_at_each_call touchedOnDisk defaultOptions
           afterFirstCall
           {| structure := Directory "app" ""
                [File "a.js" "a.js" ".js"; File "b.js" "b.js" ".js"];
              relevantFiles :=
                [ {| path := "/srv/app/a.js"; content := "let a";
                     extension := ".js"; lastModified := 9 |};
                  {| path := "/srv/app/b.js"; content := "let b";
                     extension := ".js"; lastModified := 7 |} ] |}).
  vm_compute. reflexivity.
Defined.

(** C9. A file that is read successfully and whose text is the empty
    string is left out of the files of the result: the result of the call
    is the one the call returns when the read of that file fails, no file
    of the result has its path, and no file of a result has an empty
    text. *)
Theorem empty_file_dropped (w : World) (o : Options) (cm : ContextManager)
    (p : string) :
  readFileSync w p = Some "" ->
  fileCache cm !! p = None ->
  fst (generateProjectContext w o cm)
    = fst (generateProjectContext (failRead p w) o cm) /\
  (forall pc, fst (generateProjectContext w o cm) = Ok pc ->
     forall ctx, In ctx (relevantFiles pc) ->
       path ctx <> p /\ content ctx <> "").
Proof.
  intros Hread Hnone. split.
  - destruct (projectStructure cm) as [tree|] eqn:Htree.
    2: { by rewrite !generateProjectContext_unscanned. }
    rewrite (generateProjectContext_scanned w o cm tree Htree).
    rewrite (generateProjectContext_scanned (failRead p w) o cm tree Htree).
    cbn [fst cwd failRead]. do 2 f_equal. unfold contextsOf.
    apply map_ext. intros q. unfold contentOf.
    destruct (fileCache cm !! q) eqn:Hq; [done|].
    cbn [readFileSync failRead].
    destruct (String.eqb_spec q p) as [->|Hne]; [|done].
    by rewrite Hread.
  - intros pc Hok ctx Hin.
    destruct (projectStructure cm) as [tree|] eqn:Htree.
    2: { rewrite generateProjectContext_unscanned in Hok by done.
         discriminate. }
    destruct (files_selected w o cm tree pc Htree Hok ctx Hin)
      as ((Hc & Hne & _) & _).
    split; [|exact Hne]. intros Hp. rewrite Hp in Hc.
    unfold contentOf in Hc. rewrite Hnone, Hread in Hc.
    injection Hc as Hc. by apply Hne.
Qed.

Lemma empty_file_dropped_witness :
  fst (generateProjectContext emptyOnDisk defaultOptions scannedEmptyFile)
    = fst (generateProjectContext (failRead "/srv/app/empty.js" emptyOnDisk)
             defaultOptions scannedEmptyFile) /\
  (forall pc,
     fst (generateProjectContext emptyOnDisk defaultOptions scannedEmptyFile)
       = Ok pc ->
     forall ctx, In ctx (relevantFiles pc) ->
       path ctx <> "/srv/app/empty.js" /\ content ctx <> "").
Proof.
  apply (empty_file_dropped emptyOnDisk defaultOptions scannedEmptyFile
           "/srv/app/empty.js").
  - reflexivity.
  - reflexivity.
Defined.

(** The selection and the result on the project with the empty file. *)
Example empty_file_selected_then_dropped :
  map absolutePath
      (findRelevantFiles "/srv/app" defaultOptions 0
         (Directory "app" ""
            [File "empty.js" "empty.js" ".js"; File "b.js" "b.js" ".js"]))
    = ["/srv/app/empty.js"; "/srv/app/b.js"] /\
  filesOf (fst (generateProjectContext emptyOnDisk defaultOptions
                  scannedEmptyFile))
    = Some [ {| path := "/srv/app/b.js"; content := "let b";
                extension := ".js"; lastModified := 7 |} ].
Proof. vm_compute. split; reflexivity. Qed.

(** C10. On a manager that has not scanned, the call throws the error
    whose message is "Project has not been scanned yet" and leaves the
    manager, its cache included, as it was. *)
Theorem unscanned_call_fails_atomically (w : World) (o : Options)
    (cm : ContextManager) :
  projectStructure cm = None ->
  fst (generateProjectContext w o cm)
    = Throw (ErrorMsg "Project has not been scanned yet") /\
  snd (generateProjectContext w o cm) = cm /\
  fileCache (snd (generateProjectContext w o cm)) = fileCache cm.
Proof.
  intros Hnone. rewrite (generateProjectContext_unscanned w o cm Hnone).
  by repeat split.
Qed.

Lemma unscanned_call_fails_atomically_witness :
  fst (generateProjectContext bothOnDisk defaultOptions newContextManager)
    = Throw (ErrorMsg "Project has not been scanned yet") /\
  snd (generateProjectContext bothOnDisk defaultOptions newContextManager)
    = newContextManager /\
  fileCache (snd (generateProjectContext bothOnDisk defaultOptions
                    newContextManager))
    = fileCache newContextManager.
Proof.
  apply (unscanned_call_fails_atomically bothOnDisk defaultOptions
           newContextManager).
  reflexivity.
Defined.

(** ** The scanned root plays no part in the paths read *)

Lemma forEntries_agree (body body' : FsEntry -> result (option TreeNode))
    (entries : list FsEntry) :
  Forall (fun e => agree (body e) (body' e)) entries ->
  agree_children (forEntries body entries) (forEntries body' entries).
Proof.
  induction 1 as [|e es He _ IH]; simpl; [done|].
  unfold agree in He.
  destruct (body e) as [pushed|], (body' e) as [pushed'|]; simpl; try done.
  unfold agree_children in IH.
  destruct (forEntries body es) as [more|], (forEntries body' es) as [more'|];
    simpl; try done.
  intros d. specialize (He d). specialize (IH d).
  destruct pushed, pushed'; simpl in *; rewrite IH;
    first [by rewrite He | by rewrite <- He | done].
Qed.

Lemma scanEntry_agree (e : FsEntry) :
  forall dir dir' rel, agree (scanEntry dir rel e) (scanEntry dir' rel e).
Proof.
  induction e as [name|name sub IH|name] using FsEntry_nested_ind;
    intros dir dir' rel;
    rewrite ?scanEntry_file, ?scanEntry_dir, ?scanEntry_denied;
    destruct (skipped name); try done.
  - by destruct (includes_str _ _).
  - pose proof (forEntries_agree
                  (scanEntry (Js.path_join dir name) (Js.path_join rel name))
                  (scanEntry (Js.path_join dir' name) (Js.path_join rel name))
                  sub) as Hsub.
    unfold agree_children in Hsub.
    destruct (forEntries _ sub) as [children|],
             (forEntries _ sub) as [children'|]; simpl.
    + intros d. apply Hsub.
      eapply Forall_impl; [exact IH|]. intros x Hx. apply Hx.
    + apply Hsub. eapply Forall_impl; [exact IH|]. intros x Hx. apply Hx.
    + apply Hsub. eapply Forall_impl; [exact IH|]. intros x Hx. apply Hx.
    + done.
Qed.

(** The scan of the same entries under another root path gives a tree with
    the same relative paths, hence the same selection. *)
Lemma selection_ignores_root (cwd : string) (o : Options)
    (projectRoot projectRoot' : string) (entries : list FsEntry)
    (tree tree' : TreeNode) :
  scan projectRoot (Listing entries) = Ok tree ->
  scan projectRoot' (Listing entries) = Ok tree' ->
  findRelevantFiles cwd o 0 tree = findRelevantFiles cwd o 0 tree'.
Proof.
  unfold scan, buildProjectStructure. cbn [readdirSync bind].
  pose proof (forEntries_agree (scanEntry projectRoot "")
                (scanEntry projectRoot' "") entries) as Hagree.
  unfold agree_children in Hagree.
  destruct (forEntries (scanEntry projectRoot "") entries) as [children|];
    [|discriminate].
  destruct (forEntries (scanEntry projectRoot' "") entries) as [children'|];
    [|discriminate].
  intros [= <-] [= <-].
  rewrite !findRelevantFiles_directory. do 2 f_equal.
  unfold reachableCandidates. do 2 f_equal. simpl. apply Hagree.
  apply List.Forall_forall. intros e _. apply scanEntry_agree.
Qed.

Lemma path_join_nonempty (a b : string) :
  a <> "" -> b <> "" -> Js.path_join a b = a ++ "/" ++ b.
Proof. by destruct a, b. Qed.

Lemma valid_name_nonempty (name : string) :
  valid_name name = true -> name <> "".
Proof. by destruct name. Qed.

Lemma append_nonempty_l (a b : string) : a <> "" -> a ++ b <> "".
Proof. by destruct a. Qed.

Lemma joinFrom_suffix (names : list string) :
  forall rel, rel <> "" -> forallb valid_name names = true ->
  joinFrom rel names = rel ++ suffixOf names.
Proof.
  induction names as [|name rest IH]; intros rel Hrel Hvalid.
  - simpl. clear. induction rel as [|x rel IH]; [done|].
    string_simpl. by rewrite <- IH.
  - simpl in Hvalid. apply andb_true_iff in Hvalid as [Hname Hrest].
    apply valid_name_nonempty in Hname.
    cbn [joinFrom fold_left]. fold (joinFrom (Js.path_join rel name) rest).
    rewrite path_join_nonempty by done.
    rewrite IH; [|by apply append_nonempty_l | done].
    cbn [suffixOf]. by rewrite !append_assoc.
Qed.

Lemma append_inv_tail (a b s : string) : a ++ s = b ++ s -> a = b.
Proof.
  intros H. apply (f_equal list_ascii_of_string) in H.
  rewrite !list_ascii_of_string_app in H. apply app_inv_tail in H.
  rewrite <- (string_of_list_ascii_of_string a),
          <- (string_of_list_ascii_of_string b).
  by rewrite H.
Qed.

Lemma valid_name_relative (name rest : string) :
  valid_name name = true -> Js.startsWith (name ++ rest) "/" = false.
Proof.
  unfold valid_name. intros H. apply andb_true_iff in H as [Hne Hns].
  destruct name as [|x name]; [done|].
  apply negb_true_iff in Hns. rewrite includes_cons in Hns.
  apply orb_false_iff in Hns as [Hx _]. rewrite startsWith_char in Hx.
  string_simpl. by rewrite startsWith_char.
Qed.

(** The string read for a scanned entry is the string [joinFrom] makes of
    the root and the names only when the working directory is the root. *)
Lemma read_path_is_location_iff (cwd projectRoot : string)
    (names : list string) :
  projectRoot <> "" -> names <> [] -> forallb valid_name names = true ->
  Js.path_resolve cwd (joinFrom "" names) = joinFrom projectRoot names ->
  cwd = projectRoot.
Proof.
  intros Hroot Hnames Hvalid Heq.
  destruct names as [|name rest]; [done|].
  rewrite (joinFrom_suffix _ projectRoot Hroot Hvalid) in Heq.
  simpl in Hvalid. apply andb_true_iff in Hvalid as [Hname Hrest].
  change (joinFrom "" (name :: rest)) with (joinFrom name rest) in Heq.
  rewrite (joinFrom_suffix rest name) in Heq
    by (done || by apply valid_name_nonempty).
  unfold Js.path_resolve in Heq.
  rewrite (valid_name_relative name _ Hname) in Heq.
  destruct (name ++ suffixOf rest) as [|x s] eqn:Hp.
  { apply valid_name_nonempty in Hname.
    by apply (append_nonempty_l name (suffixOf rest)) in Hname. }
  rewrite <- Hp in Heq. cbn [suffixOf] in Heq.
  destruct (String.eqb_spec cwd "/") as [->|Hcwd].
  - change ("/" ++ name ++ suffixOf rest)
      with ("" ++ "/" ++ name ++ suffixOf rest) in Heq at 1.
    apply append_inv_tail in Heq. by subst.
  - by apply append_inv_tail in Heq.
Qed.

Lemma plain_segment_valid (names : list string) :
  forallb plain_segment names = true -> forallb valid_name names = true.
Proof.
  intros H. apply forallb_forall. intros name Hin.
  apply (proj1 (forallb_forall _ _) H) in Hin. unfold plain_segment in Hin.
  by apply andb_true_iff in Hin as [[Hin _]%andb_true_iff _].
Qed.

Lemma normalised_inv (p : string) :
  normalised p -> exists name rest, valid_name name = true /\
                                    p = "/" ++ name ++ rest.
Proof.
  intros ([|name segments] & Hne & Hplain & ->); [done|].
  exists name, (suffixOf segments). split; [|reflexivity].
  simpl in Hplain. apply andb_true_iff in Hplain as [Hname _].
  unfold plain_segment in Hname.
  by apply andb_true_iff in Hname as [[Hname _]%andb_true_iff _].
Qed.

(** For a root in normal form, the path read for a scanned entry is the
    place of the entry on disk exactly when the working directory is the
    scanned root. *)
Lemma read_path_is_location (cwd projectRoot : string) (names : list string) :
  normalised projectRoot -> names <> [] ->
  forallb plain_segment names = true ->
  Js.path_resolve cwd (joinFrom "" names) = joinFrom projectRoot names
  <-> cwd = projectRoot.
Proof.
  intros Hnorm Hnames Hplain.
  pose proof (plain_segment_valid names Hplain) as Hvalid.
  destruct (normalised_inv projectRoot Hnorm) as (seg & more & Hseg & Hroot).
  assert (Hne : projectRoot <> "") by (by rewrite Hroot).
  split; [by apply read_path_is_location_iff|].
  intros ->.
  destruct names as [|name rest]; [done|].
  rewrite (joinFrom_suffix _ projectRoot Hne Hvalid).
  simpl in Hvalid. apply andb_true_iff in Hvalid as [Hname Hrest].
  change (joinFrom "" (name :: rest)) with (joinFrom name rest).
  rewrite (joinFrom_suffix rest name)
    by (done || by apply valid_name_nonempty).
  unfold Js.path_resolve.
  rewrite (valid_name_relative name _ Hname).
  destruct (name ++ suffixOf rest) as [|x s] eqn:Hp.
  { apply valid_name_nonempty in Hname.
    by apply (append_nonempty_l name (suffixOf rest)) in Hname. }
  rewrite <- Hp. cbn [suffixOf].
  destruct (String.eqb_spec projectRoot "/") as [Heq|_]; [|reflexivity].
  exfalso. rewrite Hroot in Heq.
  apply valid_name_nonempty in Hseg. destruct seg as [|y seg]; [done|].
  rewrite !append_cons, append_nil_l in Heq. discriminate Heq.
Qed.

(** C7. The path that is read, that keys the cache and that the result
    reports for a selected file is its root-relative path resolved against
    the working directory of the process.  The scanned root plays no part:
    scanning the same entries under another root path gives the same
    selection, and, the scanned root being an absolute path in normal form,
    the path read is the place of the scanned entry on disk if and only if
    the working directory is the scanned root. *)
Theorem paths_resolved_against_cwd (w : World) (o : Options)
    (cm : ContextManager) (tree : TreeNode) (pc : ProjectContext) :
  projectStructure cm = Some tree ->
  fst (generateProjectContext w o cm) = Ok pc ->
  (forall r, In r (findRelevantFiles (cwd w) o 0 tree) ->
     absolutePath r = Js.path_resolve (cwd w) (file_path r) /\
     exists d, FileAt d (file_path r) tree) /\
  (forall ctx, In ctx (relevantFiles pc) ->
     exists d p, FileAt d p tree /\
       path ctx = Js.path_resolve (cwd w) p /\
       contentOf w (fileCache cm) (Js.path_resolve (cwd w) p)
         = Some (content ctx)) /\
  (forall q c,
     fileCache (snd (generateProjectContext w o cm)) !! q = Some c ->
     fileCache cm !! q = Some c \/
     exists d p, FileAt d p tree /\ q = Js.path_resolve (cwd w) p /\
                 readFileSync w q = Some c) /\
  (forall projectRoot projectRoot' entries t t',
     scan projectRoot (Listing entries) = Ok t ->
     scan projectRoot' (Listing entries) = Ok t' ->
     findRelevantFiles (cwd w) o 0 t = findRelevantFiles (cwd w) o 0 t') /\
  (forall projectRoot names,
     normalised projectRoot -> names <> [] ->
     forallb plain_segment names = true ->
     Js.path_resolve (cwd w) (joinFrom "" names) = joinFrom projectRoot names
     <-> cwd w = projectRoot).
Proof.
  intros Htree Hok.
  assert (Hsel : forall r, In r (findRelevantFiles (cwd w) o 0 tree) ->
            absolutePath r = Js.path_resolve (cwd w) (file_path r) /\
            exists d, FileAt d (file_path r) tree).
  { intros r Hr.
    destruct (selected_from_leaf _ _ _ _ _ Hr) as (k & p & Hleaf & _ & _ & ->).
    destruct (leaves_FileAt _ _ _ _ Hleaf) as (j & _ & Hat).
    split; [reflexivity | by exists j]. }
  split; [exact Hsel|]. split; [|split; [|split]].
  - intros ctx Hin.
    destruct (files_selected w o cm tree pc Htree Hok ctx Hin)
      as ((Hc & _) & r & Hr & Hpath).
    destruct (Hsel r Hr) as (Habs & d & Hat).
    exists d, (file_path r). rewrite <- Habs, <- Hpath. by repeat split.
  - intros q c Hq.
    destruct (generateProjectContext_cache w o cm tree Htree) as [Hcache _].
    rewrite Hcache in Hq.
    destruct (readAll_new _ _ _ _ _ Hq) as [?|(Hin & _ & Hread)]; [by left|].
    right. apply in_map_iff in Hin as (r & <- & Hr).
    destruct (Hsel r Hr) as (Habs & d & Hat).
    exists d, (file_path r). by rewrite <- Habs.
  - intros projectRoot projectRoot' entries t t'.
    apply selection_ignores_root.
  - intros projectRoot names. apply read_path_is_location.
Qed.

(** With [/srv/app] scanned and the process running in [/home/me], the
    text returned for [a.js] is the text of [/home/me/a.js], and [b.js],
    which exists in the scanned project only, is dropped. *)
Example reads_below_working_directory :
  filesOf (fst (generateProjectContext elsewhere defaultOptions
                  scannedTwoFiles))
  = Some [ {| path := "/home/me/a.js"; content := "not the scanned file";
              extension := ".js"; lastModified := 11 |} ].
Proof. vm_compute. reflexivity. Qed.

Lemma paths_resolved_against_cwd_witness :
  (forall r,
     In r (findRelevantFiles (cwd elsewhere) defaultOptions 0
             (Directory "app" ""
                [File "a.js" "a.js" ".js"; File "b.js" "b.js" ".js"])) ->
     absolutePath r = Js.path_resolve (cwd elsewhere) (file_path r) /\
     exists d, FileAt d (file_path r)
                 (Directory "app" ""
                    [File "a.js" "a.js" ".js"; File "b.js" "b.js" ".js"])) /\
  (forall ctx,
     In ctx [ {| path := "/home/me/a.js"; content := "not the scanned file";
                 extension := ".js"; lastModified := 11 |} ] ->
     exists d p,
       FileAt d p (Directory "app" ""
                     [File "a.js" "a.js" ".js"; File "b.js" "b.js" ".js"]) /\
       path ctx = Js.path_resolve (cwd elsewhere) p /\
       contentOf elsewhere (fileCache scannedTwoFiles)
         (Js.path_resolve (cwd elsewhere) p) = Some (content ctx)) /\
  (forall q c,
     fileCache (snd (generateProjectContext elsewhere defaultOptions
                       scannedTwoFiles)) !! q = Some c ->
     fileCache scannedTwoFiles !! q = Some c \/
     exists d p,
       FileAt d p (Directory "app" ""
                     [File "a.js" "a.js" ".js"; File "b.js" "b.js" ".js"]) /\
       q = Js.path_resolve (cwd elsewhere) p /\
       readFileSync elsewhere q = Some c) /\
  (forall projectRoot projectRoot' entries t t',
     scan projectRoot (Listing entries) = Ok t ->
     scan projectRoot' (Listing entries) = Ok t' ->
     findRelevantFiles (cwd elsewhere) defaultOptions 0 t
     = findRelevantFiles (cwd elsewhere) defaultOptions 0 t') /\
  (forall projectRoot names,
     normalised projectRoot -> names <> [] ->
     forallb plain_segment names = true ->
     Js.path_resolve (cwd elsewhere) (joinFrom "" names)
       = joinFrom projectRoot names
     <-> cwd elsewhere = projectRoot).
Proof.
  apply (paths_resolved_against_cwd elsewhere defaultOptions scannedTwoFiles
           (Directory "app" ""
              [File "a.js" "a.js" ".js"; File "b.js" "b.js" ".js"])
           {| structure := Directory "app" ""
                [File "a.js" "a.js" ".js"; File "b.js" "b.js" ".js"];
              relevantFiles :=
                [ {| path := "/home/me/a.js";
                     content := "not the scanned file";
                     extension := ".js"; lastModified := 11 |} ] |}).
  - reflexivity.
  - vm_compute. reflexivity.
Defined.

(** ** Scenarios of the specification *)

(** Scenario 1: [src/a.ts], [src/b.txt] and [node_modules/c.js] under the
    root, default options: the tree holds [src/a.ts] alone and the selection
    is this file. *)
Example scenario1_scan :
  scan "/srv/app" (Listing scenario1)
  = Ok (Directory "app" ""
          [Directory "src" "src" [File "a.ts" "src/a.ts" ".ts"]]).
Proof. reflexivity. Qed.

Example scenario1_selection :
  map file_path
      (findRelevantFiles "/srv/app" defaultOptions 0
         (Directory "app" ""
            [Directory "src" "src" [File "a.ts" "src/a.ts" ".ts"]]))
  = ["src/a.ts"].
Proof. reflexivity. Qed.

(** Scenario 2: more qualifying files than [maxFiles]: the first
    [maxFiles] in traversal order are selected. *)
Example scenario2_cap :
  map file_path
      (findRelevantFiles "/srv/app"
         {| maxFiles := 2; maxDepth := 3;
            includePatterns := []; excludePatterns := [] |} 0
         (Directory "app" ""
            [File "1.js" "1.js" ".js";
             Directory "src" "src" [File "2.js" "src/2.js" ".js";
                                    File "3.js" "src/3.js" ".js"];
             File "4.js" "4.js" ".js"]))
  = ["1.js"; "src/2.js"].
Proof. reflexivity. Qed.

(** Scenario 3: the exclude pattern ["test"] removes [src/x.test.ts]. *)
Example scenario3_exclude :
  map file_path
      (findRelevantFiles "/srv/app"
         {| maxFiles := 10; maxDepth := 3;
            includePatterns := []; excludePatterns := [PString "test"] |} 0
         (Directory "app" ""
            [Directory "src" "src" [File "x.ts" "src/x.ts" ".ts";
                                    File "x.test.ts" "src/x.test.ts" ".ts"]]))
  = ["src/x.ts"].
Proof. reflexivity. Qed.

(** An upper-case extension is kept, lower-cased in the leaf; a directory
    that cannot be listed fails the scan unless it is pruned. *)
Example scan_upper_case_extension :
  scan "/srv/app" (Listing [FsFile "Main.TSX"; FsDenied ".cache"])
  = Ok (Directory "app" "" [File "Main.TSX" "Main.TSX" ".tsx"]).
Proof. reflexivity. Qed.

Example scan_denied :
  scan "/srv/app" (Listing [FsFile "a.js"; FsDenied "private"])
  = Throw (FsError "scandir" "/srv/app/private").
Proof. reflexivity. Qed.

(** A read that fails on a path absent from the cache never throws: the
    slot of the file is null. *)
Lemma read_failure_is_null (w : World) (p : string)
    (cache : gmap string string) :
  cache !! p = None -> readFileSync w p = None ->
  getFileContext w p cache = (Ok None, cache).
Proof.
  intros Hc Hr. unfold getFileContext, getFileContent. by rewrite Hc, Hr.
Qed.

(** ** Rendering *)

Lemma append_nil_r (s : string) : s ++ "" = s.
Proof. induction s as [|x s IH]; string_simpl; [done | by rewrite IH]. Qed.

Lemma concatAll_app (a b : list string) :
  concatAll (a ++ b) = concatAll a ++ concatAll b.
Proof.
  induction a as [|x a IH]; simpl; [done|]. by rewrite IH, append_assoc.
Qed.

Lemma forEachAppend_spec (f : TreeNode -> string) (children : list TreeNode) :
  forall result,
  forEachAppend f children result = result ++ concatAll (map f children).
Proof.
  induction children as [|c cs IH]; intros result; simpl.
  - by rewrite append_nil_r.
  - by rewrite IH, append_assoc.
Qed.

Lemma formatProjectStructure_dir (name rel : string) (children : list TreeNode)
    (depth : nat) :
  formatProjectStructure (Directory name rel children) depth
  = forEachAppend (fun child => formatProjectStructure child (S depth))
      children (renderLine (depth, Directory name rel children)).
Proof. reflexivity. Qed.

Lemma formatProjectStructure_file (name rel ext : string) (depth : nat) :
  formatProjectStructure (File name rel ext) depth
  = renderLine (depth, File name rel ext).
Proof. reflexivity. Qed.

(** The diagram is the lines of the nodes in pre-order. *)
Lemma formatProjectStructure_preorder (node : TreeNode) :
  forall depth,
  formatProjectStructure node depth
  = concatAll (map renderLine (preorder depth node)).
Proof.
  induction node as [name rel children IH|name rel ext]
    using TreeNode_nested_ind; intros depth.
  - rewrite formatProjectStructure_dir, forEachAppend_spec.
    cbn [preorder map concatAll]. f_equal.
    induction IH as [|c cs Hc _ IHcs]; [done|].
    cbn [map flat_map concatAll]. rewrite List.map_app, concatAll_app.
    by rewrite Hc, IHcs.
  - rewrite formatProjectStructure_file. cbn [preorder map concatAll].
    by rewrite append_nil_r.
Qed.

Lemma countChar_app (c : ascii) (a b : string) :
  countChar c (a ++ b) = countChar c a + countChar c b.
Proof.
  induction a as [|x a IH]; string_simpl; simpl; [done|]. rewrite IH. lia.
Qed.

Lemma countChar_indent (depth : nat) :
  countChar "010" (repeat_str "  " depth) = 0.
Proof.
  induction depth as [|n IH]; [done|].
  cbn [repeat_str]. by rewrite countChar_app, IH.
Qed.

Lemma countChar_renderLine (l : nat * TreeNode) :
  countChar "010" (node_name (snd l)) = 0 ->
  countChar "010" (renderLine l) = 1.
Proof.
  destruct l as [d [name rel children|name rel ext]]; unfold renderLine;
    cbn [fst snd node_name]; intros Hname;
    rewrite !countChar_app, countChar_indent, Hname; reflexivity.
Qed.

(** X1. The structure diagram is the concatenation, in pre-order, of one
    line per node: two spaces per level of depth, the directory or file
    glyph, the name (followed by a slash for a directory) and a line feed.
    When no name holds a line feed, the diagram has as many lines as the
    tree has nodes. *)
Theorem diagram_one_line_per_node (node : TreeNode) (depth : nat) :
  Forall (fun l => countChar "010" (node_name (snd l)) = 0)
         (preorder depth node) ->
  formatProjectStructure node depth
    = concatAll (map renderLine (preorder depth node)) /\
  countChar "010" (formatProjectStructure node depth)
    = length (preorder depth node).
Proof.
  intros Hnames. rewrite formatProjectStructure_preorder. split; [done|].
  induction Hnames as [|l ls Hl _ IH]; [done|].
  cbn [map concatAll length].
  by rewrite countChar_app, (countChar_renderLine l Hl), IH.
Qed.

Lemma diagram_one_line_per_node_witness :
  formatProjectStructure nestedTree 0
    = concatAll (map renderLine (preorder 0 nestedTree)) /\
  countChar "010" (formatProjectStructure nestedTree 0)
    = length (preorder 0 nestedTree).
Proof.
  apply (diagram_one_line_per_node nestedTree 0).
  repeat constructor.
Defined.

Lemma appendFiles_spec (files : list FileContext) :
  forall contextBlock,
  appendFiles files contextBlock
  = contextBlock ++ concatAll (map fileBlock files).
Proof.
  induction files as [|f fs IH]; intros contextBlock; simpl.
  - by rewrite append_nil_r.
  - rewrite IH. unfold fileBlock. by rewrite !append_assoc.
Qed.

Lemma concatAll_In (x : string) (l : list string) :
  In x l -> exists a b, concatAll l = a ++ x ++ b.
Proof.
  induction l as [|y l IH]; intros Hin; [destruct Hin|].
  destruct Hin as [->|Hin].
  - exists "", (concatAll l). reflexivity.
  - destruct (IH Hin) as (a & b & Hab). exists (y ++ a), b.
    simpl. by rewrite Hab, append_assoc.
Qed.

(** The prompt in closed form. *)
Lemma enhancePromptWithContext_spec (prompt : string)
    (context : ProjectContext) :
  enhancePromptWithContext prompt context
  = ("PROJECT CONTEXT:" ++ String "010" (String "010" "")
       ++ "Project Structure:" ++ String "010" "")
    ++ formatProjectStructure (structure context) 0
    ++ (String "010" (String "010" "") ++ "Relevant Files:"
          ++ String "010" (String "010" ""))
    ++ concatAll (map fileBlock (relevantFiles context))
    ++ (String "010" (String "010" "") ++ "USER QUERY:" ++ String "010" "")
    ++ prompt.
Proof.
  unfold enhancePromptWithContext. rewrite appendFiles_spec.
  rewrite !append_assoc. reflexivity.
Qed.

(** X2. The enhanced prompt ends with the user's prompt after the
    [USER QUERY:] header, begins with the [PROJECT CONTEXT:] header and the
    structure diagram, and holds, for every file of the context, the block
    made of the header line with the file's path (the resolved absolute
    path), the whole content and a blank line. *)
Theorem enhanced_prompt_holds_query_and_files (prompt : string)
    (context : ProjectContext) :
  endsWith (enhancePromptWithContext prompt context)
           ((String "010" (String "010" "") ++ "USER QUERY:" ++ String "010" "")
              ++ prompt) /\
  Js.startsWith (enhancePromptWithContext prompt context)
                (("PROJECT CONTEXT:" ++ String "010" (String "010" "")
                    ++ "Project Structure:" ++ String "010" "")
                   ++ formatProjectStructure (structure context) 0) = true /\
  (forall file, In file (relevantFiles context) ->
     Js.includes (enhancePromptWithContext prompt context)
       ("--- FILE: " ++ path file ++ " ---" ++ String "010" ""
          ++ content file ++ String "010" (String "010" "")) = true).
Proof.
  rewrite enhancePromptWithContext_spec.
  set (head := "PROJECT CONTEXT:" ++ String "010" (String "010" "")
                 ++ "Project Structure:" ++ String "010" "").
  set (diagram := formatProjectStructure (structure context) 0).
  set (mid := String "010" (String "010" "") ++ "Relevant Files:"
                ++ String "010" (String "010" "")).
  set (blocks := concatAll (map fileBlock (relevantFiles context))).
  set (tail := String "010" (String "010" "") ++ "USER QUERY:"
                 ++ String "010" "").
  split; [|split].
  - exists (head ++ diagram ++ mid ++ blocks).
    by rewrite !append_assoc.
  - apply startsWith_spec. exists (mid ++ blocks ++ tail ++ prompt).
    by rewrite !append_assoc.
  - intros file Hin. apply includes_spec.
    destruct (concatAll_In (fileBlock file)
                (map fileBlock (relevantFiles context))) as (a & b & Hab).
    { by apply in_map. }
    fold blocks in Hab. rewrite Hab.
    exists (head ++ diagram ++ mid ++ a), (b ++ tail ++ prompt).
    fold (fileBlock file). by rewrite !append_assoc.
Qed.

(** X6. The content preview of the [/context] resource, counted in UTF-16
    code units as [substring] and [length] count: it is the content itself
    when the content has at most 200 code units, and otherwise its first 200
    code units followed by three full stops; it is never longer than 203
    code units and always begins with a prefix of the content. *)
Theorem content_preview_bounded (content : CodeUnits) :
  (length content <= 200 -> contentPreview content = content) /\
  (200 < length content ->
     contentPreview content = (take 200 content ++ [46; 46; 46]%N)%list /\
     length (contentPreview content) = 203) /\
  length (contentPreview content) <= 203 /\
  (exists rest, content = (take 200 content ++ rest)%list) /\
  (exists rest, contentPreview content = (take 200 content ++ rest)%list).
Proof.
  unfold contentPreview.
  split; [|split; [|split; [|split]]].
  - intros Hshort.
    replace (200 <? length content)%nat with false
      by (symmetry; apply Nat.ltb_ge; lia).
    rewrite app_nil_r. by apply take_ge.
  - intros Hlong.
    replace (200 <? length content)%nat with true
      by (symmetry; apply Nat.ltb_lt; lia).
    split; [done|]. rewrite length_app, length_take. cbn [length]. lia.
  - rewrite length_app, length_take.
    destruct (200 <? length content)%nat; cbn [length]; lia.
  - exists (drop 200 content). by rewrite take_drop.
  - by eexists.
Qed.

(** 150 times the letter e with an acute accent, one code unit each, two
    bytes each in UTF-8: the preview is the content. *)
Example content_preview_accents :
  contentPreview (replicate 150 233%N) = replicate 150 233%N.
Proof. vm_compute. reflexivity. Qed.

(** ** Numbers, patterns and working directory in general *)

Lemma ge_ofNat (n m : nat) : General.ge n (General.ofNat m) = (m <=? n)%nat.
Proof.
  unfold General.ge, General.ofNat, QArith_base.Qle_bool, QArith_base.inject_Z.
  cbn [QArith_base.Qnum QArith_base.Qden].
  rewrite !Z.mul_1_r.
  destruct (Nat.leb_spec m n), (Z.leb_spec (Z.of_nat m) (Z.of_nat n));
    try reflexivity; lia.
Qed.

Lemma gt_ofNat (n m : nat) : General.gt n (General.ofNat m) = (m <? n)%nat.
Proof.
  unfold General.gt, General.ofNat, QArith_base.Qle_bool, QArith_base.inject_Z.
  cbn [QArith_base.Qnum QArith_base.Qden].
  rewrite !Z.mul_1_r.
  destruct (Nat.ltb_spec m n), (Z.leb_spec (Z.of_nat n) (Z.of_nat m));
    try reflexivity; lia.
Qed.

Lemma truncate_ofZ (z : Z) : General.truncate (QArith_base.inject_Z z) = z.
Proof. unfold General.truncate. simpl. apply Z.quot_1_r. Qed.

Lemma slice_ofNat {A} (l : list A) (m : nat) :
  General.slice l (General.ofNat m) = take m l.
Proof.
  unfold General.slice, General.ofNat. rewrite truncate_ofZ.
  destruct (Z.ltb_spec (Z.of_nat m) 0); [lia|]. by rewrite Nat2Z.id.
Qed.

(** A cap that lets the loop run keeps at most [capOf] elements. *)
Lemma slice_length_le {A} (l : list A) (x : General.Number) (n k : nat) :
  General.ge n x = false -> capOf x = Some k ->
  length (General.slice l x) <= k.
Proof.
  destruct x as [|negative|q]; simpl.
  - intros _ [= <-]. simpl. lia.
  - intros ->. discriminate.
  - intros Hge [= <-].
    assert (Hpos : (0 <= General.truncate q)%Z).
    { unfold QArith_base.Qle_bool, QArith_base.inject_Z in Hge.
      cbn [QArith_base.Qnum QArith_base.Qden] in Hge.
      apply Z.leb_gt in Hge. unfold General.truncate.
      apply Z.quot_pos; lia. }
    destruct (Z.ltb_spec (General.truncate q) 0); [lia|].
    rewrite length_take. lia.
Qed.

(** A cap that stops the loop at once lets nothing through. *)
Lemma capOf_stops (x : General.Number) (n k : nat) :
  General.ge 0 x = false -> capOf x = Some k -> General.ge n x = true ->
  n <> 0.
Proof. intros H _ Hn ->. congruence. Qed.

Lemma matchesPattern_plain (object : nat) (filePath : string)
    (pattern : Pattern) (heap : gmap nat nat) :
  General.matchesPattern filePath (plainPattern object pattern) heap
  = (matchesPattern filePath pattern, heap).
Proof.
  destruct pattern as [s|test|]; try reflexivity.
  unfold plainPattern, General.matchesPattern, General.test.
  cbn [General.keepsLastIndex General.search matchesPattern].
  by destruct (test filePath).
Qed.

Lemma some_plain (object : nat) (filePath : string) (patterns : list Pattern)
    (heap : gmap nat nat) :
  General.some filePath (map (plainPattern object) patterns) heap
  = (existsb (matchesPattern filePath) patterns, heap).
Proof.
  induction patterns as [|pattern rest IH]; [reflexivity|].
  cbn [map General.some existsb]. rewrite matchesPattern_plain.
  destruct (matchesPattern filePath pattern); [reflexivity | exact IH].
Qed.

Lemma General_forChildren_plain (limit : nat)
    (visit : TreeNode -> list RelevantFile)
    (visit' : TreeNode -> gmap nat nat
              -> result (list RelevantFile) * gmap nat nat)
    (children : list TreeNode) :
  Forall (fun child => forall heap, visit' child heap = (Ok (visit child), heap))
         children ->
  forall results heap,
  General.forChildren (General.ofNat limit) visit' children results heap
  = (Ok (forChildren limit visit children results), heap).
Proof.
  induction 1 as [|child rest Hchild _ IH]; intros results heap; [reflexivity|].
  cbn [General.forChildren forChildren]. rewrite ge_ofNat.
  destruct (limit <=? length results)%nat; [reflexivity|].
  rewrite Hchild, slice_ofNat. apply IH.
Qed.

(** On natural numbers, stateless patterns and a working directory that
    exists, the general traversal is [findRelevantFiles] and leaves the heap
    as it is. *)
Lemma General_findRelevantFiles_plain (cwd : string) (object : nat)
    (o : Options) (node : TreeNode) :
  forall d heap,
  General.findRelevantFiles (Ok cwd) (General.destructure (plainOptions object o))
    d node heap
  = (Ok (findRelevantFiles cwd o d node), heap).
Proof.
  induction node as [name path children IH|name path ext]
    using TreeNode_nested_ind; intros d heap.
  - rewrite findRelevantFiles_dir. cbn [General.findRelevantFiles].
    change (General.maxDepth (General.destructure (plainOptions object o)))
      with (General.ofNat (maxDepth o)).
    change (General.maxFiles (General.destructure (plainOptions object o)))
      with (General.ofNat (maxFiles o)).
    rewrite gt_ofNat. destruct (maxDepth o <? d)%nat; [reflexivity|].
    apply General_forChildren_plain.
    eapply Forall_impl; [exact IH|]. intros child Hchild heap'. apply Hchild.
  - rewrite findRelevantFiles_file. cbn [General.findRelevantFiles].
    change (General.maxDepth (General.destructure (plainOptions object o)))
      with (General.ofNat (maxDepth o)).
    change (General.includePatterns
              (General.destructure (plainOptions object o)))
      with (map (plainPattern object) (includePatterns o)).
    change (General.excludePatterns
              (General.destructure (plainOptions object o)))
      with (map (plainPattern object) (excludePatterns o)).
    rewrite gt_ofNat. destruct (maxDepth o <? d)%nat; [reflexivity|].
    rewrite length_map.
    unfold candidate, matchesInclude, matchesExclude.
    destruct (length (includePatterns o) =? 0)%nat; cbn [orb];
      rewrite ?some_plain; cbn beta iota; rewrite ?some_plain; cbn beta iota;
      destruct (existsb (matchesPattern path) (includePatterns o));
      destruct (existsb (matchesPattern path) (excludePatterns o));
      cbn [andb negb]; try reflexivity;
      unfold General.resolve, relevantFile, Js.path_resolve;
      destruct (Js.startsWith path "/"); reflexivity.
Qed.

Lemma General_generateProjectContext_plain (w : World) (object : nat)
    (o : Options) (cm : ContextManager) (heap : gmap nat nat) :
  General.generateProjectContext (hostOf w) (plainOptions object o) cm heap
  = (fst (generateProjectContext w o cm),
     (snd (generateProjectContext w o cm), heap)).
Proof.
  unfold General.generateProjectContext, generateProjectContext.
  destruct (projectStructure cm) as [tree|]; [|reflexivity].
  change (General.processCwd (hostOf w)) with (Ok (A:=string) (cwd w)).
  rewrite General_findRelevantFiles_plain.
  change (General.world (hostOf w)) with w.
  by destruct (readAll w _ (fileCache cm)).
Qed.

Lemma contexts_throw (w : World) (cache : gmap string string)
    (paths : list string) (e : JsError) :
  promiseAll (contextsOf w cache paths) = Throw e ->
  exists p, e = FsError "stat" p /\ In p paths /\
            falsy (contentOf w cache p) = false /\ statSync w p = None.
Proof.
  induction paths as [|p rest IH]; intros H; [discriminate|].
  unfold contextsOf in H. cbn [map promiseAll] in H.
  destruct (fileContextOf w p (contentOf w cache p)) as [o|e'] eqn:Hp.
  - cbn [bind] in H.
    destruct (promiseAll (map _ rest)) as [more|e''] eqn:Hrest; [discriminate|].
    cbn [bind] in H. injection H as <-.
    destruct (IH Hrest) as (q & -> & Hq & Hc & Hs).
    exists q. repeat split; try done. by right.
  - cbn [bind] in H. injection H as <-.
    unfold fileContextOf in Hp.
    destruct (contentOf w cache p) as [[|x s]|] eqn:Hc; try discriminate.
    destruct (statSync w p) eqn:Hs; [discriminate|].
    injection Hp as <-. exists p. repeat split; try done; [by left|].
    by rewrite Hc.
Qed.

Lemma General_findRelevantFiles_dir (workdir : result string)
    (o : General.Options) (d : nat) (name path : string)
    (children : list TreeNode) (heap : gmap nat nat) :
  General.findRelevantFiles workdir o d (Directory name path children) heap
  = if General.gt d (General.maxDepth o) then (Ok [], heap)
    else General.forChildren (General.maxFiles o)
           (General.findRelevantFiles workdir o (S d)) children [] heap.
Proof. reflexivity. Qed.

Lemma General_forChildren_throw (limit : General.Number)
    (visit : TreeNode -> gmap nat nat
             -> result (list RelevantFile) * gmap nat nat)
    (children : list TreeNode) :
  forall results heap e,
  fst (General.forChildren limit visit children results heap) = Throw e ->
  exists child heap', In child children /\ fst (visit child heap') = Throw e.
Proof.
  induction children as [|child rest IH]; intros results heap e H;
    [discriminate|].
  cbn [General.forChildren] in H.
  destruct (General.ge (length results) limit); [discriminate|].
  destruct (visit child heap) as [[childResults|e'] heap1] eqn:Hvisit.
  - destruct (IH _ _ _ H) as (c & heap' & Hin & Hc).
    exists c, heap'. split; [by right | done].
  - cbn [fst] in H. injection H as <-. exists child, heap.
    split; [by left | by rewrite Hvisit].
Qed.

(** The traversal throws nothing but what [process.cwd()] throws. *)
Lemma General_findRelevantFiles_throw (workdir : result string)
    (o : General.Options) (node : TreeNode) :
  forall d heap e,
  fst (General.findRelevantFiles workdir o d node heap) = Throw e ->
  workdir = Throw e.
Proof.
  induction node as [name path children IH|name path ext]
    using TreeNode_nested_ind; intros d heap e H.
  - rewrite General_findRelevantFiles_dir in H.
    destruct (General.gt d (General.maxDepth o)); [discriminate|].
    apply General_forChildren_throw in H as (child & heap' & Hin & Hc).
    rewrite List.Forall_forall in IH. exact (IH child Hin _ _ _ Hc).
  - cbn [General.findRelevantFiles] in H.
    destruct (General.gt d (General.maxDepth o)); [discriminate|].
    destruct (if (length (General.includePatterns o) =? 0)%nat
              then (true, heap)
              else General.some path (General.includePatterns o) heap)
      as [matchesInclude heap1].
    destruct (General.some path (General.excludePatterns o) heap1)
      as [matchesExclude heap2].
    destruct (matchesInclude && negb matchesExclude); [|discriminate].
    cbn [fst] in H. unfold General.resolve in H.
    destruct (Js.startsWith path "/"); [discriminate|].
    destruct workdir as [cwd|e']; [discriminate|].
    cbn [bind] in H. by injection H as <-.
Qed.

Lemma processCwd_throw (h : General.Host) (e : JsError) :
  General.processCwd h = Throw e ->
  e = FsError "uv_cwd" "" /\ General.cwdThrows h = true.
Proof.
  unfold General.processCwd. destruct (General.cwdThrows h); [|discriminate].
  by intros [= <-].
Qed.

Lemma General_forChildren_length (limit : General.Number)
    (visit : TreeNode -> gmap nat nat
             -> result (list RelevantFile) * gmap nat nat)
    (children : list TreeNode) (k : nat) :
  capOf limit = Some k ->
  forall results heap selected,
  length results <= k ->
  fst (General.forChildren limit visit children results heap) = Ok selected ->
  length selected <= k.
Proof.
  intros Hcap.
  induction children as [|child rest IH]; intros results heap selected Hlen H.
  - cbn in H. by injection H as <-.
  - cbn [General.forChildren] in H.
    destruct (General.ge (length results) limit) eqn:Hge.
    + cbn in H. by injection H as <-.
    + destruct (visit child heap) as [[childResults|e'] heap1]; [|discriminate].
      apply IH in H; [done|].
      by apply (slice_length_le _ _ (length results)).
Qed.

(** On a directory the selection holds at most [capOf maxFiles] files. *)
Lemma General_findRelevantFiles_length (workdir : result string)
    (o : General.Options) (d k : nat) (name path : string)
    (children : list TreeNode) (heap : gmap nat nat)
    (selected : list RelevantFile) :
  capOf (General.maxFiles o) = Some k ->
  fst (General.findRelevantFiles workdir o d (Directory name path children)
         heap) = Ok selected ->
  length selected <= k.
Proof.
  intros Hcap H. rewrite General_findRelevantFiles_dir in H.
  destruct (General.gt d (General.maxDepth o)).
  - cbn in H. injection H as <-. simpl. lia.
  - apply (General_forChildren_length _ _ _ k Hcap) in H; [done|]. simpl. lia.
Qed.

Lemma General_generateProjectContext_scanned (h : General.Host)
    (options : General.OptionsArg) (cm : ContextManager) (heap : gmap nat nat)
    (tree : TreeNode) :
  projectStructure cm = Some tree ->
  General.generateProjectContext h options cm heap
  = match General.findRelevantFiles (General.processCwd h)
            (General.destructure options) 0 tree heap with
    | (Throw e, heap1) => (Throw e, (cm, heap1))
    | (Ok relevant, heap1) =>
        (fileContexts <-
           promiseAll (contextsOf (General.world h) (fileCache cm)
                         (map absolutePath relevant)) ;;
         Ok {| structure := tree;
               relevantFiles := filterNotNull fileContexts |},
         ({| fileCache :=
               snd (readAll (General.world h) (map absolutePath relevant)
                      (fileCache cm));
             projectStructure := Some tree |}, heap1))
    end.
Proof.
  intros Htree. unfold General.generateProjectContext. rewrite Htree.
  destruct (General.findRelevantFiles _ _ 0 tree heap)
    as [[relevant|e] heap1]; [|reflexivity].
  pose proof (readAll_fst (General.world h) (map absolutePath relevant)
                (fileCache cm)) as Hfst.
  destruct (readAll (General.world h) _ (fileCache cm)) as [contents cache'].
  simpl in Hfst. subst contents. simpl snd.
  by rewrite zip_with_map_r.
Qed.

(** What a general call on a manager that holds a directory tree gives. *)
Lemma General_generateProjectContext_outcome (h : General.Host)
    (options : General.OptionsArg) (cm : ContextManager) (heap : gmap nat nat)
    (name rel : string) (children : list TreeNode) :
  projectStructure cm = Some (Directory name rel children) ->
  projectStructure
    (fst (snd (General.generateProjectContext h options cm heap)))
    = Some (Directory name rel children) /\
  (forall pc k,
     fst (General.generateProjectContext h options cm heap) = Ok pc ->
     capOf (General.maxFiles (General.destructure options)) = Some k ->
     length (relevantFiles pc) <= k) /\
  (forall e,
     fst (General.generateProjectContext h options cm heap) = Throw e ->
     (e = FsError "uv_cwd" "" /\ General.cwdThrows h = true) \/
     exists p, e = FsError "stat" p).
Proof.
  intros Htree.
  rewrite (General_generateProjectContext_scanned h options cm heap _ Htree).
  destruct (General.findRelevantFiles _ _ 0 _ heap) as [[relevant|e] heap1]
    eqn:Htraversal.
  - cbn [fst snd projectStructure]. split; [done|]. split.
    + intros pc k H Hcap.
      destruct (promiseAll _) as [ctxs|e'] eqn:Hall; [|discriminate].
      cbn [bind] in H. injection H as <-. cbn [relevantFiles].
      apply contexts_files in Hall as [Hpaths _].
      apply (f_equal (@length string)) in Hpaths.
      rewrite length_map in Hpaths. rewrite Hpaths.
      etransitivity; [apply List.filter_length_le|]. rewrite length_map.
      eapply General_findRelevantFiles_length; [exact Hcap|].
      by rewrite Htraversal.
    + intros e H.
      destruct (promiseAll _) as [ctxs|e'] eqn:Hall; [discriminate|].
      cbn [bind] in H. injection H as <-.
      apply contexts_throw in Hall as (p & -> & _). right. by exists p.
  - cbn [fst snd]. split; [done|]. split; [discriminate|].
    intros e' [= <-]. left. apply processCwd_throw.
    eapply General_findRelevantFiles_throw. by rewrite Htraversal.
Qed.

(** ** Failures of a call *)



(** The working directory of the process has been removed: the first
    candidate the traversal meets makes the call throw the error of
    [process.cwd()], and nothing is read. *)
Example call_without_working_directory :
  General.generateProjectContext
    {| General.world := bothOnDisk; General.cwdThrows := true |}
    (plainOptions 0 defaultOptions) scannedTwoFiles ∅
  = (Throw (FsError "uv_cwd" ""), (scannedTwoFiles, ∅)).
Proof. vm_compute. reflexivity. Qed.

(** ** Failures of a scan *)

Lemma forEntries_ok_iff (body : FsEntry -> result (option TreeNode))
    (entries : list FsEntry) :
  (exists children, forEntries body entries = Ok children) <->
  Forall (fun e => exists o, body e = Ok o) entries.
Proof.
  split; [|apply forEntries_total].
  induction entries as [|e es IH]; intros [children H]; [constructor|].
  simpl in H. destruct (body e) as [o|] eqn:He; [|discriminate].
  cbn [bind] in H.
  destruct (forEntries body es) as [more|] eqn:Hes; [|discriminate].
  constructor; [by exists o | apply IH; by exists more].
Qed.

Lemma forEntries_throw (body : FsEntry -> result (option TreeNode))
    (entries : list FsEntry) (err : JsError) :
  forEntries body entries = Throw err ->
  exists e, In e entries /\ body e = Throw err.
Proof.
  induction entries as [|e es IH]; intros H; [discriminate|].
  simpl in H. destruct (body e) as [o|err'] eqn:He.
  - cbn [bind] in H.
    destruct (forEntries body es) as [more|err''] eqn:Hes; [discriminate|].
    cbn [bind] in H. injection H as <-.
    destruct (IH eq_refl) as (e' & Hin & Hb). exists e'. split; [by right|done].
  - cbn [bind] in H. injection H as <-. exists e. split; [by left | done].
Qed.

Lemma scanEntry_ok_iff (e : FsEntry) :
  forall dir rel,
  (exists o, scanEntry dir rel e = Ok o) <-> scannable e = true.
Proof.
  induction e as [name|name sub IH|name] using FsEntry_nested_ind;
    intros dir rel;
    rewrite ?scanEntry_file, ?scanEntry_dir, ?scanEntry_denied;
    cbn [scannable entry_name]; destruct (skipped name); cbn [orb].
  - split; [done | by exists None].
  - split; [done|]. intros _. destruct (includes_str _ _); by eexists.
  - split; [done | by exists None].
  - rewrite forallb_forall. rewrite List.Forall_forall in IH. split.
    + intros [o H] e He.
      destruct (forEntries _ sub) as [children|] eqn:Hsub; [|discriminate].
      apply (IH e He (Js.path_join dir name) (Js.path_join rel name)).
      assert (Hex : exists cs, forEntries
                (scanEntry (Js.path_join dir name) (Js.path_join rel name)) sub
                = Ok cs) by (by exists children).
      apply forEntries_ok_iff in Hex. rewrite List.Forall_forall in Hex.
      by apply Hex.
    + intros Hall.
      destruct (forEntries_total
                  (scanEntry (Js.path_join dir name) (Js.path_join rel name))
                  sub) as [children ->].
      * apply List.Forall_forall. intros e He. apply IH; [done | by apply Hall].
      * cbn [bind]. by eexists.
  - split; [done | by exists None].
  - split; [by intros [o H] | done].
Qed.

Lemma scanEntry_throw (e : FsEntry) :
  forall dir rel err,
  scanEntry dir rel e = Throw err -> exists p, err = FsError "scandir" p.
Proof.
  induction e as [name|name sub IH|name] using FsEntry_nested_ind;
    intros dir rel err;
    rewrite ?scanEntry_file, ?scanEntry_dir, ?scanEntry_denied;
    destruct (skipped name); try discriminate.
  - by destruct (includes_str _ _).
  - intros H.
    destruct (forEntries _ sub) as [children|err'] eqn:Hsub; [discriminate|].
    cbn [bind] in H. injection H as <-.
    apply forEntries_throw in Hsub as (e & He & Hb).
    rewrite List.Forall_forall in IH. by apply (IH e He _ _ _ Hb).
  - intros [= <-]. by eexists.
Qed.

(** X8. A scan of a directory that can be listed returns a tree exactly
    when every directory it enters can be listed; a directory that cannot
    be listed does no harm when it, or a directory above it, is pruned.
    Every exception of a scan is the one of a failed directory listing; at a
    root that is missing, is not a directory or cannot be listed, the
    exception is the one of listing the root itself. *)
Theorem scan_returns_iff_listable (projectRoot : string)
    (entries : list FsEntry) :
  ((exists tree, scan projectRoot (Listing entries) = Ok tree) <->
   forallb scannable entries = true) /\
  (forall root err, scan projectRoot root = Throw err ->
     exists p, err = FsError "scandir" p) /\
  scan projectRoot NoSuchDirectory = Throw (FsError "scandir" projectRoot) /\
  scan projectRoot NotADirectory = Throw (FsError "scandir" projectRoot) /\
  scan projectRoot ListingDenied = Throw (FsError "scandir" projectRoot).
Proof.
  split; [|split; [|by repeat split]].
  - unfold scan, buildProjectStructure. cbn [readdirSync bind].
    rewrite forallb_forall. split.
    + intros [tree H] e He.
      destruct (forEntries (scanEntry projectRoot "") entries)
        as [children|] eqn:Hloop; [|discriminate].
      assert (Hex : exists cs, forEntries (scanEntry projectRoot "") entries
                               = Ok cs) by (by exists children).
      apply forEntries_ok_iff in Hex. rewrite List.Forall_forall in Hex.
      by apply (scanEntry_ok_iff e projectRoot ""), Hex.
    + intros Hall.
      destruct (forEntries_total (scanEntry projectRoot "") entries)
        as [children ->].
      * apply List.Forall_forall. intros e He.
        by apply scanEntry_ok_iff, Hall.
      * cbn [bind]. by eexists.
  - intros root err H. unfold scan in H.
    destruct root as [es| | |]; cbn [readdirSync bind] in H;
      try (injection H as <-; by eexists).
    unfold buildProjectStructure in H.
    destruct (forEntries (scanEntry projectRoot "") es) as [children|err']
      eqn:Hloop; [discriminate|].
    cbn [bind] in H. injection H as <-.
    apply forEntries_throw in Hloop as (e & _ & Hb).
    by apply scanEntry_throw in Hb.
Qed.

Example scan_denied_below_pruned :
  scan "/srv/app"
       (Listing [FsDir "node_modules" [FsDenied "locked"]; FsFile "a.js"])
  = Ok (Directory "app" "" [File "a.js" "a.js" ".js"]).
Proof. reflexivity. Qed.

(** ** The add-context tool *)

Lemma scan_root_directory (projectRoot : string) (root : RootListing)
    (tree : TreeNode) :
  scan projectRoot root = Ok tree ->
  exists children, tree = Directory (Js.basename projectRoot) "" children.
Proof.
  unfold scan, buildProjectStructure.
  destruct (readdirSync projectRoot root) as [entries|]; [|discriminate].
  cbn [bind].
  destruct (forEntries _ entries) as [children|]; [|discriminate].
  intros [= <-]. by exists children.
Qed.

Lemma scan_throw (projectRoot : string) (root : RootListing) (err : JsError) :
  scan projectRoot root = Throw err -> exists p, err = FsError "scandir" p.
Proof.
  intros H. unfold scan in H.
  destruct root as [es| | |]; cbn [readdirSync bind] in H;
    try (injection H as <-; by eexists).
  unfold buildProjectStructure in H.
  destruct (forEntries (scanEntry projectRoot "") es) as [children|err']
    eqn:Hloop; [discriminate|].
  cbn [bind] in H. injection H as <-.
  apply forEntries_throw in Hloop as (e & _ & Hb).
  by apply scanEntry_throw in Hb.
Qed.

(** The handler on a manager that has scanned: no scan, one call. *)
Lemma addContext_scanned (fsMessage : string -> string -> string)
    (jsonLength : ProjectContext -> nat) (w : World)
    (disk : string -> RootListing) (params : Params) (prompt : string)
    (cm : ContextManager) (tree : TreeNode) :
  projectStructure cm = Some tree ->
  addContext fsMessage jsonLength w disk params prompt cm
  = (match fst (generateProjectContext w (handlerOptions params) cm) with
     | Throw error =>
         Throw (ErrorMsg ("Failed to add context: "
                            ++ messageOf fsMessage error))
     | Ok context =>
         Ok {| enhancedPrompt := enhancePromptWithContext prompt context;
               contextAdded := true;
               filesIncluded := length (relevantFiles context);
               contextSize := jsonLength context |}
     end,
     snd (generateProjectContext w (handlerOptions params) cm)).
Proof.
  intros Htree. unfold addContext. rewrite Htree. fold (handlerOptions params).
  destruct (generateProjectContext w (handlerOptions params) cm) as [[pc|e] cm2];
    reflexivity.
Qed.

(** The handler on a manager that has not scanned. *)
Lemma addContext_unscanned (fsMessage : string -> string -> string)
    (jsonLength : ProjectContext -> nat) (w : World)
    (disk : string -> RootListing) (params : Params) (prompt : string)
    (cm : ContextManager) :
  projectStructure cm = None ->
  let projectRoot := orString (param_projectRoot params) (cwd w) in
  addContext fsMessage jsonLength w disk params prompt cm
  = match scan projectRoot (disk projectRoot) with
    | Throw error =>
        (Throw (ErrorMsg ("Failed to add context: "
                            ++ messageOf fsMessage error)), cm)
    | Ok tree =>
        addContext fsMessage jsonLength w disk params prompt
          {| fileCache := fileCache cm; projectStructure := Some tree |}
    end.
Proof.
  intros Hnone projectRoot. unfold addContext. rewrite Hnone.
  fold projectRoot. unfold scanProject.
  destruct (scan projectRoot (disk projectRoot)) as [tree|e]; reflexivity.
Qed.

(** X4. The tool scans once.  On a manager that holds a tree, the
    [projectRoot] parameter and the state of the directory it names play no
    part: the result is the one of [generateProjectContext] on the stored
    tree, and the stored tree stays.  On a manager that holds no tree and
    whose scan succeeds, the scanned tree is stored whether or not the rest
    of the call succeeds. *)
Theorem add_context_scans_once (fsMessage : string -> string -> string)
    (jsonLength : ProjectContext -> nat) (w : World)
    (disk disk' : string -> RootListing) (prompt : string)
    (cm : ContextManager) (root root' : option string)
    (files depth : option nat) (incl excl : option (list Pattern)) :
  let params r :=
    {| param_projectRoot := r; param_maxFiles := files;
       param_maxDepth := depth; param_includePatterns := incl;
       param_excludePatterns := excl |} in
  (forall tree, projectStructure cm = Some tree ->
     addContext fsMessage jsonLength w disk (params root) prompt cm
       = addContext fsMessage jsonLength w disk' (params root') prompt cm /\
     projectStructure
       (snd (addContext fsMessage jsonLength w disk (params root) prompt cm))
       = Some tree) /\
  (forall tree, projectStructure cm = None ->
     scan (orString root (cwd w)) (disk (orString root (cwd w))) = Ok tree ->
     projectStructure
       (snd (addContext fsMessage jsonLength w disk (params root) prompt cm))
       = Some tree).
Proof.
  intros params. split.
  - intros tree Htree.
    rewrite !(addContext_scanned _ _ _ _ _ _ _ tree Htree).
    split; [reflexivity|]. cbn [snd].
    by destruct (generateProjectContext_cache w (handlerOptions (params root))
                   cm tree Htree).
  - intros tree Hnone Hscan.
    rewrite (addContext_unscanned _ _ _ _ _ _ _ Hnone).
    cbn [param_projectRoot params]. rewrite Hscan.
    rewrite (addContext_scanned fsMessage jsonLength w disk (params root)
               prompt {| fileCache := fileCache cm;
                         projectStructure := Some tree |} tree eq_refl).
    cbn [snd].
    by destruct (generateProjectContext_cache w (handlerOptions (params root))
                   {| fileCache := fileCache cm;
                      projectStructure := Some tree |} tree eq_refl).
Qed.

Lemma enhancePromptWithContext_endsWith (prompt : string)
    (context : ProjectContext) :
  endsWith (enhancePromptWithContext prompt context) prompt.
Proof.
  rewrite enhancePromptWithContext_spec. eexists.
  rewrite <- !append_assoc. reflexivity.
Qed.

Lemma General_handlerOptions_plain (object : nat) (params : Params) :
  General.handlerOptions (plainParams object params)
  = plainOptions object (handlerOptions params).
Proof.
  destruct params as [root files depth incl excl].
  unfold General.handlerOptions, plainOptions, plainParams, handlerOptions.
  cbn [General.param_maxFiles General.param_maxDepth
       General.param_includePatterns General.param_excludePatterns
       param_maxFiles param_maxDepth param_includePatterns
       param_excludePatterns maxFiles maxDepth includePatterns
       excludePatterns].
  f_equal.
  - by destruct files as [[|n]|].
  - by destruct depth as [[|n]|].
  - by destruct incl.
  - by destruct excl.
Qed.

(** On a request of the first kind that has a body, sent to a process
    whose working directory exists, the general handler is [addContext]. *)
Lemma General_addContext_plain (fsMessage : string -> string -> string)
    (jsonLength : ProjectContext -> nat) (noBody : string) (w : World)
    (disk : string -> RootListing) (object : nat) (params : Params)
    (prompt : string) (cm : ContextManager) (heap : gmap nat nat) :
  General.addContext fsMessage jsonLength noBody (hostOf w) disk
    (plainParams object params) (Some prompt) cm heap
  = (fst (addContext fsMessage jsonLength w disk params prompt cm),
     (snd (addContext fsMessage jsonLength w disk params prompt cm), heap)).
Proof.
  unfold General.addContext, addContext.
  rewrite General_handlerOptions_plain.
  assert (Hroot : General.rootOf (hostOf w)
                    (General.param_projectRoot (plainParams object params))
                  = Ok (orString (param_projectRoot params) (cwd w))).
  { cbn [plainParams General.param_projectRoot].
    by destruct (param_projectRoot params) as [[|c s]|]. }
  rewrite Hroot. fold (handlerOptions params).
  set (projectRoot := orString (param_projectRoot params) (cwd w)).
  destruct (projectStructure cm) as [tree|] eqn:Htree.
  - rewrite General_generateProjectContext_plain.
    by destruct (generateProjectContext w (handlerOptions params) cm)
      as [[pc|e] cm2].
  - destruct (scanProject projectRoot (disk projectRoot) cm) as [[t|e] cm1];
      cbn [bind]; [|reflexivity].
    rewrite General_generateProjectContext_plain.
    by destruct (generateProjectContext w (handlerOptions params) cm1)
      as [[pc|e] cm2].
Qed.

(** ** The add-context tool on every request *)

Lemma rootOf_throw (h : General.Host) (root : option string) (e : JsError) :
  General.rootOf h root = Throw e ->
  e = FsError "uv_cwd" "" /\ General.cwdThrows h = true.
Proof.
  destruct root as [[|c s]|]; cbn [General.rootOf];
    first [discriminate | apply processCwd_throw].
Qed.

(** The handler once a tree is stored and the root is known. *)
Lemma General_addContext_scanned (fsMessage : string -> string -> string)
    (jsonLength : ProjectContext -> nat) (noBody : string) (h : General.Host)
    (disk : string -> RootListing) (params : General.Params)
    (prompt : option string) (cm : ContextManager) (heap : gmap nat nat)
    (tree : TreeNode) (projectRoot : string) :
  projectStructure cm = Some tree ->
  General.rootOf h (General.param_projectRoot params) = Ok projectRoot ->
  General.addContext fsMessage jsonLength noBody h disk params prompt cm heap
  = (match fst (General.generateProjectContext h
                  (General.handlerOptions params) cm heap), prompt with
     | Throw error, _ => General.failed fsMessage error
     | Ok context, None => General.failed fsMessage (ErrorMsg noBody)
     | Ok context, Some prompt =>
         Ok {| enhancedPrompt := enhancePromptWithContext prompt context;
               contextAdded := true;
               filesIncluded := length (relevantFiles context);
               contextSize := jsonLength context |}
     end,
     snd (General.generateProjectContext h (General.handlerOptions params)
            cm heap)).
Proof.
  intros Htree Hroot. unfold General.addContext. rewrite Hroot, Htree.
  destruct (General.generateProjectContext h (General.handlerOptions params)
              cm heap) as [[pc|e] state]; destruct prompt; reflexivity.
Qed.

Lemma General_addContext_unscanned (fsMessage : string -> string -> string)
    (jsonLength : ProjectContext -> nat) (noBody : string) (h : General.Host)
    (disk : string -> RootListing) (params : General.Params)
    (prompt : option string) (cm : ContextManager) (heap : gmap nat nat)
    (projectRoot : string) :
  projectStructure cm = None ->
  General.rootOf h (General.param_projectRoot params) = Ok projectRoot ->
  General.addContext fsMessage jsonLength noBody h disk params prompt cm heap
  = match scan projectRoot (disk projectRoot) with
    | Throw error => (General.failed fsMessage error, (cm, heap))
    | Ok tree =>
        General.addContext fsMessage jsonLength noBody h disk params prompt
          {| fileCache := fileCache cm; projectStructure := Some tree |} heap
    end.
Proof.
  intros Hnone Hroot. unfold General.addContext. rewrite Hroot, Hnone.
  unfold scanProject.
  destruct (scan projectRoot (disk projectRoot)) as [tree|e]; reflexivity.
Qed.

Lemma General_addContext_scanned_outcome
    (fsMessage : string -> string -> string)
    (jsonLength : ProjectContext -> nat) (noBody : string) (h : General.Host)
    (disk : string -> RootListing) (params : General.Params)
    (prompt : option string) (cm : ContextManager) (heap : gmap nat nat)
    (name rel : string) (children : list TreeNode) (projectRoot : string) :
  projectStructure cm = Some (Directory name rel children) ->
  General.rootOf h (General.param_projectRoot params) = Ok projectRoot ->
  let out :=
    General.addContext fsMessage jsonLength noBody h disk params prompt cm
      heap in
  projectStructure (fst (snd out)) = Some (Directory name rel children) /\
  (forall r, fst out = Ok r ->
     contextAdded r = true /\
     (forall k,
        capOf (General.orNumber (General.param_maxFiles params)
                 (General.ofNat 10)) = Some k ->
        filesIncluded r <= k) /\
     exists p, prompt = Some p /\ endsWith (enhancedPrompt r) p) /\
  (forall err, fst out = Throw err ->
     exists message,
       err = ErrorMsg ("Failed to add context: " ++ message) /\
       ((exists p, message = fsMessage "stat" p) \/
        (message = fsMessage "uv_cwd" "" /\ General.cwdThrows h = true) \/
        (message = noBody /\ prompt = None))).
Proof.
  intros Htree Hroot out. subst out.
  rewrite (General_addContext_scanned _ _ _ _ _ _ _ _ _ _ _ Htree Hroot).
  cbn [fst snd].
  destruct (General_generateProjectContext_outcome h
              (General.handlerOptions params) cm heap name rel children Htree)
    as (Hstored & Hfiles & Hthrow).
  split; [exact Hstored|]. split.
  - intros r H.
    destruct (fst (General.generateProjectContext h
                     (General.handlerOptions params) cm heap))
      as [pc|e] eqn:Hgen; [|discriminate].
    destruct prompt as [p|]; [|discriminate].
    injection H as <-. cbn [contextAdded filesIncluded enhancedPrompt].
    split; [done|]. split.
    + intros k Hcap. by apply (Hfiles pc k).
    + exists p. split; [done|]. apply enhancePromptWithContext_endsWith.
  - intros err H.
    destruct (fst (General.generateProjectContext h
                     (General.handlerOptions params) cm heap))
      as [pc|e] eqn:Hgen.
    + destruct prompt as [p|]; [discriminate|].
      injection H as <-. exists noBody. split; [done|]. by right; right.
    + assert (H' : err = ErrorMsg ("Failed to add context: "
                                     ++ messageOf fsMessage e)).
      { destruct prompt; by injection H as <-. }
      subst err.
      destruct (Hthrow e eq_refl) as [[-> Hcwd]|[p ->]].
      * exists (fsMessage "uv_cwd" ""). split; [done|]. right. by left.
      * exists (fsMessage "stat" p). split; [done|]. left. by exists p.
Qed.

(** What the tool gives on a manager whose tree, if any, is a directory. *)
Lemma General_addContext_outcome (fsMessage : string -> string -> string)
    (jsonLength : ProjectContext -> nat) (noBody : string) (h : General.Host)
    (disk : string -> RootListing) (params : General.Params)
    (prompt : option string) (cm : ContextManager) (heap : gmap nat nat) :
  rootIsDirectory cm ->
  let out :=
    General.addContext fsMessage jsonLength noBody h disk params prompt cm
      heap in
  (forall r, fst out = Ok r ->
     contextAdded r = true /\
     (forall k,
        capOf (General.orNumber (General.param_maxFiles params)
                 (General.ofNat 10)) = Some k ->
        filesIncluded r <= k) /\
     (exists p, prompt = Some p /\ endsWith (enhancedPrompt r) p) /\
     exists tree, projectStructure (fst (snd out)) = Some tree) /\
  (forall err, fst out = Throw err ->
     exists message,
       err = ErrorMsg ("Failed to add context: " ++ message) /\
       ((exists p, message = fsMessage "scandir" p /\
                   projectStructure cm = None /\ snd out = (cm, heap)) \/
        (exists p, message = fsMessage "stat" p /\
                   exists tree, projectStructure (fst (snd out)) = Some tree) \/
        (message = fsMessage "uv_cwd" "" /\ General.cwdThrows h = true) \/
        (message = noBody /\ prompt = None /\
         exists tree, projectStructure (fst (snd out)) = Some tree))).
Proof.
  intros Hdir out. subst out. unfold rootIsDirectory in Hdir.
  destruct (General.rootOf h (General.param_projectRoot params))
    as [projectRoot|e] eqn:Hroot.
  2:{ unfold General.addContext. rewrite Hroot. cbn [fst snd].
      split; [discriminate|]. intros err [= <-].
      apply rootOf_throw in Hroot as [-> Hcwd].
      exists (fsMessage "uv_cwd" ""). split; [done|]. right; right. by left. }
  destruct (projectStructure cm) as [[name rel children|? ? ?]|] eqn:Htree;
    [|done|].
  - destruct (General_addContext_scanned_outcome fsMessage jsonLength noBody h
                disk params prompt cm heap name rel children projectRoot
                Htree Hroot) as (Hstored & Hok & Hthrow).
    split.
    + intros r H. destruct (Hok r H) as (? & ? & ?).
      repeat split; try done. by eexists.
    + intros err H. destruct (Hthrow err H) as (m & -> & [[p ->]|[[-> ?]|[-> ?]]]).
      * exists (fsMessage "stat" p). split; [done|]. right; left.
        exists p. split; [done | by eexists].
      * exists (fsMessage "uv_cwd" ""). split; [done|]. right; right. by left.
      * exists noBody. split; [done|]. right; right; right.
        repeat split; try done. by eexists.
  - rewrite (General_addContext_unscanned _ _ _ _ _ _ _ _ _ _ Htree Hroot).
    destruct (scan projectRoot (disk projectRoot)) as [tree|e] eqn:Hscan.
    + destruct (scan_root_directory _ _ _ Hscan) as [children ->].
      set (name := Js.basename projectRoot).
      destruct (General_addContext_scanned_outcome fsMessage jsonLength noBody
                  h disk params prompt
                  {| fileCache := fileCache cm;
                     projectStructure := Some (Directory name "" children) |}
                  heap name "" children projectRoot eq_refl Hroot)
        as (Hstored & Hok & Hthrow).
      split.
      * intros r H. destruct (Hok r H) as (? & ? & ?).
        repeat split; try done. by eexists.
      * intros err H.
        destruct (Hthrow err H) as (m & -> & [[p ->]|[[-> ?]|[-> ?]]]).
        -- exists (fsMessage "stat" p). split; [done|]. right; left.
           exists p. split; [done | by eexists].
        -- exists (fsMessage "uv_cwd" ""). split; [done|]. right; right.
           by left.
        -- exists noBody. split; [done|]. right; right; right.
           repeat split; try done. by eexists.
    + cbn [fst snd]. split; [discriminate|].
      intros err [= <-]. destruct (scan_throw _ _ _ Hscan) as [p ->].
      exists (fsMessage "scandir" p). split; [done|]. left. by exists p.
Qed.

(** X3. In the [add-context] tool [||] replaces a parameter that is absent,
    and also a [maxFiles] or [maxDepth] that is zero or [NaN] and an empty
    [projectRoot], by the default (10, 3, [process.cwd()]).  Every other
    number passes unchanged, whatever its sign and whether or not it is an
    integer: a cap below one that is not zero, such as [-1] or [0.5], is not
    replaced, and a tool call that returns with such a cap has included no
    file. *)
Theorem add_context_zero_means_default
    (fsMessage : string -> string -> string)
    (jsonLength : ProjectContext -> nat) (noBody : string) (h : General.Host)
    (disk : string -> RootListing) (prompt : option string)
    (cm : ContextManager) (heap : gmap nat nat)
    (root : option string) (files depth : option General.Number)
    (incl excl : option (list General.Pattern)) :
  let call r f d i e :=
    General.addContext fsMessage jsonLength noBody h disk
      {| General.param_projectRoot := r; General.param_maxFiles := f;
         General.param_maxDepth := d; General.param_includePatterns := i;
         General.param_excludePatterns := e |}
      prompt cm heap in
  call root (Some (General.ofNat 0)) depth incl excl
    = call root (Some (General.ofNat 10)) depth incl excl /\
  call root (Some General.NaN) depth incl excl
    = call root (Some (General.ofNat 10)) depth incl excl /\
  call root files (Some (General.ofNat 0)) incl excl
    = call root files (Some (General.ofNat 3)) incl excl /\
  call root files (Some General.NaN) incl excl
    = call root files (Some (General.ofNat 3)) incl excl /\
  call (Some "") files depth incl excl = call None files depth incl excl /\
  (General.cwdThrows h = false ->
   call None files depth incl excl
     = call (Some (cwd (General.world h))) files depth incl excl) /\
  call None None None None None
    = call None (Some (General.ofNat 10)) (Some (General.ofNat 3))
        (Some []) (Some []) /\
  (forall x d, General.falsyNumber x = false ->
     General.orNumber (Some x) d = x) /\
  (forall q r,
     rootIsDirectory cm ->
     files = Some (General.Finite q) ->
     General.falsyNumber (General.Finite q) = false ->
     (General.truncate q <= 0)%Z ->
     fst (call root files depth incl excl) = Ok r ->
     filesIncluded r = 0).
Proof.
  intros call. subst call. cbv beta.
  split; [reflexivity|]. split; [reflexivity|]. split; [reflexivity|].
  split; [reflexivity|]. split; [reflexivity|]. split.
  { intros Hcwd. unfold General.addContext.
    cbn [General.param_projectRoot General.rootOf].
    unfold General.processCwd. rewrite Hcwd.
    by destruct (cwd (General.world h)). }
  split; [reflexivity|]. split.
  { intros x d Hx. unfold General.orNumber. by rewrite Hx. }
  intros q r Hdir -> Hq Htrunc H.
  destruct (General_addContext_outcome fsMessage jsonLength noBody h disk
              {| General.param_projectRoot := root;
                 General.param_maxFiles := Some (General.Finite q);
                 General.param_maxDepth := depth;
                 General.param_includePatterns := incl;
                 General.param_excludePatterns := excl |}
              prompt cm heap Hdir) as [Hok _].
  destruct (Hok r H) as (_ & Hcap & _).
  cbn [General.param_maxFiles] in Hcap. unfold General.orNumber in Hcap.
  rewrite Hq in Hcap.
  specialize (Hcap (Z.to_nat (General.truncate q)) eq_refl). lia.
Qed.

(** The tool with a cap of one half and with a cap of minus one: no file,
    where ten are allowed by default. *)
Example add_context_fractional_cap :
  let call params :=
    fst (General.addContext (fun syscall p => syscall ++ " " ++ p)
           (fun _ => 0) "no body" (hostOf bothOnDisk) twoFilesDisk params
           (Some "fix the bug") newContextManager ∅) in
  (exists r, call noParams = Ok r /\ filesIncluded r = 2) /\
  (exists r, call halfCap = Ok r /\ filesIncluded r = 0) /\
  (exists r, call negativeCap = Ok r /\ filesIncluded r = 0).
Proof.
  cbv zeta. repeat split; eexists; (split; [vm_compute; reflexivity|]);
    reflexivity.
Qed.



(** A request without a body: the scan and the call are made, then the
    read of the prompt throws. *)
Example add_context_without_body :
  General.addContext (fun syscall p => syscall ++ " " ++ p) (fun _ => 0)
    "no body" (hostOf bothOnDisk) twoFilesDisk noParams None
    newContextManager ∅
  = (Throw (ErrorMsg "Failed to add context: no body"), (afterFirstCall, ∅)).
Proof. vm_compute. reflexivity. Qed.

(** ** What the scan keeps *)

Lemma forEntries_complete (body : FsEntry -> result (option TreeNode))
    (entries : list FsEntry) (children : list TreeNode) (e : FsEntry)
    (child : TreeNode) :
  forEntries body entries = Ok children ->
  In e entries -> body e = Ok (Some child) -> In child children.
Proof.
  revert children. induction entries as [|x xs IH]; intros children H Hin Hb;
    [destruct Hin|].
  simpl in H. destruct (body x) as [pushed|] eqn:Hx; [|discriminate].
  cbn [bind] in H.
  destruct (forEntries body xs) as [more|] eqn:Hxs; [|discriminate].
  cbn [bind] in H. injection H as <-.
  destruct Hin as [->|Hin].
  - rewrite Hb in Hx. injection Hx as <-. by left.
  - specialize (IH more eq_refl Hin Hb). destruct pushed; [by right | done].
Qed.

Lemma forEntries_each_ok (body : FsEntry -> result (option TreeNode))
    (entries : list FsEntry) (children : list TreeNode) (e : FsEntry) :
  forEntries body entries = Ok children ->
  In e entries -> exists o, body e = Ok o.
Proof.
  intros H Hin.
  assert (Hex : exists cs, forEntries body entries = Ok cs)
    by (by exists children).
  apply forEntries_ok_iff in Hex. rewrite List.Forall_forall in Hex.
  by apply Hex.
Qed.

Lemma joinFrom_cons (rel name : string) (names : list string) :
  joinFrom rel (name :: names) = joinFrom (Js.path_join rel name) names.
Proof. reflexivity. Qed.

Lemma scan_keeps_below (entries : list FsEntry) (dirs : list string)
    (name : string) :
  Holds entries dirs name ->
  forall dir rel children,
  forEntries (scanEntry dir rel) entries = Ok children ->
  Forall (fun n => skipped n = false) (dirs ++ [name]) ->
  includes_str codeExtensions (Js.toLowerCase (Js.extname name)) = true ->
  exists child, In child children /\
    FileAt (length dirs) (joinFrom rel (dirs ++ [name])) child.
Proof.
  induction 1 as [entries name Hin|entries d sub dirs name Hin Hsub IH];
    intros dir rel children Hloop Hnames Hext.
  - apply Forall_cons_1 in Hnames as [Hname _].
    exists (File name (Js.path_join rel name)
                 (Js.toLowerCase (Js.extname name))).
    split; [|constructor].
    apply (forEntries_complete _ _ _ (FsFile name) _ Hloop Hin).
    by rewrite scanEntry_file, Hname, Hext.
  - simpl in Hnames. apply Forall_cons_1 in Hnames as [Hd Hrest].
    destruct (forEntries_each_ok _ _ _ _ Hloop Hin) as [o Ho].
    rewrite scanEntry_dir, Hd in Ho.
    destruct (forEntries _ sub) as [cs|] eqn:Hcs; [|discriminate].
    cbn [bind] in Ho.
    destruct (IH _ _ cs Hcs Hrest Hext) as (child & Hchild & Hat).
    eexists. split.
    + apply (forEntries_complete _ _ _ (FsDir d sub) _ Hloop Hin).
      by rewrite scanEntry_dir, Hd, Hcs.
    + cbn [length app]. rewrite joinFrom_cons.
      by apply (FileAt_child _ _ cs child).
Qed.

(** X7. The scan loses no code file: a file that lies below the scanned
    root under directories none of which is pruned, whose own name is not
    pruned and whose lower-cased extension is in the allow list, is a file
    leaf of the tree whenever the scan returns, at the depth and with the
    relative path of its place. *)
Theorem scan_keeps_code_files (projectRoot : string) (entries : list FsEntry)
    (tree : TreeNode) (dirs : list string) (name : string) :
  scan projectRoot (Listing entries) = Ok tree ->
  Holds entries dirs name ->
  Forall (fun n => skipped n = false) (dirs ++ [name]) ->
  In (Js.toLowerCase (Js.extname name)) codeExtensions ->
  FileAt (S (length dirs)) (joinFrom "" (dirs ++ [name])) tree.
Proof.
  unfold scan, buildProjectStructure. cbn [readdirSync bind].
  intros Hscan Hholds Hnames Hext.
  destruct (forEntries (scanEntry projectRoot "") entries) as [children|]
    eqn:Hloop; [|discriminate].
  cbn [bind] in Hscan. injection Hscan as <-.
  apply includes_str_In in Hext.
  destruct (scan_keeps_below _ _ _ Hholds _ _ _ Hloop Hnames Hext)
    as (child & Hchild & Hat).
  by apply (FileAt_child _ _ children child).
Qed.

Lemma scan_keeps_code_files_witness :
  FileAt (S (length ["src"])) (joinFrom "" (["src"] ++ ["a.ts"]))
    (Directory "app" ""
       [Directory "src" "src" [File "a.ts" "src/a.ts" ".ts"]]).
Proof.
  apply (scan_keeps_code_files "/srv/app" scenario1
           (Directory "app" ""
              [Directory "src" "src" [File "a.ts" "src/a.ts" ".ts"]])
           ["src"] "a.ts").
  - reflexivity.
  - apply (Holds_below _ "src" [FsFile "a.ts"; FsFile "b.txt"]);
      [by left|]. apply Holds_here. by left.
  - repeat constructor.
  - vm_compute. tauto.
Defined.

Lemma kept_pushes (e : FsEntry) (dir rel : string) (o : option TreeNode) :
  scanEntry dir rel e = Ok o ->
  match o with
  | Some child =>
      kept e = true /\
      node_path child = Js.path_join rel (entry_name e)
  | None => kept e = false
  end.
Proof.
  destruct e as [name|name sub|name];
    rewrite ?scanEntry_file, ?scanEntry_dir, ?scanEntry_denied;
    unfold kept; cbn [entry_name]; destruct (skipped name); cbn [negb andb];
    try by intros [= <-].
  - destruct (includes_str _ _); by intros [= <-].
  - destruct (forEntries _ sub); [|discriminate]. cbn [bind].
    by intros [= <-].
Qed.

(** X10. Below every directory, the children the scan pushes are, in the
    order of the enumeration, exactly the entries that are not pruned and
    that are directories or files with an allowed extension; each child has
    the relative path of the directory joined with the entry's name. *)
Theorem scan_children_in_enumeration_order (dir rel : string)
    (entries : list FsEntry) (tree : TreeNode) :
  buildProjectStructure dir rel entries = Ok tree ->
  exists children,
    tree = Directory (Js.basename dir) rel children /\
    map node_path children
      = map (fun e => Js.path_join rel (entry_name e))
            (List.filter kept entries) /\
    length children <= length entries.
Proof.
  unfold buildProjectStructure. intros H.
  destruct (forEntries (scanEntry dir rel) entries) as [children|] eqn:Hloop;
    [|discriminate].
  cbn [bind] in H. injection H as <-. exists children.
  split; [done|].
  revert children Hloop. induction entries as [|e es IH]; intros children H.
  - injection H as <-. split; [done | simpl; lia].
  - simpl in H. destruct (scanEntry dir rel e) as [o|] eqn:He; [|discriminate].
    cbn [bind] in H.
    destruct (forEntries (scanEntry dir rel) es) as [more|] eqn:Hes;
      [|discriminate].
    cbn [bind] in H. injection H as <-.
    destruct (IH more eq_refl) as [Hpaths Hlen].
    apply kept_pushes in He. cbn [List.filter length].
    destruct o as [child|].
    + destruct He as [-> Hpath]. cbn [map length].
      rewrite Hpath, Hpaths. split; [done | lia].
    + rewrite He. split; [done | lia].
Qed.

Lemma scan_children_in_enumeration_order_witness :
  exists children,
    Directory "app" "" [Directory "src" "src" [File "a.ts" "src/a.ts" ".ts"]]
      = Directory (Js.basename "/srv/app") "" children /\
    map node_path children
      = map (fun e => Js.path_join "" (entry_name e))
            (List.filter kept scenario1) /\
    length children <= length scenario1.
Proof.
  apply (scan_children_in_enumeration_order "/srv/app" "" scenario1
           (Directory "app" ""
              [Directory "src" "src" [File "a.ts" "src/a.ts" ".ts"]])).
  reflexivity.
Defined.

(** ** Caps and patterns *)

Lemma reachableCandidates_withMaxFiles (n : nat) (o : Options) (d : nat)
    (node : TreeNode) :
  reachableCandidates (withMaxFiles n o) d node = reachableCandidates o d node.
Proof. reflexivity. Qed.

(** X11. Raising the cap only appends: on a directory, the selection under
    a cap [n] is the first [n] files of the selection under any larger cap,
    depth and patterns being the same. *)
Theorem raising_cap_extends_selection (cwd : string) (o : Options)
    (n m d : nat) (name rel : string) (children : list TreeNode) :
  n <= m ->
  findRelevantFiles cwd (withMaxFiles n o) d (Directory name rel children)
  = take n (findRelevantFiles cwd (withMaxFiles m o) d
              (Directory name rel children)).
Proof.
  intros Hle. rewrite !findRelevantFiles_directory.
  rewrite !reachableCandidates_withMaxFiles. cbn [maxFiles withMaxFiles].
  rewrite take_take. f_equal. lia.
Qed.

Lemma raising_cap_extends_selection_witness :
  findRelevantFiles "/srv/app" (withMaxFiles 1 defaultOptions) 0
    (Directory "app" "" [File "a.js" "a.js" ".js"; File "b.js" "b.js" ".js"])
  = take 1 (findRelevantFiles "/srv/app" (withMaxFiles 2 defaultOptions) 0
              (Directory "app" ""
                 [File "a.js" "a.js" ".js"; File "b.js" "b.js" ".js"])).
Proof.
  apply (raising_cap_extends_selection "/srv/app" defaultOptions 1 2 0
           "app" "" [File "a.js" "a.js" ".js"; File "b.js" "b.js" ".js"]).
  lia.
Defined.


(** Nothing is selected when no path is a candidate. *)
Lemma no_candidate_no_selection (cwd : string) (o : Options) (d : nat)
    (node : TreeNode) :
  (forall path, candidate o path = false) ->
  findRelevantFiles cwd o d node = [].
Proof.
  intros Hnone.
  destruct (findRelevantFiles cwd o d node) as [|r l] eqn:Hsel; [done|].
  destruct (selected_from_leaf cwd o d node r) as (k & p & _ & _ & Hc & _).
  { rewrite Hsel. by left. }
  by rewrite Hnone in Hc.
Qed.

(** The traversal depends on the patterns through the candidate test
    alone. *)
Lemma findRelevantFiles_ext (cwd : string) (o o' : Options) (node : TreeNode) :
  maxFiles o = maxFiles o' -> maxDepth o = maxDepth o' ->
  (forall path, candidate o path = candidate o' path) ->
  forall d, findRelevantFiles cwd o d node = findRelevantFiles cwd o' d node.
Proof.
  intros Hfiles Hdepth Hcand.
  induction node as [name rel children IH|name rel ext]
    using TreeNode_nested_ind; intros d.
  - rewrite !findRelevantFiles_dir, <- Hfiles, <- Hdepth.
    destruct (maxDepth o <? d)%nat; [done|].
    generalize (@nil RelevantFile).
    induction IH as [|c cs Hc _ IHcs]; intros results; [done|].
    cbn [forChildren]. destruct (maxFiles o <=? length results)%nat; [done|].
    by rewrite Hc, IHcs.
  - rewrite !findRelevantFiles_file, <- Hdepth, Hcand. done.
Qed.


(** X13. A pattern that is neither a string nor a [RegExp] (a number, an
    object, null) matches no path.  Include patterns made of such values
    alone select nothing on any tree, and such a value among the exclude
    patterns changes nothing. *)
Theorem other_pattern_matches_nothing (cwd : string) (o : Options)
    (d : nat) (node : TreeNode) :
  (includePatterns o <> [] ->
   Forall (fun pattern => pattern = POther) (includePatterns o) ->
   findRelevantFiles cwd o d node = []) /\
  findRelevantFiles cwd
    {| maxFiles := maxFiles o; maxDepth := maxDepth o;
       includePatterns := includePatterns o;
       excludePatterns := POther :: excludePatterns o |} d node
  = findRelevantFiles cwd o d node.
Proof.
  split.
  - intros Hne Hall. apply no_candidate_no_selection. intros path.
    unfold candidate.
    replace (matchesInclude o path) with false; [done|].
    symmetry. unfold matchesInclude. apply orb_false_iff. split.
    + destruct (includePatterns o); [done | reflexivity].
    + apply not_true_iff_false. intros Hex.
      apply existsb_exists in Hex as (pattern & Hin & Hm).
      rewrite List.Forall_forall in Hall. by rewrite (Hall pattern Hin) in Hm.
  - by apply findRelevantFiles_ext.
Qed.

(** ** The cache over several calls *)

Lemma getFileContent_size (w : World) (p : string)
    (cache : gmap string string) :
  cache ⊆ snd (getFileContent w p cache) /\
  size (snd (getFileContent w p cache)) <= S (size cache).
Proof.
  rewrite getFileContent_snd.
  destruct (cache !! p) eqn:Hp; [split; [done | lia]|].
  destruct (readFileSync w p); [|split; [done | lia]].
  split; [by apply insert_subseteq|].
  rewrite map_size_insert, Hp. lia.
Qed.

Lemma readAll_size (w : World) (paths : list string) :
  forall cache,
  cache ⊆ snd (readAll w paths cache) /\
  size (snd (readAll w paths cache)) <= size cache + length paths.
Proof.
  induction paths as [|p rest IH]; intros cache.
  - simpl. split; [done | lia].
  - rewrite readAll_cons. cbn [snd length].
    destruct (getFileContent_size w p cache) as [Hsub Hsize].
    destruct (IH (snd (getFileContent w p cache))) as [Hsub' Hsize'].
    split; [by etransitivity | lia].
Qed.

(** X14. A call only adds to the cache, and adds at most one entry per
    selected file: on a tree rooted at a directory the cache after the call
    extends the cache before it by at most [maxFiles] entries, whether the
    call returns or throws. *)
Theorem cache_grows_by_at_most_cap (w : World) (o : Options)
    (cm : ContextManager) (name rel : string) (children : list TreeNode) :
  projectStructure cm = Some (Directory name rel children) ->
  fileCache cm ⊆ fileCache (snd (generateProjectContext w o cm)) /\
  size (fileCache (snd (generateProjectContext w o cm)))
    <= size (fileCache cm) + maxFiles o.
Proof.
  intros Htree.
  destruct (generateProjectContext_cache w o cm _ Htree) as [-> _].
  destruct (readAll_size w
              (map absolutePath
                 (findRelevantFiles (cwd w) o 0 (Directory name rel children)))
              (fileCache cm)) as [Hsub Hsize].
  split; [exact Hsub|].
  assert (Hlen : length (map absolutePath
                   (findRelevantFiles (cwd w) o 0
                      (Directory name rel children))) <= maxFiles o).
  { rewrite length_map, findRelevantFiles_directory, length_take. lia. }
  lia.
Qed.

Lemma cache_grows_by_at_most_cap_witness :
  fileCache scannedTwoFiles
    ⊆ fileCache (snd (generateProjectContext bothOnDisk defaultOptions
                        scannedTwoFiles)) /\
  size (fileCache (snd (generateProjectContext bothOnDisk defaultOptions
                          scannedTwoFiles)))
    <= size (fileCache scannedTwoFiles) + maxFiles defaultOptions.
Proof.
  apply (cache_grows_by_at_most_cap bothOnDisk defaultOptions scannedTwoFiles
           "app" "" [File "a.js" "a.js" ".js"; File "b.js" "b.js" ".js"]).
  reflexivity.
Defined.

(** X15. An empty file stays dropped.  Once a selected file has been read
    as the empty string, the empty string is cached for its path, and no
    later call, whatever the options and whatever the file holds by then,
    has a file with that path in its result. *)
Theorem empty_file_never_recovers (w w' : World) (o o' : Options)
    (cm : ContextManager) (tree : TreeNode) (p : string) :
  projectStructure cm = Some tree ->
  In p (map absolutePath (findRelevantFiles (cwd w) o 0 tree)) ->
  fileCache cm !! p = None ->
  readFileSync w p = Some "" ->
  fileCache (snd (generateProjectContext w o cm)) !! p = Some "" /\
  (forall pc',
     fst (generateProjectContext w' o' (snd (generateProjectContext w o cm)))
       = Ok pc' ->
     forall ctx, In ctx (relevantFiles pc') -> path ctx <> p).
Proof.
  intros Htree Hin Hnone Hread.
  destruct (generateProjectContext_cache w o cm tree Htree) as [Hcache Hps].
  assert (Hstored : fileCache (snd (generateProjectContext w o cm)) !! p
                    = Some "").
  { rewrite Hcache. apply readAll_stores; [done|].
    unfold contentOf. by rewrite Hnone. }
  split; [exact Hstored|].
  intros pc' Hok ctx Hctx Hpath.
  destruct (files_selected w' o' _ tree pc' Hps Hok ctx Hctx)
    as ((Hc & Hne & _) & _).
  rewrite Hpath in Hc. unfold contentOf in Hc. rewrite Hstored in Hc.
  injection Hc as Hc. by apply Hne.
Qed.


Lemma empty_file_never_recovers_witness :
  fileCache (snd (generateProjectContext emptyOnDisk defaultOptions
                    scannedEmptyFile)) !! "/srv/app/empty.js" = Some "" /\
  (forall pc',
     fst (generateProjectContext filledOnDisk depthOne
            (snd (generateProjectContext emptyOnDisk defaultOptions
                    scannedEmptyFile))) = Ok pc' ->
     forall ctx, In ctx (relevantFiles pc') ->
       path ctx <> "/srv/app/empty.js").
Proof.
  apply (empty_file_never_recovers emptyOnDisk filledOnDisk defaultOptions
           depthOne scannedEmptyFile
           (Directory "app" ""
              [File "empty.js" "empty.js" ".js"; File "b.js" "b.js" ".js"])
           "/srv/app/empty.js").
  - reflexivity.
  - vm_compute. tauto.
  - reflexivity.
  - reflexivity.
Defined.


(** ** Where the reads go *)

Lemma scanEntry_leaf_paths (e : FsEntry) :
  valid_entry e = true ->
  forall dir rel t, scanEntry dir rel e = Ok (Some t) ->
  forall d p, FileAt d p t ->
  exists rest,
    length rest = d /\ forallb valid_name (entry_name e :: rest) = true /\
    Forall (fun n => skipped n = false) (entry_name e :: rest) /\
    p = joinFrom rel (entry_name e :: rest).
Proof.
  induction e as [name|name sub IH|name] using FsEntry_nested_ind;
    intros Hvalid dir rel t H;
    rewrite ?scanEntry_file, ?scanEntry_dir, ?scanEntry_denied in H;
    destruct (skipped name) eqn:Hskip; try discriminate.
  - destruct (includes_str codeExtensions _); [|discriminate].
    injection H as <-. intros d p Hat. inversion Hat; subst.
    exists []. simpl in Hvalid. rewrite andb_true_r in Hvalid.
    repeat split; [by simpl; rewrite Hvalid | by repeat constructor].
  - simpl in Hvalid. apply andb_true_iff in Hvalid as [Hname Hsub].
    destruct (forEntries _ sub) as [children|] eqn:Hloop; [|discriminate].
    cbn [bind] in H. injection H as <-.
    intros d p Hat. inversion Hat as [|? ? ? child d' ? Hin Hchild]; subst.
    destruct (forEntries_In _ _ _ Hloop child Hin) as (e & He & Hbody).
    rewrite List.Forall_forall in IH. rewrite forallb_forall in Hsub.
    destruct (IH e He (Hsub e He) _ _ _ Hbody d' p Hchild)
      as (rest & Hlen & Hv & Hs & ->).
    exists (entry_name e :: rest). cbn [entry_name]. repeat split.
    + simpl. by rewrite Hlen.
    + apply andb_true_iff. split; [exact Hname | exact Hv].
    + by constructor.
Qed.

Lemma path_resolve_relative (cwd name : string) (rest : list string) :
  valid_name name = true -> forallb valid_name rest = true ->
  Js.path_resolve cwd (joinFrom "" (name :: rest))
  = (if String.eqb cwd "/" then "" else cwd) ++ suffixOf (name :: rest).
Proof.
  intros Hname Hrest.
  change (joinFrom "" (name :: rest)) with (joinFrom name rest).
  rewrite (joinFrom_suffix rest name)
    by (done || by apply valid_name_nonempty).
  unfold Js.path_resolve. rewrite (valid_name_relative name _ Hname).
  destruct (name ++ suffixOf rest) as [|x s] eqn:Hp.
  { apply valid_name_nonempty in Hname.
    by apply (append_nonempty_l name (suffixOf rest)) in Hname. }
  rewrite <- Hp. cbn [suffixOf].
  by destruct (String.eqb cwd "/").
Qed.

(** X17. Every path read for a tree the scan built is the working
    directory followed, for each name on the way from the scanned root to
    the file, by a separator and the name; there are at most [maxDepth]
    names, none is empty, none holds a separator and none begins with a
    dot, so that no segment is [.] or [..] and [path.resolve] has nothing
    to normalise. *)
Theorem reads_stay_below_cwd (cwd : string) (o : Options)
    (projectRoot : string) (entries : list FsEntry) (tree : TreeNode)
    (r : RelevantFile) :
  forallb valid_entry entries = true ->
  scan projectRoot (Listing entries) = Ok tree ->
  In r (findRelevantFiles cwd o 0 tree) ->
  exists names,
    names <> [] /\ length names <= maxDepth o /\
    Forall (fun n => n <> "" /\ Js.includes n "/" = false /\
                     Js.startsWith n "." = false) names /\
    file_path r = joinFrom "" names /\
    absolutePath r
      = (if String.eqb cwd "/" then "" else cwd) ++ suffixOf names.
Proof.
  intros Hvalid Hscan Hr.
  destruct (selected_from_leaf _ _ _ _ _ Hr) as (k & p & Hleaf & Hk & _ & ->).
  destruct (leaves_FileAt _ _ _ _ Hleaf) as (j & -> & Hat).
  unfold scan, buildProjectStructure in Hscan. cbn [readdirSync bind] in Hscan.
  destruct (forEntries (scanEntry projectRoot "") entries) as [children|]
    eqn:Hloop; [|discriminate].
  cbn [bind] in Hscan. injection Hscan as <-.
  inversion Hat as [|? ? ? child d ? Hin Hchild]; subst.
  destruct (forEntries_In _ _ _ Hloop child Hin) as (e & He & Hbody).
  rewrite forallb_forall in Hvalid.
  destruct (scanEntry_leaf_paths e (Hvalid e He) _ _ _ Hbody d p Hchild)
    as (rest & Hlen & Hv & Hs & ->).
  exists (entry_name e :: rest). set (name := entry_name e) in *.
  split; [done|]. split; [simpl in *; lia|]. split; [|split; [done|]].
  - apply List.Forall_forall. intros n Hn.
    rewrite forallb_forall in Hv. specialize (Hv n Hn).
    rewrite List.Forall_forall in Hs. specialize (Hs n Hn).
    apply not_skipped_spec in Hs as (_ & _ & _ & _ & Hdot).
    unfold valid_name in Hv. apply andb_true_iff in Hv as [Hne Hns].
    apply negb_true_iff in Hne, Hns. apply String.eqb_neq in Hne. done.
  - cbn [absolutePath relevantFile]. simpl in Hv.
    apply andb_true_iff in Hv as [Hname Hrest].
    by apply path_resolve_relative.
Qed.

Lemma reads_stay_below_cwd_witness :
  exists names,
    names <> [] /\ length names <= maxDepth defaultOptions /\
    Forall (fun n => n <> "" /\ Js.includes n "/" = false /\
                     Js.startsWith n "." = false) names /\
    file_path (relevantFile "/srv/app" "src/b.js") = joinFrom "" names /\
    absolutePath (relevantFile "/srv/app" "src/b.js")
      = (if String.eqb "/srv/app" "/" then "" else "/srv/app")
        ++ suffixOf names.
Proof.
  apply (reads_stay_below_cwd "/srv/app" defaultOptions "/srv/app" nested
           nestedTree (relevantFile "/srv/app" "src/b.js")).
  - reflexivity.
  - reflexivity.
  - vm_compute. tauto.
Defined.

(** ** Repeated requests *)

(** X18. Repeating a request to the [add-context] tool in an unchanged
    world gives the same answer and leaves the manager as the first request
    left it: the scan is not repeated after it succeeded, the cached contents
    answer the reads, and a scan that failed fails again. *)
Theorem add_context_idempotent (fsMessage : string -> string -> string)
    (jsonLength : ProjectContext -> nat) (w : World)
    (disk : string -> RootListing) (params : Params) (prompt : string)
    (cm : ContextManager) :
  addContext fsMessage jsonLength w disk params prompt
    (snd (addContext fsMessage jsonLength w disk params prompt cm))
  = addContext fsMessage jsonLength w disk params prompt cm.
Proof.
  assert (Hscanned : forall cm' tree,
            projectStructure cm' = Some tree ->
            addContext fsMessage jsonLength w disk params prompt
              (snd (addContext fsMessage jsonLength w disk params prompt cm'))
            = addContext fsMessage jsonLength w disk params prompt cm').
  { intros cm' tree Htree.
    rewrite (addContext_scanned _ _ _ _ _ _ cm' tree Htree). cbn [snd].
    destruct (generateProjectContext_cache w (handlerOptions params) cm' tree
                Htree) as [_ Hps].
    rewrite (addContext_scanned _ _ _ _ _ _ _ tree Hps).
    by rewrite generateProjectContext_twice. }
  destruct (projectStructure cm) as [tree|] eqn:Htree; [by eapply Hscanned|].
  rewrite (addContext_unscanned _ _ _ _ _ _ _ Htree). cbv zeta.
  destruct (scan _ _) as [tree|e] eqn:Hscan.
  - by apply (Hscanned _ tree).
  - cbn [snd]. rewrite (addContext_unscanned _ _ _ _ _ _ _ Htree). cbv zeta.
    by rewrite Hscan.
Qed.

(** The tool on a fresh manager, two files on disk, no parameter. *)
Example add_context_fresh :
  fst (addContext (fun syscall p => syscall ++ " " ++ p) (fun _ => 0)
         bothOnDisk twoFilesDisk
         {| param_projectRoot := None; param_maxFiles := None;
            param_maxDepth := None; param_includePatterns := None;
            param_excludePatterns := None |}
         "fix the bug" newContextManager)
  = Ok {| enhancedPrompt :=
            "PROJECT CONTEXT:" ++ String "010" (String "010" "")
            ++ "Project Structure:" ++ String "010" ""
            ++ "📁 app/" ++ String "010" ""
            ++ "  📄 a.js" ++ String "010" ""
            ++ "  📄 b.js" ++ String "010" ""
            ++ String "010" (String "010" "")
            ++ "Relevant Files:" ++ String "010" (String "010" "")
            ++ "--- FILE: /srv/app/a.js ---" ++ String "010" ""
            ++ "let a" ++ String "010" (String "010" "")
            ++ "--- FILE: /srv/app/b.js ---" ++ String "010" ""
            ++ "let b" ++ String "010" (String "010" "")
            ++ String "010" (String "010" "")
            ++ "USER QUERY:" ++ String "010" "" ++ "fix the bug";
          contextAdded := true; filesIncluded := 2; contextSize := 0 |}.
Proof. vm_compute. reflexivity. Qed.

(** ** Paths identify the nodes *)

Lemma suffixOf_shape (rest : list string) :
  suffixOf rest = "" \/ exists t, suffixOf rest = String "/" t.
Proof. destruct rest as [|n rest]; [by left | right; by eexists]. Qed.

(** Two joined paths that are equal begin with the same name. *)
Lemma first_segment (a b s t : string) :
  Js.includes a "/" = false -> Js.includes b "/" = false ->
  (s = "" \/ exists s', s = String "/" s') ->
  (t = "" \/ exists t', t = String "/" t') ->
  a ++ s = b ++ t -> a = b.
Proof.
  revert b. induction a as [|x a IH]; intros b Ha Hb Hs Ht Heq.
  - destruct b as [|y b]; [done|]. exfalso.
    rewrite includes_cons, startsWith_char in Hb.
    apply orb_false_iff in Hb as [Hy _].
    rewrite append_nil_l, append_cons in Heq.
    destruct Hs as [->|[s' ->]]; [discriminate|].
    injection Heq as <- _. by rewrite Ascii.eqb_refl in Hy.
  - rewrite includes_cons, startsWith_char in Ha.
    apply orb_false_iff in Ha as [Hx Ha].
    destruct b as [|y b].
    + exfalso. rewrite append_nil_l, append_cons in Heq.
      destruct Ht as [->|[t' ->]]; [discriminate|].
      injection Heq as -> _. by rewrite Ascii.eqb_refl in Hx.
    + rewrite includes_cons, startsWith_char in Hb.
      apply orb_false_iff in Hb as [_ Hb].
      rewrite !append_cons in Heq. injection Heq as -> Heq.
      f_equal. by apply (IH b).
Qed.

Lemma valid_name_no_slash (name : string) :
  valid_name name = true -> Js.includes name "/" = false.
Proof.
  unfold valid_name. intros H. apply andb_true_iff in H as [_ H].
  by apply negb_true_iff in H.
Qed.

Lemma joinFrom_first_name (rel n n' : string) (rest rest' : list string) :
  forallb valid_name (n :: rest) = true ->
  forallb valid_name (n' :: rest') = true ->
  joinFrom rel (n :: rest) = joinFrom rel (n' :: rest') -> n = n'.
Proof.
  cbn [forallb]. intros Hv Hv' Heq.
  apply andb_true_iff in Hv as [Hn Hrest].
  apply andb_true_iff in Hv' as [Hn' Hrest'].
  rewrite !joinFrom_cons in Heq.
  pose proof (valid_name_nonempty n Hn) as Hne.
  pose proof (valid_name_nonempty n' Hn') as Hne'.
  destruct rel as [|x rel].
  - change (Js.path_join "" n) with n in Heq.
    change (Js.path_join "" n') with n' in Heq.
    rewrite !joinFrom_suffix in Heq by done.
    apply (first_segment n n' (suffixOf rest) (suffixOf rest'));
      auto using valid_name_no_slash, suffixOf_shape.
  - rewrite !path_join_nonempty in Heq by done.
    rewrite !joinFrom_suffix in Heq
      by (done || by apply append_nonempty_l).
    rewrite !append_assoc in Heq.
    apply (inj (String.app (String x rel))) in Heq.
    apply (inj (String.app "/")) in Heq.
    apply (first_segment n n' (suffixOf rest) (suffixOf rest'));
      auto using valid_name_no_slash, suffixOf_shape.
Qed.

Lemma allEntries_In (P : FsEntry -> Prop) (entries : list FsEntry)
    (e : FsEntry) :
  allEntries P entries -> In e entries -> P e.
Proof.
  induction entries as [|x xs IH]; intros Hall Hin; [destruct Hin|].
  destruct Hall as [Hx Hxs]. destruct Hin as [->|Hin]; [done | by apply IH].
Qed.

(** The leaves pushed by one loop have distinct paths when the leaves of
    each child have. *)
Lemma forEntries_NoDup (dir rel : string) (entries : list FsEntry) :
  forallb valid_entry entries = true ->
  NoDup (map entry_name entries) ->
  (forall e t, In e entries -> scanEntry dir rel e = Ok (Some t) ->
     forall d, NoDup (map snd (leaves d t))) ->
  forall children d,
  forEntries (scanEntry dir rel) entries = Ok children ->
  NoDup (map snd (flat_map (leaves d) children)).
Proof.
  induction entries as [|e es IH]; intros Hvalid Hnames Heach children d H.
  - injection H as <-. constructor.
  - simpl in H. destruct (scanEntry dir rel e) as [pushed|] eqn:He;
      [|discriminate].
    cbn [bind] in H.
    destruct (forEntries (scanEntry dir rel) es) as [more|] eqn:Hes;
      [|discriminate].
    cbn [bind] in H. injection H as <-.
    cbn [forallb] in Hvalid. apply andb_true_iff in Hvalid as [Hve Hves].
    cbn [map] in Hnames. apply NoDup_cons in Hnames as [Hfresh Hnames].
    assert (Hmore : NoDup (map snd (flat_map (leaves d) more))).
    { apply IH; try done. intros e' t Hin. apply Heach. by right. }
    destruct pushed as [child|]; [|exact Hmore].
    cbn [flat_map]. rewrite List.map_app. apply NoDup_app.
    split; [apply (Heach e child); [by left | done]|].
    split; [|exact Hmore].
    intros p Hp Hp'.
    apply list_elem_of_In, in_map_iff in Hp as ([k q] & <- & Hleaf).
    apply list_elem_of_In, in_map_iff in Hp' as ([k' q'] & Hq & Hleaf').
    cbn [snd] in *. subst q'.
    apply in_flat_map in Hleaf' as (child' & Hchild' & Hleaf').
    destruct (forEntries_In _ _ _ Hes child' Hchild') as (e' & He' & Hbody').
    destruct (leaves_FileAt _ _ _ _ Hleaf) as (j & _ & Hat).
    destruct (leaves_FileAt _ _ _ _ Hleaf') as (j' & _ & Hat').
    rewrite forallb_forall in Hves.
    destruct (scanEntry_leaf_paths e Hve _ _ _ He j q Hat)
      as (rest & _ & Hv & _ & Hq).
    destruct (scanEntry_leaf_paths e' (Hves e' He') _ _ _ Hbody' j' q Hat')
      as (rest' & _ & Hv' & _ & Hq').
    rewrite Hq in Hq'.
    apply joinFrom_first_name in Hq'; [|done|done].
    apply Hfresh. rewrite Hq'. apply list_elem_of_In, in_map. exact He'.
Qed.

Lemma scanEntry_NoDup (e : FsEntry) :
  valid_entry e = true -> distinct_names e ->
  forall dir rel t, scanEntry dir rel e = Ok (Some t) ->
  forall d, NoDup (map snd (leaves d t)).
Proof.
  induction e as [name|name sub IH|name] using FsEntry_nested_ind;
    intros Hvalid Hdistinct dir rel t H;
    rewrite ?scanEntry_file, ?scanEntry_dir, ?scanEntry_denied in H;
    destruct (skipped name); try discriminate.
  - destruct (includes_str codeExtensions _); [|discriminate].
    injection H as <-. intros d. simpl. repeat constructor. by intros ?%elem_of_nil.
  - simpl in Hvalid. apply andb_true_iff in Hvalid as [_ Hsub].
    destruct Hdistinct as [Hnames Hall].
    destruct (forEntries _ sub) as [children|] eqn:Hloop; [|discriminate].
    cbn [bind] in H. injection H as <-. intros d. cbn [leaves].
    apply (forEntries_NoDup (Js.path_join dir name) (Js.path_join rel name)
             sub Hsub Hnames) with (children := children); [|exact Hloop].
    intros e t He Hbody. rewrite List.Forall_forall in IH.
    rewrite forallb_forall in Hsub.
    apply (IH e He (Hsub e He) (allEntries_In _ _ _ Hall He) _ _ _ Hbody).
Qed.

(** X19. In a file system whose directories hold no two entries of the
    same name, no two file leaves of the scanned tree share a relative
    path, and no two selected files share one. *)
Theorem leaf_paths_are_distinct (cwd : string) (o : Options)
    (projectRoot : string) (entries : list FsEntry) (tree : TreeNode) :
  forallb valid_entry entries = true ->
  NoDup (map entry_name entries) ->
  allEntries distinct_names entries ->
  scan projectRoot (Listing entries) = Ok tree ->
  NoDup (map snd (leaves 0 tree)) /\
  NoDup (map file_path (findRelevantFiles cwd o 0 tree)).
Proof.
  intros Hvalid Hnames Hall Hscan.
  unfold scan, buildProjectStructure in Hscan. cbn [readdirSync bind] in Hscan.
  destruct (forEntries (scanEntry projectRoot "") entries) as [children|]
    eqn:Hloop; [|discriminate].
  cbn [bind] in Hscan. injection Hscan as <-.
  assert (Hleaves : NoDup (map snd (leaves 0
            (Directory (Js.basename projectRoot) "" children)))).
  { cbn [leaves].
    apply (forEntries_NoDup projectRoot "" entries Hvalid Hnames)
      with (children := children); [|exact Hloop].
    intros e t He Hbody. rewrite forallb_forall in Hvalid.
    apply (scanEntry_NoDup e (Hvalid e He) (allEntries_In _ _ _ Hall He)
             _ _ _ Hbody). }
  split; [exact Hleaves|].
  rewrite findRelevantFiles_directory.
  rewrite <- firstn_map, List.map_map. cbn [file_path relevantFile].
  rewrite List.map_id.
  eapply sublist_NoDup; [|apply sublist_take].
  unfold reachableCandidates.
  eapply sublist_NoDup; [exact Hleaves|].
  generalize (leaves 0 (Directory (Js.basename projectRoot) "" children)).
  intros l. induction l as [|x l IH]; simpl; [constructor|].
  destruct (_ && _); simpl; [by constructor | by apply sublist_cons].
Qed.

Lemma leaf_paths_are_distinct_witness :
  NoDup (map snd (leaves 0 nestedTree)) /\
  NoDup (map file_path (findRelevantFiles "/srv/app" defaultOptions 0
                          nestedTree)).
Proof.
  apply (leaf_paths_are_distinct "/srv/app" defaultOptions "/srv/app" nested
           nestedTree).
  - reflexivity.
  - simpl. apply NoDup_cons. split; [|apply NoDup_singleton].
    intros Hin. apply list_elem_of_In in Hin. simpl in Hin.
    destruct Hin as [Hin|[]]. discriminate Hin.
  - simpl. repeat split. apply NoDup_singleton.
  - reflexivity.
Defined.
